(** * pkgcheck: git history support (src/pkgcheck/git.py)

    A shallow embedding of the git addon of pkgcheck: the log parser
    [ParsedGitRepo.parse_git_log], the cache merge [ParsedGitRepo.update],
    the history repositories ([GitChangedRepo] and its subclasses), the
    [--commits] argparse action [_ScanCommits], the stash context manager
    [GitStash], [GitAddon.update_cache] and the methods of [GitAddon] that
    read the caches and the local commits ([cached_repo], [commits_repo],
    [commits], [gitignored]).

    Conventions.
    - A Python [str] is a [string]; its characters are code points below 256.
    - The standard output of a git process is the list of the lines it
      printed, each line without its terminating newline; [readline] puts
      the newline back and returns the empty string at the end of the stream.
    - Dictionaries are [gmap]s, Python sets are [gset]s.
    - External processes (git) are oracles: their results are inputs of the
      functions, and the commands that are run are recorded in a trace. *)

From Stdlib Require Import String Ascii List Bool Arith Lia Permutation.
From stdpp Require Import base option list gmap strings fin_maps sorting.

Import ListNotations.

(** ** Python string helpers *)

Module PyStr.

(** [str.isspace] on one character (code points below 256). *)
Definition is_space (c : ascii) : bool :=
  let n := nat_of_ascii c in
  (((9 <=? n) && (n <=? 13)) || ((28 <=? n) && (n <=? 32))
   || (n =? 133) || (n =? 160))%nat.

Definition is_digit (c : ascii) : bool :=
  let n := nat_of_ascii c in ((48 <=? n) && (n <=? 57))%nat.

Definition newline : ascii := ascii_of_nat 10.
Definition tab : ascii := ascii_of_nat 9.
Definition slash : ascii := ascii_of_nat 47.
Definition is_newline (c : ascii) : bool := Ascii.eqb c newline.

(** [s.lstrip(chars)], the set of characters given as a predicate. *)
Fixpoint lstrip (p : ascii -> bool) (s : string) : string :=
  match s with
  | EmptyString => EmptyString
  | String c s' => if p c then lstrip p s' else s
  end.

(** [s.rstrip(chars)]: a character is dropped when it is in the set and
    everything after it has been dropped. *)
Fixpoint rstrip (p : ascii -> bool) (s : string) : string :=
  match s with
  | EmptyString => EmptyString
  | String c s' =>
      match rstrip p s' with
      | EmptyString => if p c then EmptyString else String c EmptyString
      | r => String c r
      end
  end.

(** [s.strip()] and [s.strip('\n')]. *)
Definition strip_chars (p : ascii -> bool) (s : string) : string :=
  rstrip p (lstrip p s).
Definition strip (s : string) : string := strip_chars is_space s.
Definition strip_nl (s : string) : string := strip_chars is_newline s.

(** Truth value of a string: [bool(s)]. *)
Definition truthy (s : string) : bool :=
  match s with EmptyString => false | _ => true end.

(** The first [n] characters of [s]. *)
Fixpoint take (n : nat) (s : string) : string :=
  match n, s with
  | S n', String c s' => String c (take n' s')
  | _, _ => EmptyString
  end.

(** [s[n:]] *)
Fixpoint drop (n : nat) (s : string) : string :=
  match n, s with
  | S n', String _ s' => drop n' s'
  | _, _ => s
  end.

Fixpoint startswith (pre s : string) : bool :=
  match pre, s with
  | EmptyString, _ => true
  | String a pre', String b s' => Ascii.eqb a b && startswith pre' s'
  | _, _ => false
  end.

(** The line boundaries of [str.splitlines] below 256; CR LF is one. *)
Definition is_linebreak (c : ascii) : bool :=
  let n := nat_of_ascii c in
  (((10 <=? n) && (n <=? 13)) || ((28 <=? n) && (n <=? 30)) || (n =? 133))%nat.
Definition is_cr (c : ascii) : bool := Ascii.eqb c (ascii_of_nat 13).

(** [s.splitlines()] *)
Fixpoint splitlines_go (cur : string) (s : string) : list string :=
  match s with
  | EmptyString =>
      match cur with EmptyString => [] | _ => [String.rev cur] end
  | String c s' =>
      if is_linebreak c then
        String.rev cur ::
        match s' with
        | String c2 s'' =>
            if is_cr c && is_newline c2 then splitlines_go EmptyString s''
            else splitlines_go EmptyString s'
        | EmptyString => []
        end
      else splitlines_go (String c cur) s'
  end.
Definition splitlines (s : string) : list string := splitlines_go EmptyString s.

(** [sep.join(l)] *)
Fixpoint join (sep : string) (l : list string) : string :=
  match l with
  | [] => EmptyString
  | [x] => x
  | x :: l' => x +:+ sep +:+ join sep l'
  end.

(** [s.split(sep, maxsplit)] for a one-character separator. *)
Fixpoint split_go (sep : ascii) (maxsplit : nat) (cur : string) (s : string) : list string :=
  match s with
  | EmptyString => [String.rev cur]
  | String c s' =>
      match maxsplit with
      | 0 => [String.rev_app cur s]
      | S m =>
          if Ascii.eqb c sep then String.rev cur :: split_go sep m EmptyString s'
          else split_go sep maxsplit (String c cur) s'
      end
  end.
Definition split (sep : ascii) (maxsplit : nat) (s : string) : list string :=
  split_go sep maxsplit EmptyString s.

(** [repr(s)], which [{s!r}] formats: the string in single quotes, or in
    double quotes when it has a single quote and no double quote; the quote
    and the backslash are escaped, tab, newline and carriage return are
    written [\t], [\n], [\r], and the other characters that are not
    printable are written [\xhh]. *)
Definition backslash : ascii := ascii_of_nat 92.
Definition squote : ascii := ascii_of_nat 39.
Definition dquote : ascii := ascii_of_nat 34.

(** [str.isprintable] on one character (code points below 256). *)
Definition is_printable (c : ascii) : bool :=
  let n := nat_of_ascii c in
  (((32 <=? n) && (n <=? 126)) || ((161 <=? n) && negb (n =? 173)))%nat.

Definition hex_digit (n : nat) : ascii :=
  if (n <? 10)%nat then ascii_of_nat (48 + n) else ascii_of_nat (87 + n).

Fixpoint contains (c : ascii) (s : string) : bool :=
  match s with
  | EmptyString => false
  | String c' s' => Ascii.eqb c c' || contains c s'
  end.

Definition repr_char (quote c : ascii) : string :=
  let n := nat_of_ascii c in
  if Ascii.eqb c quote || Ascii.eqb c backslash then String backslash (String c EmptyString)
  else if Ascii.eqb c tab then String backslash "t"
  else if Ascii.eqb c newline then String backslash "n"
  else if Ascii.eqb c (ascii_of_nat 13) then String backslash "r"
  else if is_printable c then String c EmptyString
  else String backslash
         (String "x" (String (hex_digit (n / 16)) (String (hex_digit (n mod 16)) EmptyString))).

Fixpoint repr_chars (quote : ascii) (s : string) : string :=
  match s with
  | EmptyString => String quote EmptyString
  | String c s' => repr_char quote c +:+ repr_chars quote s'
  end.

Definition repr (s : string) : string :=
  let quote := if contains squote s && negb (contains dquote s) then dquote else squote in
  String quote (repr_chars quote s).

End PyStr.

(** ** Regular expressions

    A backtracking matcher with the semantics of Python's [re.match] for the
    constructs the two patterns of git.py use: literals, character classes,
    greedy [+] over a class, sequencing, ordered alternation, capture groups,
    [^] and [$]. *)

Module Re.

Inductive regex : Type :=
| Eps
| Chr (c : ascii)
| Cls (p : ascii -> bool)
| Plus (p : ascii -> bool)
| Seq (r1 r2 : regex)
| Alt (r1 r2 : regex)
| Grp (n : nat) (r : regex)
| Bol
| Eol.

(** A literal string: the sequence of its characters. *)
Fixpoint lit (s : string) : regex :=
  match s with
  | EmptyString => Eps
  | String c s' => Seq (Chr c) (lit s')
  end.

Definition captures := gmap nat string.

(** Greedy [cls+]: take as many characters as possible, and give back one at
    a time while the rest of the pattern fails. *)
Fixpoint plus_greedy (p : ascii -> bool) (s : string)
    (k : string -> option captures) : option captures :=
  match s with
  | EmptyString => None
  | String c s' =>
      if p c then
        match plus_greedy p s' k with
        | Some r => Some r
        | None => k s'
        end
      else None
  end.

(** [go input r rest caps k]: match [r] at the suffix [rest] of [input], then
    continue with [k]. *)
Fixpoint go (input : string) (r : regex) (rest : string) (caps : captures)
    (k : string -> captures -> option captures) : option captures :=
  match r with
  | Eps => k rest caps
  | Chr c =>
      match rest with
      | String c' rest' => if Ascii.eqb c c' then k rest' caps else None
      | EmptyString => None
      end
  | Cls p =>
      match rest with
      | String c' rest' => if p c' then k rest' caps else None
      | EmptyString => None
      end
  | Plus p => plus_greedy p rest (fun rest' => k rest' caps)
  | Seq r1 r2 => go input r1 rest caps (fun rest' caps' => go input r2 rest' caps' k)
  | Alt r1 r2 =>
      match go input r1 rest caps k with
      | Some res => Some res
      | None => go input r2 rest caps k
      end
  | Grp n r1 =>
      go input r1 rest caps (fun rest' caps' =>
        k rest' (<[n := PyStr.take (String.length rest - String.length rest') rest]> caps'))
  | Bol => if (String.length rest =? String.length input)%nat then k rest caps else None
  | Eol =>
      match rest with
      | EmptyString => k rest caps
      | String c EmptyString => if PyStr.is_newline c then k rest caps else None
      | _ => None
      end
  end.

(** [re.match(input)]: anchored at the start, any suffix may remain.  The
    result maps the number of each group that took part to its text. *)
Definition rmatch (r : regex) (input : string) : option captures :=
  go input r input ∅ (fun _ caps => Some caps).

(** [m.groups()] for a pattern with [n] groups: group [i + 1] at index [i],
    [None] for a group that did not take part in the match. *)
Definition groups (n : nat) (m : captures) : list (option string) :=
  map (fun i => m !! i) (seq 1 n).

Definition not_slash (c : ascii) : bool := negb (Ascii.eqb c PyStr.slash).
Definition not_space (c : ascii) : bool := negb (PyStr.is_space c).
Definition one_of (s : string) (c : ascii) : bool :=
  existsb (Ascii.eqb c) (list_ascii_of_string s).

End Re.

(** ** Atoms

    Package atoms belong to pkgcore ([pkgcore.ebuild.atom.atom], imported as
    [atom_cls]); git.py only constructs them from a string, reads three
    attributes, and uses them as members of a set.  [atom_cls s = None] stands
    for the constructor raising [MalformedAtom]. *)

Class AtomModel : Type := {
  Atom : Type;
  Atom_eq_dec :: EqDecision Atom;
  Atom_countable :: Countable Atom;
  category : Atom -> string;
  package : Atom -> string;
  fullver : Atom -> string;
  atom_cls : string -> option Atom;
}.

(** ** Commits and package changes *)

Record GitCommit : Type := {
  hash : string;
  commit_date : string;
  author : string;
  committer : string;
  message : list string;
}.

(** [GitCommit.__eq__] compares the hashes only. *)
Definition GitCommit_eq (c1 c2 : GitCommit) : bool := String.eqb (hash c1) (hash c2).

(** ** Outcomes

    How a run of the parser ends: the generator is exhausted after yielding
    [a], [message[-1]] raised [IndexError], or the message loop reads the
    empty string at the end of the stream for ever. *)
Inductive Outcome (A : Type) : Type :=
| Ok (a : A)
| IndexError
| Diverges.
Arguments Ok {A} a.
Arguments IndexError {A}.
Arguments Diverges {A}.

(** ** Effects

    The stateful parts of git.py run in a monad with a state [S] (the object
    a method mutates), a trace of the external actions performed, and
    exceptions.  State and trace survive an exception: Python objects are
    mutated in place. *)

Inductive Exn : Type :=
| SystemExit (code : Z)            (* parser.error: 2, parser.exit: 0 *)
| IndexErr                         (* IndexError *)
| UserException (msg : string)
| Other (name : string).           (* any exception of the enclosed scan *)

Inductive Event : Type :=
| Run (argv : list string)         (* subprocess.run(argv, ...) *)
| ParserError (msg : string)       (* parser.error(msg) *)
| ParserExit                       (* parser.exit() *)
| OsRemove (path : string)         (* os.remove(path) *)
| AtomicWrite (path : string).     (* AtomicWriteFile(path) written and closed *)

Inductive Result (A : Type) : Type :=
| Return (a : A)
| Raise (e : Exn)
| Hang.
Arguments Return {A} a.
Arguments Raise {A} e.
Arguments Hang {A}.

Definition M (S A : Type) : Type := S -> list Event -> S * list Event * Result A.

Definition ret {S A} (a : A) : M S A := fun s t => (s, t, Return a).
Definition bind {S A B} (m : M S A) (f : A -> M S B) : M S B :=
  fun s t =>
    match m s t with
    | (s', t', Return a) => f a s' t'
    | (s', t', Raise e) => (s', t', Raise e)
    | (s', t', Hang) => (s', t', Hang)
    end.
Definition raise {S A} (e : Exn) : M S A := fun s t => (s, t, Raise e).
Definition emit {S} (ev : Event) : M S unit := fun s t => (s, t ++ [ev], Return tt).
Definition get {S} : M S S := fun s t => (s, t, Return s).
Definition put {S} (s : S) : M S unit := fun _ t => (s, t, Return tt).

Notation "x <- m ;; k" := (bind m (fun x => k))
  (at level 100, m at next level, right associativity, only parsing).
Notation "m ;;; k" := (bind m (fun _ => k))
  (at level 100, right associativity, only parsing).

(** [for x in l: f x] *)
Fixpoint for_each {S A} (l : list A) (f : A -> M S unit) : M S unit :=
  match l with
  | [] => ret tt
  | x :: l' => f x ;;; for_each l' f
  end.

(** [parser.error(msg)] prints the message and exits with status 2;
    [parser.exit()] exits with status 0 (argparse). *)
Definition parser_error {S A} (msg : string) : M S A :=
  emit (ParserError msg) ;;; raise (SystemExit 2).
Definition parser_exit {S A} : M S A :=
  emit ParserExit ;;; raise (SystemExit 0).

(** What [subprocess.run] returns. *)
Record CompletedProcess : Type := {
  returncode : Z;
  p_stdout : string;
  p_stderr : string;
}.

(** [subprocess.run(argv, ...)] with the result the process gives. *)
Definition subprocess_run {S} (argv : list string) (p : CompletedProcess)
    : M S CompletedProcess :=
  emit (Run argv) ;;; ret p.

(** [e.stderr.splitlines()[0]] *)
Definition first_line {S} (text : string) : M S string :=
  match PyStr.splitlines text with
  | l :: _ => ret l
  | [] => raise IndexErr
  end.

(** ** [GitStash] *)

Module GitStash.

(** The object: [parser] and [repo] are references, [_stashed] is its state. *)
Record t : Type := { _stashed : bool }.

(** [GitStash(parser, repo)] *)
Definition __init__ : t := {| _stashed := false |}.

(** What git answers to the three commands of the context manager. *)
Record Oracle : Type := {
  ls_files : CompletedProcess;
  stash_push : CompletedProcess;
  stash_pop : CompletedProcess;
}.

Definition ls_files_cmd : list string := ["git"; "ls-files"; "-mo"; "--exclude-standard"].
Definition stash_push_cmd : list string :=
  ["git"; "stash"; "push"; "-u"; "-m"; "pkgcheck scan --commits"].
Definition stash_pop_cmd : list string := ["git"; "stash"; "pop"].

(** Stash all untracked or modified files in working tree. *)
Definition __enter__ (o : Oracle) : M t unit :=
  (* check for untracked or modified/uncommitted files *)
  p <- subprocess_run ls_files_cmd (ls_files o) ;;
  if bool_decide (returncode p ≠ 0%Z) || negb (PyStr.truthy (p_stdout p)) then ret tt
  else
    (* stash all existing untracked or modified/uncommitted files *)
    q <- subprocess_run stash_push_cmd (stash_push o) ;;
    (if bool_decide (returncode q ≠ 0%Z) then
       (* except subprocess.CalledProcessError as e *)
       error <- first_line (p_stderr q) ;;
       parser_error ("git failed stashing files: " +:+ error)
     else ret tt) ;;;
    put {| _stashed := true |}.

(** Apply any previously stashed files back to the working tree. *)
Definition __exit__ (o : Oracle) : M t unit :=
  self <- get ;;
  if _stashed self then
    q <- subprocess_run stash_pop_cmd (stash_pop o) ;;
    if bool_decide (returncode q ≠ 0%Z) then
      error <- first_line (p_stderr q) ;;
      parser_error ("git failed applying stash: " +:+ error)
    else ret tt
  else ret tt.

(** The enclosed scan: the external actions it performs and how it ends
    (normally with a value, or with an exception).  It does not touch the
    context manager. *)
Record Scan (A : Type) : Type := {
  scan_trace : list Event;
  scan_result : Exn + A;
}.
Arguments scan_trace {A} _.
Arguments scan_result {A} _.

Definition run_scan {A} (body : Scan A) : M t A :=
  fun s t =>
    (s, t ++ scan_trace body,
     match scan_result body with inl e => Raise e | inr a => Return a end).

(** [with GitStash(parser, repo): body].  [__exit__] runs when the body is
    left, normally or by an exception; it returns [None], so an exception of
    the body propagates unless [__exit__] raises itself. *)
Definition with_stmt {A} (o : Oracle) (body : Scan A) : M t A :=
  fun s t =>
    match __enter__ o s t with
    | (s1, t1, Return _) =>
        match run_scan body s1 t1 with
        | (s2, t2, r) =>
            match __exit__ o s2 t2 with
            | (s3, t3, Return _) => (s3, t3, r)
            | (s3, t3, Raise e) => (s3, t3, Raise e)
            | (s3, t3, Hang) => (s3, t3, Hang)
            end
        end
    | (s1, t1, Raise e) => (s1, t1, Raise e)
    | (s1, t1, Hang) => (s1, t1, Hang)
    end.

End GitStash.

Section Git.
Context {AM : AtomModel}.

(** [GitPkgChange(atom, status, commit, **kwargs)]; [data] is the dictionary
    of the keyword arguments. *)
Record GitPkgChange : Type := {
  atom : Atom;
  status : string;
  commit : GitCommit;
  data : gmap string Atom;
}.

(** What [parse_git_log] yields: commits when [pkgs] is false, package
    changes when it is true. *)
Inductive Yield : Type :=
| YCommit (c : GitCommit)
| YPkg (p : GitPkgChange).

Definition nl : string := String PyStr.newline EmptyString.

(** [_ebuild_regex = '([^/]+)/[^/]+/([^/]+)\.ebuild'], its two groups
    numbered [g] and [g + 1]. *)
Definition _ebuild_regex (g : nat) : Re.regex :=
  Re.Seq (Re.Grp g (Re.Plus Re.not_slash))
    (Re.Seq (Re.Chr PyStr.slash)
      (Re.Seq (Re.Plus Re.not_slash)
        (Re.Seq (Re.Chr PyStr.slash)
          (Re.Seq (Re.Grp (S g) (Re.Plus Re.not_slash))
            (Re.lit ".ebuild"))))).

(** [_git_log_regex]:
    [^([ADM])\t{_ebuild_regex}|(R)\d+\t{_ebuild_regex}\t{_ebuild_regex}$]. *)
Definition _git_log_regex : Re.regex :=
  Re.Alt
    (Re.Seq Re.Bol
      (Re.Seq (Re.Grp 1 (Re.Cls (Re.one_of "ADM")))
        (Re.Seq (Re.Chr PyStr.tab) (_ebuild_regex 2))))
    (Re.Seq (Re.Grp 4 (Re.lit "R"))
      (Re.Seq (Re.Plus PyStr.is_digit)
        (Re.Seq (Re.Chr PyStr.tab)
          (Re.Seq (_ebuild_regex 5)
            (Re.Seq (Re.Chr PyStr.tab)
              (Re.Seq (_ebuild_regex 7) Re.Eol)))))).

(** The exact-version atom of a path: [atom_cls(f'={category}/{pkg}')]. *)
Definition ebuild_atom (category pkg : string) : option Atom :=
  atom_cls ("=" +:+ category +:+ "/" +:+ pkg).

(** The body of [if pkgs and line:] in [parse_git_log]: the package changes
    one file-change line yields.  The [try] block encloses the [yield]s, so a
    [MalformedAtom] ends the line's events and keeps those already yielded. *)
Definition pkg_changes_of_line (local : bool) (c : GitCommit) (line : string)
    : list GitPkgChange :=
  match Re.rmatch _git_log_regex line with
  | None => []
  | Some m =>
      match Re.groups 8 m with
      | Some st :: Some cat :: Some pkg :: _ =>
          (* matched ADM status change *)
          match ebuild_atom cat pkg with
          | Some a => [{| atom := a; status := st; commit := c; data := ∅ |}]
          | None => []
          end
      | [None; _; _; Some st; Some cat; Some pkg; Some cat2; Some pkg2] =>
          (* matched R status change *)
          match ebuild_atom cat pkg with
          | None => []
          | Some old_atom =>
              {| atom := old_atom; status := st; commit := c; data := ∅ |} ::
              (* include old, renamed pkg for local commits repo *)
              (if local then
                 match ebuild_atom cat2 pkg2 with
                 | Some a =>
                     [{| atom := a; status := st; commit := c;
                         data := {["old_atom" := old_atom]} |}]
                 | None => []
                 end
               else [])
          end
      | _ => []
      end
  end.

(** *** The log parser *)

(** The [git log] child process as [parse_git_log] sees it: the lines of its
    standard output, its standard error, and what [poll()] returns after the
    first line was read ([None] while the process runs, its exit status
    afterwards). *)
Record GitLogProcess : Type := {
  stdout : list string;
  stderr : string;
  poll : option Z;
}.

(** [f.readline()]: the next line with its newline, [''] at the end. *)
Definition readline (f : list string) : string * list string :=
  match f with
  | [] => (EmptyString, [])
  | l :: f' => (l +:+ nl, f')
  end.

Definition yield_all (ys : list Yield) (r : Outcome (list Yield)) : Outcome (list Yield) :=
  match r with
  | Ok ys' => Ok (ys ++ ys')
  | IndexError => IndexError
  | Diverges => Diverges
  end.

Definition BEGIN_COMMIT : string := "# BEGIN COMMIT".
Definition END_MESSAGE_BODY : string := "# END MESSAGE BODY".

Section ParseLoops.
Variables pkgs local : bool.

(** The inner [while True] loop over the file changes of commit [c].  [next]
    is the next iteration of the outer [while line:] loop, entered when the
    line read is the begin sentinel; at the end of the stream [line] is empty
    and the outer loop ends. *)
Fixpoint read_changes (next : list string -> Outcome (list Yield))
    (c : GitCommit) (f : list string) : Outcome (list Yield) :=
  match f with
  | [] => Ok []
  | l :: f' =>
      let line := l +:+ nl in
      if String.eqb line (BEGIN_COMMIT +:+ nl) then next f'
      else
        let line := PyStr.strip line in
        yield_all
          (if pkgs && PyStr.truthy line
           then YPkg <$> pkg_changes_of_line local c line else [])
          (read_changes next c f')
  end.

(** [message.pop()] when the last line is empty (the caller checked that
    [message] is not empty). *)
Definition drop_trailing_empty (message : list string) : list string :=
  match last message with
  | Some m => if PyStr.truthy m then message else removelast message
  | None => message
  end.

(** The inner [while True] loop that accumulates the message, continued by
    [body] on the message and the rest of the stream. *)
Fixpoint read_message (body : list string -> list string -> Outcome (list Yield))
    (f : list string) (message : list string) : Outcome (list Yield) :=
  match f with
  | [] => Diverges
  | l :: f' =>
      let line := PyStr.strip_nl (l +:+ nl) in
      if String.eqb line END_MESSAGE_BODY then
        match last message with
        | None => IndexError
        | Some _ => body (drop_trailing_empty message) f'
        end
      else read_message body f' (message ++ [line])
  end.

(** The outer [while line:] loop, entered after a non-empty line was read.
    With fewer than four lines left the metadata reads return [''] and the
    message loop runs at the end of the stream. *)
Fixpoint parse_commits (f : list string) : Outcome (list Yield) :=
  match f with
  | h :: d :: a :: c :: f1 =>
      read_message
        (fun message f2 =>
           let commit := {| hash := PyStr.strip (h +:+ nl);
                            commit_date := PyStr.strip (d +:+ nl);
                            author := PyStr.strip (a +:+ nl);
                            committer := PyStr.strip (c +:+ nl);
                            message := message |} in
           yield_all (if pkgs then [] else [YCommit commit])
             (read_changes parse_commits commit f2))
        f1 []
  | _ => Diverges
  end.

End ParseLoops.

(** [ParsedGitRepo.parse_git_log] on the output of the git process. *)
Definition parse_git_log (p : GitLogProcess) (pkgs local : bool)
    : Outcome (list Yield) :=
  let '(l, f) := readline (stdout p) in
  let line := PyStr.strip l in
  match poll p with
  | Some rc =>
      if bool_decide (rc ≠ 0%Z) then Ok []     (* logger.warning(...); return *)
      else if PyStr.truthy line then parse_commits pkgs local f else Ok []
  | None => if PyStr.truthy line then parse_commits pkgs local f else Ok []
  end.

(** *** The history cache: [ParsedGitRepo.update] *)

(** The tuples stored in the cache: [(fullver, commit_date, commit.hash)], or
    [(fullver, commit_date, commit, pkg.data)] for a local commits repo. *)
Inductive CommitEntry : Type :=
| HashEntry (version date commit_hash : string)
| LocalEntry (version date : string) (c : GitCommit) (kwargs : gmap string Atom).

Definition entry_version (e : CommitEntry) : string :=
  match e with HashEntry v _ _ => v | LocalEntry v _ _ _ => v end.
Definition entry_date (e : CommitEntry) : string :=
  match e with HashEntry _ d _ => d | LocalEntry _ d _ _ => d end.

(** category -> package -> status -> list of tuples. *)
Abbreviation Data := (gmap string (gmap string (gmap string (list CommitEntry)))).

(** [data.setdefault(cat, {}).setdefault(pkg, {}).setdefault(st, []).append(e)] *)
Definition setdefault_append (d : Data) (cat pkg st : string) (e : CommitEntry) : Data :=
  let pkgs := default ∅ (d !! cat) in
  let sts := default ∅ (pkgs !! pkg) in
  let l := default [] (sts !! st) in
  <[cat := <[pkg := <[st := l ++ [e]]> sts]> pkgs]> d.

Definition commit_entry (local : bool) (pkg : GitPkgChange) : CommitEntry :=
  if local
  then LocalEntry (fullver (atom pkg)) (commit_date (commit pkg)) (commit pkg) (data pkg)
  else HashEntry (fullver (atom pkg)) (commit_date (commit pkg)) (hash (commit pkg)).

Definition key (pkg : GitPkgChange) : Atom * string := (atom pkg, status pkg).

(** The [for pkg in ...] loop of [update] over the package changes the parser
    yields, with the set [seen] and the dictionary [d] it mutates. *)
Fixpoint update_loop (local : bool) (pkgs : list GitPkgChange)
    (seen : gset (Atom * string)) (d : Data) : Data :=
  match pkgs with
  | [] => d
  | pkg :: rest =>
      if decide (key pkg ∈ seen) then update_loop local rest seen d
      else
        update_loop local rest ({[key pkg]} ∪ seen)
          (setdefault_append d (category (atom pkg)) (package (atom pkg))
             (status pkg) (commit_entry local pkg))
  end.

(** With [pkgs=True] the parser yields package changes only. *)
Definition pkg_changes (ys : list Yield) : list GitPkgChange :=
  omap (fun y => match y with YPkg p => Some p | YCommit _ => None end) ys.

(** A [ParsedGitRepo]: what [git log ... commit_range] prints in [self.path]. *)
Record ParsedGitRepo : Type := {
  git_log : string -> GitLogProcess;
}.

(** [ParsedGitRepo.update(commit_range, data=None, local=False)].  The
    dictionary is returned when the parser is exhausted; an exception of the
    parser leaves [update] without a result. *)
Definition update (repo : ParsedGitRepo) (commit_range : string)
    (d : option Data) (local : bool) : Outcome Data :=
  let d := default ∅ d in
  match parse_git_log (git_log repo commit_range) true local with
  | Ok ys => Ok (update_loop local (pkg_changes ys) ∅ d)
  | IndexError => IndexError
  | Diverges => Diverges
  end.

(** Reading the nested dictionary. *)
Definition lookup_pkg (d : Data) (cat pkg : string)
    : option (gmap string (list CommitEntry)) :=
  d !! cat ≫= (fun pkgs => pkgs !! pkg).
Definition lookup_status (d : Data) (cat pkg st : string) : option (list CommitEntry) :=
  lookup_pkg d cat pkg ≫= (fun sts => sts !! st).
Definition entries (d : Data) (cat pkg st : string) : list CommitEntry :=
  default [] (lookup_status d cat pkg st).

(** *** The history repositories *)

(** [_GitCommitPkg(category, package, status, version, date, commit, data)]:
    a versioned cpv with the attributes [date], [status], [commit] and one
    attribute per item of [data]. *)
Record _GitCommitPkg : Type := {
  cpv_category : string;
  cpv_package : string;
  cpv_version : string;
  pkg_status : string;
  pkg_date : string;
  pkg_commit : string + GitCommit;
  pkg_attrs : gmap string Atom;
}.

(** [raw_pkg_cls(cp[0], cp[1], status, *commit)] *)
Definition raw_pkg_cls (cat pkg st : string) (e : CommitEntry) : _GitCommitPkg :=
  match e with
  | HashEntry v dt h =>
      {| cpv_category := cat; cpv_package := pkg; cpv_version := v;
         pkg_status := st; pkg_date := dt; pkg_commit := inl h; pkg_attrs := ∅ |}
  | LocalEntry v dt c kw =>
      {| cpv_category := cat; cpv_package := pkg; cpv_version := v;
         pkg_status := st; pkg_date := dt; pkg_commit := inr c; pkg_attrs := kw |}
  end.

(** The subclasses of [GitChangedRepo] differ in [_status_filter] only. *)
Record RepoClass : Type := { _status_filter : gset string }.
Definition GitChangedRepo : RepoClass := {| _status_filter := {["A"; "R"; "M"; "D"]} |}.
Definition GitModifiedRepo : RepoClass := {| _status_filter := {["A"; "R"; "M"]} |}.
Definition GitAddedRepo : RepoClass := {| _status_filter := {["A"; "R"]} |}.
Definition GitRemovedRepo : RepoClass := {| _status_filter := {["D"]} |}.

(** [GitChangedRepo._get_versions(cp)]; [None] is the [KeyError] of
    [self.cpv_dict[cp[0]][cp[1]]].  The code walks the statuses of the
    package in the insertion order of the dict; [Data] keeps no insertion
    order, so the list here is in the key order of the map.  The two lists
    hold the same pairs, each status once; the properties about this
    function and about [_internal_gen_candidates] state membership only, and
    the latter passes the list through [sorter]. *)
Definition _get_versions (cls : RepoClass) (cpv_dict : Data) (cp : string * string)
    : option (list (string * list CommitEntry)) :=
  sts ← lookup_pkg cpv_dict cp.1 cp.2;
  Some (filter (fun sd => sd.1 ∈ _status_filter cls) (map_to_list sts)).

(** [self.versions.get(cp, ())]: the versions of a known package, nothing for
    an unknown one. *)
Definition versions_get (cls : RepoClass) (cpv_dict : Data) (cp : string * string)
    : list (string * list CommitEntry) :=
  default [] (_get_versions cls cpv_dict cp).

(** [GitChangedRepo._internal_gen_candidates(candidates, sorter, raw_pkg_cls)] *)
Definition _internal_gen_candidates (cls : RepoClass) (cpv_dict : Data)
    (sorter : forall A : Type, list A -> list A) (candidates : list (string * string))
    : list _GitCommitPkg :=
  cp ← sorter _ candidates;
  sorter _ (sd ← versions_get cls cpv_dict cp;
            e ← sd.2;
            [raw_pkg_cls cp.1 cp.2 sd.1 e]).

End Git.

Abbreviation Data := (gmap string (gmap string (gmap string (list CommitEntry)))).

(** *** Repositories as git.py sees them *)

(** A repository: its location, its category directories, whether it has an
    [eclass] directory, what [git rev-parse commit] and [git log] answer
    there. *)
Record Repo : Type := {
  location : string;
  category_dirs : list string;
  has_eclass_dir : bool;
  rev_parse : string -> CompletedProcess;
  parsed_git_repo : ParsedGitRepo;
}.

(** *** [_ScanCommits] *)

Module ScanCommits.
Section ScanCommitsDefs.
Context {AM : AtomModel}.

(** [(base.package_scope, packages.OrRestriction( *pkgs))] and
    [(base.eclass_scope, values.AnyMatch(values.FunctionRestriction(
      partial(matching_eclass, frozenset(eclasses)))))]. *)
Inductive Restriction : Type :=
| package_scope (pkgs : list Atom)
| eclass_scope (eclasses : gset string).

(** The attributes of the argparse namespace the action reads and writes;
    [commits] is the action's [dest], [restrictions] is unset until the
    action assigns it. *)
Record Namespace : Type := {
  targets : list string;
  forced_checks : list string;
  commits : option string;
  target_repo : Repo;
  contexts : list GitStash.t;
  restrictions : option (list Restriction);
}.

(** What running [git diff] gives: [FileNotFoundError], or the finished
    process. *)
Inductive DiffRun : Type :=
| FileNotFound
| Finished (p : CompletedProcess).

(** [sorted] on strings. *)
Definition sorted (l : list string) : list string := merge_sort String.le l.

(** [snakeoil.strings.pluralism] *)
Definition pluralism {A} (l : list A) : string :=
  if (length l =? 1)%nat then "" else "s".

(** Filter package atoms from commit paths. *)
Definition _pkg_atoms (paths : list string) : list Atom :=
  omap (fun x => atom_cls (PyStr.join "/" (firstn 2 (PyStr.split PyStr.slash 2 x)))) paths.

(** [eclass_regex = re.compile(r'^eclass/(?P<eclass>\S+)\.eclass$')] *)
Definition eclass_regex : Re.regex :=
  Re.Seq Re.Bol
    (Re.Seq (Re.lit "eclass/")
      (Re.Seq (Re.Grp 1 (Re.Plus Re.not_space))
        (Re.Seq (Re.lit ".eclass") Re.Eol))).

Definition eclass_name (x : string) : option string :=
  m ← Re.rmatch eclass_regex x; m !! 1.

Section Call.
(** [objects.CHECKS]: the names of the checks that are subclasses of
    [GitCheck]; and [sorted] on atoms, which is pkgcore's order. *)
Variable git_checks : list string.
Variable sorted_atoms : list Atom -> list Atom.

Definition git_diff_cmd (ref : string) : list string :=
  ["git"; "diff"; "--cached"; ref; "--name-only"].

(** [_ScanCommits.__call__(parser, namespace, value)]; the state is the
    namespace, [diff] is what running the diff command gives. *)
Definition __call__ (diff : DiffRun) (value : option string) : M Namespace unit :=
  namespace <- get ;;
  (if bool_decide (targets namespace ≠ []) then
     parser_error ("--commits is mutually exclusive with target"
                   +:+ pluralism (targets namespace) +:+ ": "
                   +:+ PyStr.join " " (targets namespace))
   else ret tt) ;;;
  let ref := default "origin" value in
  put {| targets := targets namespace;
         forced_checks := forced_checks namespace ++ git_checks;
         commits := Some ref;
         target_repo := target_repo namespace;
         contexts := contexts namespace;
         restrictions := restrictions namespace |} ;;;
  (* generate restrictions based on git commit changes *)
  let repo := target_repo namespace in
  let diff_targets := sorted (category_dirs repo)
                      ++ (if has_eclass_dir repo then ["eclass"] else []) in
  emit (Run (git_diff_cmd ref ++ diff_targets)) ;;;
  p <- match diff with
       | FileNotFound =>
           parser_error "git not available to determine targets for --commits"
       | Finished p =>
           if bool_decide (returncode p ≠ 0%Z) then
             error <- first_line (p_stderr p) ;;
             parser_error ("failed running git: " +:+ error)
           else ret p
       end ;;
  (if negb (PyStr.truthy (p_stdout p)) then
     (* no changes exist, exit early *)
     parser_exit
   else ret tt) ;;;
  let lines := PyStr.splitlines (p_stdout p) in
  let pkgs := filter (fun x => ¬ PyStr.startswith "eclass/" x) lines in
  let eclasses := filter (fun x => PyStr.startswith "eclass/" x) lines in
  let pkgs := sorted_atoms (_pkg_atoms pkgs) in
  let eclasses := sorted (omap eclass_name eclasses) in
  let restrictions :=
    (if bool_decide (pkgs ≠ []) then [package_scope pkgs] else [])
    ++ (if bool_decide (eclasses ≠ []) then [eclass_scope (list_to_set eclasses)] else []) in
  (* no pkgs or eclasses to check, exit early *)
  (if bool_decide (restrictions = []) then parser_exit else ret tt) ;;;
  ns <- get ;;
  put {| targets := targets ns;
         forced_checks := forced_checks ns;
         commits := commits ns;
         target_repo := target_repo ns;
         contexts := contexts ns ++ [GitStash.__init__];
         restrictions := Some restrictions |}.

End Call.
End ScanCommitsDefs.
End ScanCommits.

(** *** [GitAddon.update_cache] *)

Module GitAddon.
Section GitAddonDefs.
Context {AM : AtomModel}.

(** [cache = caches.CacheData(type='git', file='git.pickle', version=4)] *)
Definition cache_version : Z := 4.

(** A [GitCache]: the dictionary of [caches.DictCache] with the attributes
    git.py reads, [version] (from the cache registry at construction) and
    [commit]. *)
Record GitCache : Type := {
  gc_data : Data;
  gc_version : Z;
  gc_commit : string;
}.

(** What [pickle.load] finds in a cache file: a pickled cache, or something
    that makes loading or reading its version raise. *)
Inductive FileContent : Type :=
| Pickled (c : GitCache)
| Unreadable.

(** The state [update_cache] works on: the files on disk and the addon's
    mapping of repo locations to their git caches. *)
Record State : Type := {
  files : gmap string FileContent;
  _cached_repos : gmap string GitCache;
}.

(** [msg = f'failed dumping git pkg repo: {cache_file!r}: {e.strerror}'] *)
Definition dump_failed_msg (cache_file strerror : string) : string :=
  "failed dumping git pkg repo: " +:+ PyStr.repr cache_file +:+ ": " +:+ strerror.

Section UpdateCache.
(** [self.cache_file(repo)] of [caches.CachedAddon], and what dumping to a
    path does: [None] when the file is written, [Some strerror] when it
    fails with an [IOError] [e], [strerror] being what [{e.strerror}]
    formats. *)
Variable cache_file : Repo -> string.
Variable dump_error : string -> option string.

(** [os.remove(path)] *)
Definition os_remove (path : string) : M State unit :=
  emit (OsRemove path) ;;;
  st <- get ;;
  put {| files := delete path (files st); _cached_repos := _cached_repos st |}.

(** Retrieve a git repo's commit hash for a specific commit object; [None]
    is [GitError]. *)
Definition _get_commit_hash {S} (repo : Repo) (commit : string) : M S (option string) :=
  p <- subprocess_run ["git"; "rev-parse"; commit] (rev_parse repo commit) ;;
  if bool_decide (returncode p ≠ 0%Z) then ret None
  else ret (Some (PyStr.strip (p_stdout p))).

(** The [try] block that loads cached, historical repo data. *)
Definition load_cache (path : string) : M State (option GitCache) :=
  st <- get ;;
  match files st !! path with
  | None => ret None                                  (* FileNotFoundError *)
  | Some (Pickled git_cache) =>
      if bool_decide (gc_version git_cache ≠ cache_version) then
        os_remove path ;;; ret None
      else ret (Some git_cache)
  | Some Unreadable => os_remove path ;;; ret None   (* except Exception *)
  end.

(** [git_repo.update(...)] inside the monad. *)
Definition run_update (repo : Repo) (commit_range : string) (d : Data) : M State Data :=
  match update (parsed_git_repo repo) commit_range (Some d) false with
  | Ok d' => ret d'
  | IndexError => raise IndexErr
  | Diverges => fun s t => (s, t, Hang)
  end.

(** The body of the loop over [self.repos]. *)
Definition update_cache_repo (force : bool) (repo : Repo) : M State unit :=
  oc <- _get_commit_hash repo "origin/HEAD" ;;
  match oc with
  | None => ret tt                                    (* except GitError: continue *)
  | Some commit =>
      let path := cache_file repo in
      loaded <- (if force then ret None else load_cache path) ;;
      r <- match loaded with
           | Some git_cache =>
               if bool_decide (commit ≠ gc_commit git_cache) then
                 d <- run_update repo (gc_commit git_cache +:+ "..origin/HEAD")
                        (gc_data git_cache) ;;
                 ret ({| gc_data := d; gc_version := cache_version; gc_commit := commit |},
                      true)
               else ret (git_cache, false)
           | None =>
               d <- run_update repo "origin/HEAD" ∅ ;;
               ret ({| gc_data := d; gc_version := cache_version; gc_commit := commit |},
                    true)
           end ;;
      let '(git_cache, cache_repo) := r in
      st <- get ;;
      put {| files := files st;
             _cached_repos := <[location repo := git_cache]> (_cached_repos st) |} ;;;
      (* push repo to disk if it was created or updated *)
      if cache_repo then
        match dump_error path with
        | Some strerror =>
            (* except IOError as e *)
            raise (UserException (dump_failed_msg path strerror))
        | None =>
            emit (AtomicWrite path) ;;;
            st <- get ;;
            put {| files := <[path := Pickled git_cache]> (files st);
                   _cached_repos := _cached_repos st |}
        end
      else ret tt
  end.

(** Update related cache and push updates to disk. *)
Definition update_cache (git_enabled force : bool) (repos : list Repo) : M State unit :=
  if git_enabled then for_each repos (update_cache_repo force) else ret tt.

End UpdateCache.

(** [GitAddon.gitignored(path)]: a path below the target repository is made
    relative before it is handed to the [.gitignore] matcher [match_file]
    ([self._gitignore.match_file]). *)
Definition gitignored (match_file : string -> bool) (target_repo : Repo) (path : string)
    : bool :=
  let path :=
    if PyStr.startswith (location target_repo) path
    then PyStr.drop (String.length (location target_repo) + 1) path
    else path in
  match_file path.

Section CachedRepo.
(** [repo.repo_id] of a tree, and the truth value of a [GitCache] object
    ([if git_cache:]). *)
Variable repo_id : Repo -> string.
Variable cache_truthy : GitCache -> bool.

(** [repo_cls(git_cache, repo_id=f'{repo.repo_id}-history')] *)
Record HistoryRepo : Type := {
  h_cls : RepoClass;
  h_cache : GitCache;
  h_repo_id : string;
}.

(** What [cached_repo] returns besides [None]: a single history repository
    or [multiplex.tree( *git_repos)]. *)
Inductive CachedRepo : Type :=
| SingleTree (r : HistoryRepo)
| MultiplexTree (rs : list HistoryRepo).

(** The [for repo in target_repo.trees] loop: [None] when it is left by
    [break], the list [git_repos] when it runs to its [else] clause. *)
Fixpoint history_repos (cached : gmap string GitCache) (repo_cls : RepoClass)
    (trees : list Repo) (git_repos : list HistoryRepo) : option (list HistoryRepo) :=
  match trees with
  | [] => Some git_repos
  | repo :: trees' =>
      match cached !! location repo with
      | Some git_cache =>
          (* only enable repo queries if history was found *)
          if cache_truthy git_cache then
            history_repos cached repo_cls trees'
              (git_repos ++ [{| h_cls := repo_cls; h_cache := git_cache;
                                h_repo_id := repo_id repo +:+ "-history" |}])
          else None
      | None => None
      end
  end.

(** [GitAddon.cached_repo(repo_cls, target_repo)], [trees] being
    [target_repo.trees]. *)
Definition cached_repo (git_enabled : bool) (cached : gmap string GitCache)
    (repo_cls : RepoClass) (trees : list Repo) : option CachedRepo :=
  if git_enabled then
    match history_repos cached repo_cls trees [] with
    | Some [] => None
    | Some [r] => Some (SingleTree r)
    | Some rs => Some (MultiplexTree rs)
    | None => None
    end
  else None.

End CachedRepo.

(** The [try] block of [commits_repo] and [commits]: the hashes of
    [origin/HEAD] and [master]; [None] is [GitError], raised by the first
    [rev-parse] that fails. *)
Definition origin_and_master {S} (target_repo : Repo) : M S (option (string * string)) :=
  origin <- _get_commit_hash target_repo "origin/HEAD" ;;
  match origin with
  | None => ret None
  | Some origin =>
      master <- _get_commit_hash target_repo "master" ;;
      match master with
      | None => ret None
      | Some master => ret (Some (origin, master))
      end
  end.

(** [GitAddon.commits_repo(repo_cls, target_repo)]: the dictionary handed to
    [repo_cls]. *)
Definition commits_repo {S} (git_enabled : bool) (target_repo : Repo) : M S Data :=
  if git_enabled then
    hashes <- origin_and_master target_repo ;;
    match hashes with
    | Some (origin, master) =>
        if bool_decide (origin ≠ master) then
          match update (parsed_git_repo target_repo) "origin/HEAD..master" None true with
          | Ok d => ret d
          | IndexError => raise IndexErr
          | Diverges => fun s t => (s, t, Hang)
          end
        else ret ∅
    | None => ret ∅                      (* except GitError: logger.warning(...) *)
    end
  else ret ∅.

(** [GitAddon.commits(repo)]: the generator it returns, given by the outcome
    of running it to its end; [iter(())] is the exhausted generator. *)
Definition commits {S} (git_enabled : bool) (repo : Repo) : M S (Outcome (list Yield)) :=
  if git_enabled then
    hashes <- origin_and_master repo ;;
    match hashes with
    | Some (origin, master) =>
        if bool_decide (origin ≠ master) then
          ret (parse_git_log (git_log (parsed_git_repo repo) "origin/HEAD..master")
                 false false)
        else ret (Ok [])
    | None => ret (Ok [])                (* except GitError: logger.warning(...) *)
    end
  else ret (Ok []).

End GitAddonDefs.
End GitAddon.

(** * Terms of the properties *)

(** ** Strings and lines *)

Definition tb : string := String PyStr.tab EmptyString.

Fixpoint all_chars (p : ascii -> bool) (s : string) : bool :=
  match s with
  | EmptyString => true
  | String c s' => p c && all_chars p s'
  end.

Fixpoint has_newline (s : string) : bool :=
  match s with
  | EmptyString => false
  | String c s' => PyStr.is_newline c || has_newline s'
  end.

(** What the message loop appends for the line [l] of the stream. *)
Definition accumulate (l : string) : string := PyStr.strip_nl (l +:+ nl).

(** A path segment: not empty, without [/]. *)
Definition segment (s : string) : Prop :=
  s ≠ EmptyString ∧ all_chars Re.not_slash s = true.

(** The category of the second path: a segment without a tab. *)
Definition not_tab_slash (c : ascii) : bool :=
  Re.not_slash c && negb (Ascii.eqb c PyStr.tab).

(** A rename line: [R], the similarity, a tab, the old path, a tab, the new
    path. *)
Definition ebuild_path (cat dir pkg : string) : string :=
  cat +:+ "/" +:+ dir +:+ "/" +:+ pkg +:+ ".ebuild".
Definition rename_line_of (digits old_path new_path : string) : string :=
  "R" +:+ digits +:+ tb +:+ old_path +:+ tb +:+ new_path.

(** A line of an added, deleted or modified file: the status letter, a tab,
    the path. *)
Definition adm_line_of (st : ascii) (path : string) : string :=
  String st (tb +:+ path).

(** ** The matcher *)

(** The string is empty or starts with a character outside the class. *)
Definition stops (p : ascii -> bool) (rest : string) : Prop :=
  match rest with
  | EmptyString => True
  | String c _ => p c = false
  end.

(** The continuation fails after every proper suffix of [s2]. *)
Fixpoint tails_fail (k : string -> option Re.captures) (rest s2 : string) : Prop :=
  match s2 with
  | EmptyString => True
  | String _ s2' => k (s2' +:+ rest) = None ∧ tails_fail k rest s2'
  end.

(** The continuation fails, with any captures, after every proper suffix of
    [s2]. *)
Fixpoint tails_fail_caps (k : string → Re.captures → option Re.captures)
    (rest s2 : string) : Prop :=
  match s2 with
  | EmptyString => True
  | String _ s2' => (∀ caps, k (s2' +:+ rest) caps = None) ∧ tails_fail_caps k rest s2'
  end.

(** ** The stash context manager *)

(** How the enclosed scan ends. *)
Definition scan_outcome {A : Type} (body : GitStash.Scan A) : Result A :=
  match GitStash.scan_result body with inl e => Raise e | inr a => Return a end.

(** The clean tree: [git ls-files] succeeds and prints nothing. *)
Definition as_clean (o : GitStash.Oracle) : GitStash.Oracle :=
  {| GitStash.ls_files := {| returncode := 0; p_stdout := ""; p_stderr := "" |};
     GitStash.stash_push := GitStash.stash_push o;
     GitStash.stash_pop := GitStash.stash_pop o |}.

(** ** The [--commits] action *)

(** The namespace after the first statements of [__call__]. *)
Definition with_ref {AM : AtomModel} (git_checks : list string)
    (namespace : ScanCommits.Namespace) (value : option string)
    : ScanCommits.Namespace :=
  {| ScanCommits.targets := ScanCommits.targets namespace;
     ScanCommits.forced_checks := ScanCommits.forced_checks namespace ++ git_checks;
     ScanCommits.commits := Some (default "origin" value);
     ScanCommits.target_repo := ScanCommits.target_repo namespace;
     ScanCommits.contexts := ScanCommits.contexts namespace;
     ScanCommits.restrictions := ScanCommits.restrictions namespace |}.

(** The [git diff] command the action runs. *)
Definition diff_cmd {AM : AtomModel} (namespace : ScanCommits.Namespace)
    (value : option string) : list string :=
  ScanCommits.git_diff_cmd (default "origin" value)
  ++ ScanCommits.sorted (category_dirs (ScanCommits.target_repo namespace))
  ++ (if has_eclass_dir (ScanCommits.target_repo namespace) then ["eclass"] else []).

(** The message of the error reported when targets are given. *)
Definition mutually_exclusive_msg (targets : list string) : string :=
  "--commits is mutually exclusive with target" +:+ ScanCommits.pluralism targets
  +:+ ": " +:+ PyStr.join " " targets.

(** The namespace [__call__] leaves when it returns. *)
Definition with_restrictions {AM : AtomModel} (git_checks : list string)
    (namespace : ScanCommits.Namespace) (value : option string)
    (rs : list ScanCommits.Restriction) : ScanCommits.Namespace :=
  {| ScanCommits.targets := ScanCommits.targets namespace;
     ScanCommits.forced_checks := ScanCommits.forced_checks namespace ++ git_checks;
     ScanCommits.commits := Some (default "origin" value);
     ScanCommits.target_repo := ScanCommits.target_repo namespace;
     ScanCommits.contexts := ScanCommits.contexts namespace ++ [GitStash.__init__];
     ScanCommits.restrictions := Some rs |}.

(** A restriction that restricts to nothing. *)
Definition empty_restriction {AM : AtomModel} (r : ScanCommits.Restriction) : Prop :=
  match r with
  | ScanCommits.package_scope pkgs => pkgs = []
  | ScanCommits.eclass_scope eclasses => eclasses = ∅
  end.

(** The lines of the diff output that are package paths, and those that are
    eclass paths. *)
Definition pkg_paths (out : string) : list string :=
  filter (fun x => ¬ PyStr.startswith "eclass/" x) (PyStr.splitlines out).
Definition eclass_paths (out : string) : list string :=
  filter (fun x => PyStr.startswith "eclass/" x) (PyStr.splitlines out).

(** ** The cache merge *)

Section MergeTerms.
Context {AM : AtomModel}.
Implicit Types (d : Data) (e : GitPkgChange) (es : list GitPkgChange)
  (seen : gset (Atom * string)) (x : CommitEntry).

(** The loop body for an event whose key was not seen. *)
Definition record (local : bool) d e : Data :=
  setdefault_append d (category (atom e)) (package (atom e)) (status e)
    (commit_entry local e).

(** The events whose tuples the loop appends: those whose key is neither in
    [seen] nor the key of an earlier event. *)
Fixpoint recorded seen es : list GitPkgChange :=
  match es with
  | [] => []
  | e :: es' =>
      if decide (key e ∈ seen) then recorded seen es'
      else e :: recorded ({[key e]} ∪ seen) es'
  end.

(** Following the spec's words ("only the first occurrence is kept"): the
    first occurrence of every key, in the order of the stream. *)
Fixpoint first_occurrences es : list GitPkgChange :=
  match es with
  | [] => []
  | e :: es' => e :: filter (fun e' => key e' ≠ key e) (first_occurrences es')
  end.

(** The events of [es] with key [k]; the head of the list is the first
    occurrence of the key. *)
Definition with_key (k : Atom * string) es : list GitPkgChange :=
  filter (fun e => key e = k) es.

(** No key of [es1] is a key of [es2]. *)
Definition disjoint_keys es1 es2 : Prop :=
  ∀ e1 e2, e1 ∈ es1 → e2 ∈ es2 → key e1 ≠ key e2.

(** The event is filed under category [c], package [p] and status [s]. *)
Definition in_slot (c p s : string) e : Prop :=
  category (atom e) = c ∧ package (atom e) = p ∧ status e = s.

#[global] Instance in_slot_dec c p s e : Decision (in_slot c p s e).
Proof. unfold in_slot. apply _. Defined.

(** The tuples of the events of [rs] filed under [c], [p], [s]. *)
Definition appended (local : bool) (c p s : string) (rs : list GitPkgChange)
    : list CommitEntry :=
  commit_entry local <$> filter (in_slot c p s) rs.

(** A list after appending [l] to it, where the list may not exist yet and
    is created by the first tuple. *)
Definition append_opt (o : option (list CommitEntry)) (l : list CommitEntry)
    : option (list CommitEntry) :=
  match l with
  | [] => o
  | _ => Some (default [] o ++ l)
  end.

(** Two dictionaries with the same keys at the three levels whose lists
    under every key are related by [R]. *)
Definition data_rel (R : relation (list CommitEntry)) (d1 d2 : Data) : Prop :=
  ∀ c, option_Forall2
         (fun m1 m2 : gmap string (gmap string (list CommitEntry)) =>
            ∀ p, option_Forall2
                   (fun n1 n2 : gmap string (list CommitEntry) =>
                      ∀ s, option_Forall2 R (n1 !! s) (n2 !! s))
                   (m1 !! p) (m2 !! p))
         (d1 !! c) (d2 !! c).

(** The lists are permutations of each other. *)
Definition same_up_to_order (d1 d2 : Data) : Prop := data_rel Permutation d1 d2.

(** ** The history repositories *)

(** Following the claim's words: [st] is the most recently recorded status
    of version [v] of [cat/pkg] when a tuple of that version is recorded
    under [st] whose commit date is not earlier than the date of any tuple
    of that version under any status. *)
Definition most_recently_recorded_status d (cat pkg v st : string) : Prop :=
  ∃ x, x ∈ entries d cat pkg st ∧ entry_version x = v
       ∧ ∀ st' x', x' ∈ entries d cat pkg st' → entry_version x' = v →
                   String.le (entry_date x') (entry_date x).

End MergeTerms.

(** ** The cache on disk *)

(** The commit [git rev-parse origin/HEAD] prints. *)
Definition head_commit (repo : Repo) : string :=
  PyStr.strip (p_stdout (rev_parse repo "origin/HEAD")).

(** The cache [update_cache] builds from the full history. *)
Definition rebuilt_cache {AM : AtomModel} (repo : Repo) (ys : list Yield)
    : GitAddon.GitCache :=
  {| GitAddon.gc_data := foldl (record false) ∅ (first_occurrences (pkg_changes ys));
     GitAddon.gc_version := GitAddon.cache_version;
     GitAddon.gc_commit := head_commit repo |}.

(** Building the cache when no cached data was loaded: it is registered,
    then dumped to the cache file. *)
Definition rebuild {AM : AtomModel} (cache_file : Repo → string)
    (dump_error : string → option string) (repo : Repo) (ys : list Yield)
    (st : GitAddon.State) (t : list Event)
    : GitAddon.State * list Event * Result unit :=
  let path := cache_file repo in
  let cached := <[location repo := rebuilt_cache repo ys]> (GitAddon._cached_repos st) in
  match dump_error path with
  | Some strerror =>
      ({| GitAddon.files := GitAddon.files st; GitAddon._cached_repos := cached |}, t,
       Raise (UserException (GitAddon.dump_failed_msg path strerror)))
  | None =>
      ({| GitAddon.files :=
            <[path := GitAddon.Pickled (rebuilt_cache repo ys)]> (GitAddon.files st);
          GitAddon._cached_repos := cached |},
       t ++ [AtomicWrite path], Return tt)
  end.

(** The state with the cache file removed. *)
Definition without_cache_file {AM : AtomModel} (path : string) (st : GitAddon.State)
    : GitAddon.State :=
  {| GitAddon.files := delete path (GitAddon.files st);
     GitAddon._cached_repos := GitAddon._cached_repos st |}.

(** Running [git rev-parse commit]. *)
Definition rev_parse_cmd (commit : string) : Event := Run ["git"; "rev-parse"; commit].

(** The commit [git rev-parse master] prints. *)
Definition master_commit (repo : Repo) : string :=
  PyStr.strip (p_stdout (rev_parse repo "master")).

(** The commands run to compare [origin/HEAD] and [master]: the second
    [rev-parse] is run when the first succeeded. *)
Definition compare_heads (repo : Repo) : list Event :=
  if bool_decide (returncode (rev_parse repo "origin/HEAD") ≠ 0%Z)
  then [rev_parse_cmd "origin/HEAD"]
  else [rev_parse_cmd "origin/HEAD"; rev_parse_cmd "master"].

(** The state after [git_cache] was registered for [repo]. *)
Definition registered {AM : AtomModel} (repo : Repo) (git_cache : GitAddon.GitCache)
    (st : GitAddon.State) : GitAddon.State :=
  {| GitAddon.files := GitAddon.files st;
     GitAddon._cached_repos := <[location repo := git_cache]> (GitAddon._cached_repos st) |}.

(** The state after [git_cache] was registered for [repo] and written to
    [path]. *)
Definition written {AM : AtomModel} (path : string) (repo : Repo)
    (git_cache : GitAddon.GitCache) (st : GitAddon.State) : GitAddon.State :=
  {| GitAddon.files := <[path := GitAddon.Pickled git_cache]> (GitAddon.files st);
     GitAddon._cached_repos := <[location repo := git_cache]> (GitAddon._cached_repos st) |}.

(** The cache [update_cache] builds from a loaded cache and the events of
    the commits since the commit of that cache. *)
Definition extended_cache {AM : AtomModel} (repo : Repo) (git_cache : GitAddon.GitCache)
    (ys : list Yield) : GitAddon.GitCache :=
  {| GitAddon.gc_data :=
       foldl (record false) (GitAddon.gc_data git_cache)
         (first_occurrences (pkg_changes ys));
     GitAddon.gc_version := GitAddon.cache_version;
     GitAddon.gc_commit := head_commit repo |}.

(** The history repositories of a [cached_repo] result. *)
Definition trees_of {AM : AtomModel} (r : GitAddon.CachedRepo) : list GitAddon.HistoryRepo :=
  match r with
  | GitAddon.SingleTree h => [h]
  | GitAddon.MultiplexTree hs => hs
  end.

(** [h] is the history repository of the tree [repo]: class [cls] over the
    cache registered for the location of [repo], which is true as a
    condition, under the id of the tree followed by [-history]. *)
Definition history_of_tree {AM : AtomModel} (repo_id : Repo → string)
    (cache_truthy : GitAddon.GitCache → bool) (cached : gmap string GitAddon.GitCache)
    (cls : RepoClass) (repo : Repo) (h : GitAddon.HistoryRepo) : Prop :=
  GitAddon.h_cls h = cls
  ∧ cached !! location repo = Some (GitAddon.h_cache h)
  ∧ cache_truthy (GitAddon.h_cache h) = true
  ∧ GitAddon.h_repo_id h = repo_id repo +:+ "-history".

(** ** Well-formed logs *)

(** One commit of the log as git prints it: the four metadata lines, the
    lines of the message up to the end sentinel, and the file-change lines
    up to the next begin sentinel or the end of the stream. *)
Record CommitBlock : Type := {
  b_hash : string;
  b_date : string;
  b_author : string;
  b_committer : string;
  b_message : list string;
  b_changes : list string;
}.

Definition render_body (b : CommitBlock) : list string :=
  b_hash b :: b_date b :: b_author b :: b_committer b
  :: b_message b ++ END_MESSAGE_BODY :: b_changes b.

Definition render (bs : list CommitBlock) : list string :=
  b ← bs; BEGIN_COMMIT :: render_body b.

(** The format [%B%n# END MESSAGE BODY] puts at least one line before the
    end sentinel; no line has a newline inside; no message line is the end
    sentinel and no file-change line is the begin sentinel. *)
Definition wf_block (b : CommitBlock) : Prop :=
  b_message b ≠ []
  ∧ Forall (fun l => has_newline l = false ∧ l ≠ END_MESSAGE_BODY) (b_message b)
  ∧ Forall (fun l => l ≠ BEGIN_COMMIT) (b_changes b).

(** Following the claim's words: the accumulated lines with one trailing
    empty line removed when the last accumulated line is empty, unchanged
    otherwise. *)
Definition expected_message (acc : list string) : list string :=
  match last acc with
  | Some EmptyString => removelast acc
  | _ => acc
  end.

(** What the file-change lines of a commit yield. *)
Definition change_yields {AM : AtomModel} (pkgs local : bool) (c : GitCommit)
    (changes : list string) : list Yield :=
  l ← changes;
  let line := PyStr.strip (l +:+ nl) in
  if pkgs && PyStr.truthy line then YPkg <$> pkg_changes_of_line local c line else [].

(** The commit of a block, and what the parser yields for the block. *)
Definition block_commit (b : CommitBlock) : GitCommit :=
  {| hash := PyStr.strip (b_hash b +:+ nl);
     commit_date := PyStr.strip (b_date b +:+ nl);
     author := PyStr.strip (b_author b +:+ nl);
     committer := PyStr.strip (b_committer b +:+ nl);
     message := expected_message (b_message b) |}.

Definition block_yields {AM : AtomModel} (pkgs local : bool) (b : CommitBlock)
    : list Yield :=
  (if pkgs then [] else [YCommit (block_commit b)])
  ++ change_yields pkgs local (block_commit b) (b_changes b).

(** The two kinds of objects the parser yields. *)
Definition is_pkg_change {AM : AtomModel} (y : Yield) : bool :=
  match y with YPkg _ => true | YCommit _ => false end.

(** All of [ys] are package changes ([pkgs] true) or all are commits. *)
Definition one_kind {AM : AtomModel} (pkgs : bool) (ys : list Yield) : Prop :=
  Forall (fun y => is_pkg_change y = pkgs) ys.

(** * Sample data *)

(** ** A small instance of the atom interface

    Used to run the definitions on concrete logs.  It accepts
    [=category/name-version], where the version starts after the last [-]
    and begins with a digit, and [category/name]; it has no other atom
    syntax. *)

Module SampleAtoms.

Record t : Type := { cat : string; name : string; ver : string }.

#[global] Instance t_eq_dec : EqDecision t.
Proof. solve_decision. Defined.

#[global] Instance t_countable : Countable t.
Proof.
  refine (inj_countable' (fun a => (cat a, name a, ver a))
            (fun '(c, n, v) => {| cat := c; name := n; ver := v |}) _).
  by intros [].
Defined.

(** Split at the first character satisfying [p]. *)
Fixpoint split_first (p : ascii -> bool) (s : string) : option (string * string) :=
  match s with
  | EmptyString => None
  | String c s' =>
      if p c then Some (EmptyString, s')
      else match split_first p s' with
           | Some (l, r) => Some (String c l, r)
           | None => None
           end
  end.

(** Split at the last character satisfying [p]. *)
Fixpoint split_last (p : ascii -> bool) (s : string) : option (string * string) :=
  match s with
  | EmptyString => None
  | String c s' =>
      match split_last p s' with
      | Some (l, r) => Some (String c l, r)
      | None => if p c then Some (EmptyString, s') else None
      end
  end.

Definition is_dash (c : ascii) : bool := Ascii.eqb c (ascii_of_nat 45).
Definition is_slash (c : ascii) : bool := Ascii.eqb c PyStr.slash.

Definition no_slash (s : string) : bool :=
  forallb (fun x => negb (is_slash x)) (list_ascii_of_string s).

(** [=category/name-version] *)
Definition parse_versioned (s : string) : option t :=
  match split_first is_slash s with
  | Some (String c0 c, rest) =>
      match split_last is_dash rest with
      | Some (String n0 n, String v0 v) =>
          if PyStr.is_digit v0 && no_slash rest
          then Some {| cat := String c0 c; name := String n0 n; ver := String v0 v |}
          else None
      | _ => None
      end
  | _ => None
  end.

(** [category/name]: no version. *)
Definition parse_unversioned (s : string) : option t :=
  match split_first is_slash s with
  | Some (String c0 c, String n0 n) =>
      if no_slash (String n0 n)
      then Some {| cat := String c0 c; name := String n0 n; ver := EmptyString |}
      else None
  | _ => None
  end.

Definition parse (s : string) : option t :=
  match s with
  | String e s' =>
      if Ascii.eqb e (ascii_of_nat 61) then parse_versioned s' else parse_unversioned s
  | EmptyString => None
  end.

#[global] Instance model : AtomModel := {|
  Atom := t;
  category := cat;
  package := name;
  fullver := ver;
  atom_cls := parse;
|}.

End SampleAtoms.

(** ** Working trees and scans *)

(** A dirty tree whose changes git stashes and restores, and a scan that is
    interrupted. *)
Definition dirty_tree : GitStash.Oracle :=
  {| GitStash.ls_files := {| returncode := 0; p_stdout := "x.ebuild"; p_stderr := "" |};
     GitStash.stash_push := {| returncode := 0; p_stdout := ""; p_stderr := "" |};
     GitStash.stash_pop := {| returncode := 0; p_stdout := ""; p_stderr := "" |} |}.
Definition interrupted_scan : GitStash.Scan unit :=
  {| GitStash.scan_trace := []; GitStash.scan_result := inl (Other "KeyboardInterrupt") |}.

(** [git ls-files] fails (status 128, outside a work tree) although the
    oracle would report modified files; and a scan that finishes. *)
Definition ls_files_fails : GitStash.Oracle :=
  {| GitStash.ls_files := {| returncode := 128; p_stdout := "x.ebuild"; p_stderr := "" |};
     GitStash.stash_push := {| returncode := 0; p_stdout := ""; p_stderr := "" |};
     GitStash.stash_pop := {| returncode := 0; p_stdout := ""; p_stderr := "" |} |}.
Definition finished_scan : GitStash.Scan nat :=
  {| GitStash.scan_trace := []; GitStash.scan_result := inr 0 |}.

(** ** Repositories *)

(** A repository with two categories and an eclass directory, whose
    [git rev-parse] prints [head] and whose [git log] prints [log]. *)
Definition sample_repo (head : string) (log : string → list string) : Repo :=
  {| location := "/var/db/repos/gentoo";
     category_dirs := ["dev-libs"; "app-misc"];
     has_eclass_dir := true;
     rev_parse := fun _ => {| returncode := 0; p_stdout := head; p_stderr := "" |};
     parsed_git_repo :=
       {| git_log := fun r => {| stdout := log r; stderr := ""; poll := None |} |} |}.

Definition sample_namespace : ScanCommits.Namespace (AM := SampleAtoms.model) :=
  {| ScanCommits.targets := [];
     ScanCommits.forced_checks := [];
     ScanCommits.commits := None;
     ScanCommits.target_repo := sample_repo "f00" (fun _ => []);
     ScanCommits.contexts := [];
     ScanCommits.restrictions := None |}.

(** ** A rename *)

(** A rename line as [git log --name-status] prints it: the old path, then
    the new path. *)
Definition rename_line : string :=
  "R100" +:+ tb +:+ "app-misc/old/old-1.ebuild" +:+ tb +:+ "app-misc/new/new-1.ebuild".

Definition sample_commit : GitCommit :=
  {| hash := "abc123"; commit_date := "2020-02-01";
     author := "A U Thor <author@example.org>";
     committer := "C O Mitter <committer@example.org>";
     message := ["app-misc/old: rename to new"] |}.

Definition old_1 : SampleAtoms.t :=
  {| SampleAtoms.cat := "app-misc"; SampleAtoms.name := "old"; SampleAtoms.ver := "1" |}.
Definition new_1 : SampleAtoms.t :=
  {| SampleAtoms.cat := "app-misc"; SampleAtoms.name := "new"; SampleAtoms.ver := "1" |}.

(** ** A history

    Three commits on [app-misc/foo], newest first in every log: [c1] (range
    [A..B]) modifies version 1, [c2] (range [B..C]) modifies version 2 and
    [c3] (range [C..D]) modifies version 1 again. *)

Definition log_commit (h date subject change : string) : list string :=
  ["# BEGIN COMMIT"; h; date; "A U Thor <author@example.org>";
   "C O Mitter <committer@example.org>"; subject; ""; "# END MESSAGE BODY"; "";
   change].

Definition log_c1 : list string :=
  log_commit "1111111" "2020-01-01" "app-misc/foo: fix 1"
    ("M" +:+ tb +:+ "app-misc/foo/foo-1.ebuild").
Definition log_c2 : list string :=
  log_commit "2222222" "2020-02-01" "app-misc/foo: fix 2"
    ("M" +:+ tb +:+ "app-misc/foo/foo-2.ebuild").
Definition log_c3 : list string :=
  log_commit "3333333" "2020-03-01" "app-misc/foo: fix 1 again"
    ("M" +:+ tb +:+ "app-misc/foo/foo-1.ebuild").

Definition history (commit_range : string) : list string :=
  if String.eqb commit_range "A..B" then log_c1
  else if String.eqb commit_range "B..C" then log_c2
  else if String.eqb commit_range "A..C" then log_c2 ++ log_c1
  else if String.eqb commit_range "A..D" then log_c3 ++ log_c2 ++ log_c1
  else [].

Definition history_repo : ParsedGitRepo :=
  {| git_log := fun r => {| stdout := history r; stderr := ""; poll := None |} |}.

(** What an exhausted parser yielded. *)
Definition yields_of {AM : AtomModel} (o : Outcome (list Yield)) : list Yield :=
  match o with Ok ys => ys | _ => [] end.

Definition commit_of (h date subject : string) : GitCommit :=
  {| hash := h; commit_date := date; author := "A U Thor <author@example.org>";
     committer := "C O Mitter <committer@example.org>"; message := [subject] |}.
Definition foo (v : string) : SampleAtoms.t :=
  {| SampleAtoms.cat := "app-misc"; SampleAtoms.name := "foo"; SampleAtoms.ver := v |}.

Definition ys_AB : list (@Yield SampleAtoms.model) :=
  yields_of (parse_git_log (git_log history_repo "A..B") true false).
Definition ys_BC : list (@Yield SampleAtoms.model) :=
  yields_of (parse_git_log (git_log history_repo "B..C") true false).
Definition ys_AD : list (@Yield SampleAtoms.model) :=
  yields_of (parse_git_log (git_log history_repo "A..D") true false).

(** In [A..D] the key of version 1 and status [M] occurs twice; the event of
    the newest commit [c3] comes first. *)
Definition foo_1_c3 : @GitPkgChange SampleAtoms.model :=
  {| atom := foo "1"; status := "M";
     commit := commit_of "3333333" "2020-03-01" "app-misc/foo: fix 1 again";
     data := ∅ |}.

(** The dictionaries of the history: after [update] on [A..B], after
    [update] on [B..C] applied to it, and after [update] on [A..C]. *)
Definition entry_c1 : @CommitEntry SampleAtoms.model := HashEntry "1" "2020-01-01" "1111111".
Definition entry_c2 : @CommitEntry SampleAtoms.model := HashEntry "2" "2020-02-01" "2222222".
Definition foo_M (l : list (@CommitEntry SampleAtoms.model))
    : gmap string (gmap string (gmap string (list (@CommitEntry SampleAtoms.model)))) :=
  {["app-misc" := {["foo" := {["M" := l]}]}]}.
Definition data_AB := foo_M [entry_c1].
Definition data_AB_BC := foo_M [entry_c1; entry_c2].
Definition data_AC := foo_M [entry_c2; entry_c1].

(** The blocks of the logs of [c1] and [c2]. *)
Definition block_of (h date subject change : string) : CommitBlock :=
  {| b_hash := h; b_date := date;
     b_author := "A U Thor <author@example.org>";
     b_committer := "C O Mitter <committer@example.org>";
     b_message := [subject; ""];
     b_changes := [""; change] |}.
Definition block_c1 : CommitBlock :=
  block_of "1111111" "2020-01-01" "app-misc/foo: fix 1"
    ("M" +:+ tb +:+ "app-misc/foo/foo-1.ebuild").
Definition block_c2 : CommitBlock :=
  block_of "2222222" "2020-02-01" "app-misc/foo: fix 2"
    ("M" +:+ tb +:+ "app-misc/foo/foo-2.ebuild").

(** ** A version that is deleted and added again

    Version 3 of [app-misc/foo] is deleted by [c4] (range [X..Y]) and added
    again later by [c5] (range [Y..Z]). *)

Definition log_c4 : list string :=
  log_commit "4444444" "2020-01-15" "app-misc/foo: drop 3"
    ("D" +:+ tb +:+ "app-misc/foo/foo-3.ebuild").
Definition log_c5 : list string :=
  log_commit "5555555" "2020-02-15" "app-misc/foo: add 3 again"
    ("A" +:+ tb +:+ "app-misc/foo/foo-3.ebuild").
Definition readded (commit_range : string) : list string :=
  if String.eqb commit_range "X..Y" then log_c4
  else if String.eqb commit_range "Y..Z" then log_c5
  else [].
Definition readded_repo : ParsedGitRepo :=
  {| git_log := fun r => {| stdout := readded r; stderr := ""; poll := None |} |}.

Definition entry_c4 : @CommitEntry SampleAtoms.model := HashEntry "3" "2020-01-15" "4444444".
Definition entry_c5 : @CommitEntry SampleAtoms.model := HashEntry "3" "2020-02-15" "5555555".
Definition data_XY
    : gmap string (gmap string (gmap string (list (@CommitEntry SampleAtoms.model)))) :=
  {["app-misc" := {["foo" := {["D" := [entry_c4]]}]}]}.
Definition data_XZ
    : gmap string (gmap string (gmap string (list (@CommitEntry SampleAtoms.model)))) :=
  {["app-misc" := {["foo" := {["D" := [entry_c4]; "A" := [entry_c5]]}]}]}.

(** ** A stale cache file

    A repository whose full history is [c2], [c1]; its cache file holds a
    cache of version 3 with a tuple that is not in the history. *)

Definition full_history (commit_range : string) : list string :=
  if String.eqb commit_range "origin/HEAD" then log_c2 ++ log_c1 else [].
Definition cached_repo : Repo := sample_repo "2222222" full_history.
Definition pickle_path (repo : Repo) : string := location repo +:+ "/git.pickle".
Definition stale_cache : @GitAddon.GitCache SampleAtoms.model :=
  {| GitAddon.gc_data := foo_M [HashEntry "0" "2019-01-01" "0000000"];
     GitAddon.gc_version := 3;
     GitAddon.gc_commit := "0000000" |}.
Definition stale_state : @GitAddon.State SampleAtoms.model :=
  {| GitAddon.files := {[pickle_path cached_repo := GitAddon.Pickled stale_cache]};
     GitAddon._cached_repos := ∅ |}.
Definition ys_full : list (@Yield SampleAtoms.model) :=
  yields_of (parse_git_log (git_log (parsed_git_repo cached_repo) "origin/HEAD") true false).

(** ** Trees on which git stash fails *)

Definition push_fails : GitStash.Oracle :=
  {| GitStash.ls_files := {| returncode := 0; p_stdout := "x.ebuild"; p_stderr := "" |};
     GitStash.stash_push :=
       {| returncode := 1; p_stdout := "";
          p_stderr := "error: could not write index" +:+ nl +:+ "hint: retry" |};
     GitStash.stash_pop := {| returncode := 0; p_stdout := ""; p_stderr := "" |} |}.
Definition pop_fails : GitStash.Oracle :=
  {| GitStash.ls_files := {| returncode := 0; p_stdout := "x.ebuild"; p_stderr := "" |};
     GitStash.stash_push := {| returncode := 0; p_stdout := ""; p_stderr := "" |};
     GitStash.stash_pop :=
       {| returncode := 1; p_stdout := "";
          p_stderr := "error: could not restore untracked files from stash" |} |}.

(** ** Runs of [git diff] *)

Definition targets_namespace : ScanCommits.Namespace (AM := SampleAtoms.model) :=
  {| ScanCommits.targets := ["app-misc/foo"; "dev-libs/bar"];
     ScanCommits.forced_checks := [];
     ScanCommits.commits := None;
     ScanCommits.target_repo := sample_repo "f00" (fun _ => []);
     ScanCommits.contexts := [];
     ScanCommits.restrictions := None |}.
Definition diff_bad_revision : CompletedProcess :=
  {| returncode := 128; p_stdout := "";
     p_stderr := "fatal: bad revision 'origin'" +:+ nl +:+ "usage: git diff" |}.
Definition diff_readme : CompletedProcess :=
  {| returncode := 0; p_stdout := "README" +:+ nl; p_stderr := "" |}.
Definition diff_changes : CompletedProcess :=
  {| returncode := 0;
     p_stdout := "app-misc/foo/foo-1.ebuild" +:+ nl +:+ "eclass/git-r3.eclass" +:+ nl;
     p_stderr := "" |}.
Definition foo_unversioned : SampleAtoms.t :=
  {| SampleAtoms.cat := "app-misc"; SampleAtoms.name := "foo"; SampleAtoms.ver := "" |}.

(** ** Faulty logs

    [c2] followed by a commit whose end sentinel comes right after the four
    metadata lines (range [E]), and by a commit whose log ends in the
    message (range [T]). *)

Definition faulty (commit_range : string) : list string :=
  if String.eqb commit_range "E" then
    log_c2 ++ ["# BEGIN COMMIT"; "1111111"; "2020-01-01"; "A U Thor <author@example.org>";
               "C O Mitter <committer@example.org>"; "# END MESSAGE BODY"; "";
               "M" +:+ tb +:+ "app-misc/foo/foo-1.ebuild"]
  else if String.eqb commit_range "T" then
    log_c2 ++ ["# BEGIN COMMIT"; "1111111"; "2020-01-01"; "A U Thor <author@example.org>";
               "C O Mitter <committer@example.org>"; "app-misc/foo: fix 1"]
  else [].
Definition faulty_repo : ParsedGitRepo :=
  {| git_log := fun r => {| stdout := faulty r; stderr := ""; poll := None |} |}.

(** ** Caches on disk *)

(** The cache of the full history of [cached_repo], and the cache of an
    older state of a repository whose history since then is [c2]. *)
Definition current_cache : @GitAddon.GitCache SampleAtoms.model :=
  {| GitAddon.gc_data := data_AC; GitAddon.gc_version := 4;
     GitAddon.gc_commit := "2222222" |}.
Definition current_state : @GitAddon.State SampleAtoms.model :=
  {| GitAddon.files := {[pickle_path cached_repo := GitAddon.Pickled current_cache]};
     GitAddon._cached_repos := ∅ |}.
Definition older_cache : @GitAddon.GitCache SampleAtoms.model :=
  {| GitAddon.gc_data := data_AB; GitAddon.gc_version := 4;
     GitAddon.gc_commit := "1111111" |}.
Definition history_since (commit_range : string) : list string :=
  if String.eqb commit_range "1111111..origin/HEAD" then log_c2
  else if String.eqb commit_range "origin/HEAD" then log_c2 ++ log_c1
  else [].
Definition grown_repo : Repo := sample_repo "2222222" history_since.
Definition older_state : @GitAddon.State SampleAtoms.model :=
  {| GitAddon.files := {[pickle_path grown_repo := GitAddon.Pickled older_cache]};
     GitAddon._cached_repos := ∅ |}.
Definition unreadable_state : @GitAddon.State SampleAtoms.model :=
  {| GitAddon.files := {[pickle_path cached_repo := GitAddon.Unreadable]};
     GitAddon._cached_repos := ∅ |}.

(** A repository without [origin/HEAD]. *)
Definition headless_repo : Repo :=
  {| location := "/var/db/repos/local";
     category_dirs := ["app-misc"];
     has_eclass_dir := false;
     rev_parse := fun _ =>
       {| returncode := 128; p_stdout := "origin/HEAD"; p_stderr := "" |};
     parsed_git_repo :=
       {| git_log := fun _ => {| stdout := []; stderr := ""; poll := None |} |} |}.

(** A repository whose [master] is one commit ahead of [origin/HEAD]: the
    commit renames [app-misc/old] to [app-misc/new]. *)
Definition local_log (commit_range : string) : list string :=
  if String.eqb commit_range "origin/HEAD..master"
  then log_commit "abc123" "2020-02-01" "app-misc/old: rename to new" rename_line
  else [].
Definition ahead_repo : Repo :=
  {| location := "/var/db/repos/gentoo";
     category_dirs := ["app-misc"];
     has_eclass_dir := false;
     rev_parse := fun commit =>
       {| returncode := 0;
          p_stdout := (if String.eqb commit "master" then "abc123" else "2222222") +:+ nl;
          p_stderr := "" |};
     parsed_git_repo :=
       {| git_log := fun r => {| stdout := local_log r; stderr := ""; poll := None |} |} |}.
Definition ys_local : list (@Yield SampleAtoms.model) :=
  yields_of (parse_git_log (git_log (parsed_git_repo ahead_repo) "origin/HEAD..master")
               true true).
Definition rename_commit : GitCommit :=
  commit_of "abc123" "2020-02-01" "app-misc/old: rename to new".
Definition new_1_renamed : @GitPkgChange SampleAtoms.model :=
  {| atom := new_1; status := "R"; commit := rename_commit;
     data := {["old_atom" := old_1]} |}.

(** The second event of [rename_line] in a local run of the parser on
    [sample_commit]. *)
Definition new_1_local : @GitPkgChange SampleAtoms.model :=
  {| atom := new_1; status := "R"; commit := sample_commit;
     data := {["old_atom" := old_1]} |}.

(** The state after [update_cache] has rebuilt the cache of [stale_state]. *)
Definition rebuilt_state : @GitAddon.State SampleAtoms.model :=
  written (pickle_path cached_repo) cached_repo current_cache
    (without_cache_file (pickle_path cached_repo) stale_state).

(** * Properties *)

(** ** The stash context manager *)

Section GitStashFacts.
Import GitStash.
Context {A : Type}.
Implicit Types (o : Oracle) (body : Scan A) (t : list Event).

(** The two ways [__enter__] returns normally, and the way it raises. *)
Lemma enter_not_dirty o t :
  returncode (ls_files o) ≠ 0%Z ∨ p_stdout (ls_files o) = EmptyString →
  __enter__ o __init__ t = (__init__, t ++ [Run ls_files_cmd], Return tt).
Proof.
  intros H. unfold __enter__, bind, subprocess_run, emit, ret. simpl.
  destruct H as [H | H].
  - rewrite bool_decide_true by done. done.
  - rewrite H. simpl. by rewrite orb_true_r.
Qed.

Lemma enter_dirty_pushed o t :
  returncode (ls_files o) = 0%Z → p_stdout (ls_files o) ≠ EmptyString →
  returncode (stash_push o) = 0%Z →
  __enter__ o __init__ t
  = ({| _stashed := true |}, (t ++ [Run ls_files_cmd]) ++ [Run stash_push_cmd], Return tt).
Proof.
  intros H1 H2 H3. unfold __enter__, bind, subprocess_run, emit, ret, put. simpl.
  rewrite bool_decide_false by (intros ?; done).
  destruct (p_stdout (ls_files o)) eqn:E; [done|]. simpl.
  rewrite bool_decide_false by (intros ?; done). done.
Qed.

Lemma enter_push_failed o t :
  returncode (ls_files o) = 0%Z → p_stdout (ls_files o) ≠ EmptyString →
  returncode (stash_push o) ≠ 0%Z →
  ∃ t' e, __enter__ o __init__ t = (__init__, t', Raise e).
Proof.
  intros H1 H2 H3. unfold __enter__, bind, subprocess_run, emit, ret, put. simpl.
  rewrite bool_decide_false by (intros ?; done).
  destruct (p_stdout (ls_files o)) eqn:E; [done|]. simpl.
  rewrite bool_decide_true by done.
  unfold first_line, parser_error, bind, emit, raise.
  destruct (PyStr.splitlines (p_stderr (stash_push o))); simpl; eauto.
Qed.

(** [__enter__] returns normally in exactly the two ways above. *)
Lemma enter_returns o t s1 t1 :
  __enter__ o __init__ t = (s1, t1, Return tt) →
  (s1 = __init__ ∧ t1 = t ++ [Run ls_files_cmd])
  ∨ (s1 = {| _stashed := true |} ∧ t1 = t ++ [Run ls_files_cmd; Run stash_push_cmd]).
Proof.
  intros H.
  destruct (decide (returncode (ls_files o) = 0%Z)) as [Hrc | Hrc].
  - destruct (decide (p_stdout (ls_files o) = EmptyString)) as [Hout | Hout].
    + rewrite enter_not_dirty in H by auto. left. by simplify_eq.
    + destruct (decide (returncode (stash_push o) = 0%Z)) as [Hp | Hp].
      * rewrite enter_dirty_pushed in H by done. right. simplify_eq.
        by rewrite <- app_assoc.
      * destruct (enter_push_failed o t Hrc Hout Hp) as (t' & e & He).
        rewrite He in H. discriminate.
  - rewrite enter_not_dirty in H by auto. left. by simplify_eq.
Qed.

(** What [__exit__] does, by the flag. *)
Lemma exit_not_stashed o t : __exit__ o __init__ t = (__init__, t, Return tt).
Proof. done. Qed.

Lemma exit_stashed o t :
  ∃ t' r, __exit__ o {| _stashed := true |} t
          = ({| _stashed := true |}, (t ++ [Run stash_pop_cmd]) ++ t', r)
          ∧ (Run stash_pop_cmd ∉ t')
          ∧ (returncode (stash_pop o) = 0%Z → t' = [] ∧ r = Return tt).
Proof.
  unfold __exit__, bind, get, subprocess_run, emit, ret. simpl.
  destruct (decide (returncode (stash_pop o) = 0%Z)) as [Hp | Hp].
  - rewrite bool_decide_false by (intros ?; done).
    exists [], (Return tt). rewrite app_nil_r. split_and!; [done | set_solver | done].
  - rewrite bool_decide_true by done.
    unfold first_line, parser_error, bind, emit, raise.
    destruct (PyStr.splitlines (p_stderr (stash_pop o))) as [|l ls]; simpl.
    + exists [], (Raise IndexErr). rewrite app_nil_r. split_and!; [done | set_solver | done].
    + eexists [_], _. split_and!; [done | | done].
      rewrite list_elem_of_singleton. discriminate.
Qed.

End GitStashFacts.

(** C8. Whenever the scan is entered, that is [__enter__] returned, the
    release step [__exit__] runs after the scan on every outcome of the scan
    (a value or an exception), and it invokes [git stash pop] if and only if
    [__enter__] invoked [git stash push]; the flag [_stashed] records it. *)
Theorem GitStash_release_restores_iff_shelved :
  ∀ (A : Type) (o : GitStash.Oracle) (body : GitStash.Scan A)
    (t0 : list Event) (s1 : GitStash.t) (t1 : list Event),
    GitStash.__enter__ o GitStash.__init__ t0 = (s1, t1, Return tt) →
    ∃ (t_in t_out : list Event) (s3 : GitStash.t) (r_exit : Result unit),
      t1 = t0 ++ t_in
      ∧ GitStash.__exit__ o s1 (t1 ++ GitStash.scan_trace body)
        = (s3, (t1 ++ GitStash.scan_trace body) ++ t_out, r_exit)
      ∧ GitStash.with_stmt o body GitStash.__init__ t0
        = (s3, (t1 ++ GitStash.scan_trace body) ++ t_out,
           match r_exit with
           | Return _ => scan_outcome body
           | Raise e => Raise e
           | Hang => Hang
           end)
      ∧ (Run GitStash.stash_pop_cmd ∈ t_out ↔ Run GitStash.stash_push_cmd ∈ t_in)
      ∧ (Run GitStash.stash_push_cmd ∈ t_in ↔ GitStash._stashed s1 = true).
Proof.
  intros A o body t0 s1 t1 Henter.
  unfold GitStash.with_stmt. rewrite Henter. unfold GitStash.run_scan.
  fold (scan_outcome body).
  destruct (enter_returns o t0 s1 t1 Henter) as [[-> ->] | [-> ->]].
  - exists [Run GitStash.ls_files_cmd], [], GitStash.__init__, (Return tt).
    rewrite exit_not_stashed, app_nil_r.
    split_and!; try done.
    + split; [by intros ?%elem_of_nil|].
      rewrite list_elem_of_singleton. discriminate.
    + split; [|discriminate].
      rewrite list_elem_of_singleton. discriminate.
  - destruct (exit_stashed o
                ((t0 ++ [Run GitStash.ls_files_cmd; Run GitStash.stash_push_cmd])
                 ++ GitStash.scan_trace body))
      as (t' & r & Hexit & Hnot & _).
    exists [Run GitStash.ls_files_cmd; Run GitStash.stash_push_cmd],
           (Run GitStash.stash_pop_cmd :: t'), {| GitStash._stashed := true |}, r.
    rewrite Hexit. rewrite <- !app_assoc. simpl.
    split_and!; try done.
    + by destruct r.
    + split; intros _; set_solver.
    + split; [done|]. intros _. set_solver.
Qed.

Lemma GitStash_release_restores_iff_shelved_witness :
  GitStash.__enter__ dirty_tree GitStash.__init__ []
  = ({| GitStash._stashed := true |},
     [Run GitStash.ls_files_cmd; Run GitStash.stash_push_cmd], Return tt)
  ∧ ∃ (t_in t_out : list Event) (s3 : GitStash.t) (r_exit : Result unit),
      [Run GitStash.ls_files_cmd; Run GitStash.stash_push_cmd] = [] ++ t_in
      ∧ GitStash.__exit__ dirty_tree {| GitStash._stashed := true |}
          ([Run GitStash.ls_files_cmd; Run GitStash.stash_push_cmd]
           ++ GitStash.scan_trace interrupted_scan)
        = (s3, ([Run GitStash.ls_files_cmd; Run GitStash.stash_push_cmd]
                ++ GitStash.scan_trace interrupted_scan) ++ t_out, r_exit)
      ∧ GitStash.with_stmt dirty_tree interrupted_scan GitStash.__init__ []
        = (s3, ([Run GitStash.ls_files_cmd; Run GitStash.stash_push_cmd]
                ++ GitStash.scan_trace interrupted_scan) ++ t_out,
           match r_exit with
           | Return _ => scan_outcome interrupted_scan
           | Raise e => Raise e
           | Hang => Hang
           end)
      ∧ (Run GitStash.stash_pop_cmd ∈ t_out ↔ Run GitStash.stash_push_cmd ∈ t_in)
      ∧ (Run GitStash.stash_push_cmd ∈ t_in
         ↔ GitStash._stashed {| GitStash._stashed := true |} = true).
Proof.
  split; [reflexivity|].
  apply (GitStash_release_restores_iff_shelved unit dirty_tree interrupted_scan []).
  reflexivity.
Defined.

(** C10. When [git ls-files] exits with a non-zero status, [__enter__] runs
    no other command, raises nothing and leaves [_stashed] unset; the scan
    runs; [__exit__] runs no command; and the state, the commands after
    [ls-files] and the result are those of the same run on a clean tree. *)
Theorem GitStash_ls_files_failure_is_clean :
  ∀ (A : Type) (o : GitStash.Oracle) (body : GitStash.Scan A) (t0 : list Event),
    returncode (GitStash.ls_files o) ≠ 0%Z →
    GitStash.__enter__ o GitStash.__init__ t0
    = (GitStash.__init__, t0 ++ [Run GitStash.ls_files_cmd], Return tt)
    ∧ GitStash.with_stmt o body GitStash.__init__ t0
      = (GitStash.__init__,
         (t0 ++ [Run GitStash.ls_files_cmd]) ++ GitStash.scan_trace body,
         scan_outcome body)
    ∧ GitStash.with_stmt o body GitStash.__init__ t0
      = GitStash.with_stmt (as_clean o) body GitStash.__init__ t0.
Proof.
  intros A o body t0 Hrc.
  assert (Henter : GitStash.__enter__ o GitStash.__init__ t0
                   = (GitStash.__init__, t0 ++ [Run GitStash.ls_files_cmd], Return tt))
    by (apply enter_not_dirty; auto).
  assert (Hclean : GitStash.__enter__ (as_clean o) GitStash.__init__ t0
                   = (GitStash.__init__, t0 ++ [Run GitStash.ls_files_cmd], Return tt))
    by (apply enter_not_dirty; auto).
  split_and!; [done | |].
  - unfold GitStash.with_stmt. rewrite Henter. unfold GitStash.run_scan.
    by rewrite exit_not_stashed.
  - unfold GitStash.with_stmt. rewrite Henter, Hclean. unfold GitStash.run_scan.
    by rewrite !exit_not_stashed.
Qed.

Lemma GitStash_ls_files_failure_is_clean_witness :
  GitStash.__enter__ ls_files_fails GitStash.__init__ []
  = (GitStash.__init__, [] ++ [Run GitStash.ls_files_cmd], Return tt)
  ∧ GitStash.with_stmt ls_files_fails finished_scan GitStash.__init__ []
    = (GitStash.__init__,
       ([] ++ [Run GitStash.ls_files_cmd]) ++ GitStash.scan_trace finished_scan,
       scan_outcome finished_scan)
  ∧ GitStash.with_stmt ls_files_fails finished_scan GitStash.__init__ []
    = GitStash.with_stmt (as_clean ls_files_fails) finished_scan GitStash.__init__ [].
Proof.
  apply (GitStash_ls_files_failure_is_clean nat ls_files_fails finished_scan []).
  discriminate.
Defined.

(** ** The [--commits] action *)

Section ScanCommitsFacts.
Import ScanCommits.
Context {AM : AtomModel}.
Variable git_checks : list string.
Variable sorted_atoms : list Atom → list Atom.

Lemma call_no_output namespace value p t0 :
  targets namespace = [] →
  returncode p = 0%Z →
  p_stdout p = EmptyString →
  __call__ git_checks sorted_atoms (Finished p) value namespace t0
  = (with_ref git_checks namespace value,
     (t0 ++ [Run (diff_cmd namespace value)]) ++ [ParserExit],
     Raise (SystemExit 0)).
Proof.
  intros Ht Hrc Hout.
  unfold __call__, bind, get, put, emit, ret. simpl.
  rewrite Ht. rewrite bool_decide_false by (intros ?; done). simpl.
  rewrite Hrc. rewrite bool_decide_false by (intros ?; done). simpl.
  rewrite Hout. simpl. unfold with_ref, diff_cmd. by rewrite Ht.
Qed.

End ScanCommitsFacts.

(** C9. When the action is used without targets and [git diff] succeeds and
    prints nothing, [__call__] ends in [parser.exit()], that is
    [SystemExit(0)], right after the diff command: no error is reported, the
    namespace gets no [restrictions] and no context manager. *)
Theorem ScanCommits_no_changes_exits_cleanly :
  ∀ (AM : AtomModel) (git_checks : list string)
    (sorted_atoms : list Atom → list Atom)
    (namespace : ScanCommits.Namespace) (value : option string)
    (p : CompletedProcess) (t0 : list Event),
    ScanCommits.targets namespace = [] →
    returncode p = 0%Z →
    p_stdout p = EmptyString →
    ∃ namespace' : ScanCommits.Namespace,
      ScanCommits.__call__ git_checks sorted_atoms (ScanCommits.Finished p) value namespace t0
      = (namespace',
         (t0 ++ [Run (diff_cmd namespace value)]) ++ [ParserExit],
         Raise (SystemExit 0))
      ∧ ScanCommits.restrictions namespace' = ScanCommits.restrictions namespace
      ∧ ScanCommits.contexts namespace' = ScanCommits.contexts namespace.
Proof.
  intros AM git_checks sorted_atoms namespace value p t0 Ht Hrc Hout.
  exists (with_ref git_checks namespace value).
  split; [by apply call_no_output|]. done.
Qed.

Lemma ScanCommits_no_changes_exits_cleanly_witness :
  ∃ namespace' : ScanCommits.Namespace,
    ScanCommits.__call__ ["GitCommitsCheck"] id
      (ScanCommits.Finished {| returncode := 0; p_stdout := ""; p_stderr := "" |})
      None sample_namespace []
    = (namespace',
       ([] ++ [Run (diff_cmd sample_namespace None)]) ++ [ParserExit],
       Raise (SystemExit 0))
    ∧ ScanCommits.restrictions namespace' = ScanCommits.restrictions sample_namespace
    ∧ ScanCommits.contexts namespace' = ScanCommits.contexts sample_namespace.
Proof.
  apply (ScanCommits_no_changes_exits_cleanly SampleAtoms.model ["GitCommitsCheck"] id
           sample_namespace None
           {| returncode := 0; p_stdout := ""; p_stderr := "" |} []);
    reflexivity.
Defined.

(** ** The change classifier *)

(** *** The matcher on a rename line *)

Lemma app_String c (s t : string) : String c s +:+ t = String c (s +:+ t).
Proof. reflexivity. Qed.
Lemma app_empty (t : string) : EmptyString +:+ t = t.
Proof. reflexivity. Qed.

Lemma string_app_assoc (s t u : string) : (s +:+ t) +:+ u = s +:+ t +:+ u.
Proof. induction s as [|c s IH]; [done|]. rewrite !app_String. by rewrite IH. Qed.

Lemma length_app (s t : string) :
  String.length (s +:+ t) = String.length s + String.length t.
Proof. induction s as [|c s IH]; [done|]. rewrite ?app_String. simpl. by rewrite IH. Qed.

Lemma take_app (s t : string) :
  PyStr.take (String.length (s +:+ t) - String.length t) (s +:+ t) = s.
Proof.
  rewrite length_app. replace (String.length s + String.length t - String.length t)
    with (String.length s) by lia.
  induction s as [|c s IH]; simpl.
  - by destruct t.
  - rewrite ?app_String. simpl. by rewrite IH.
Qed.

Section PlusGreedy.
Variable p : ascii -> bool.
Variable k : string -> option Re.captures.

Lemma plus_greedy_None rest s2 :
  stops p rest → tails_fail k rest s2 → Re.plus_greedy p (s2 +:+ rest) k = None.
Proof.
  intros Hstop. induction s2 as [|c s2 IH]; intros Hfail.
  - rewrite ?app_empty. destruct rest as [|c rest]; [done|]. simpl in *. by rewrite Hstop.
  - destruct Hfail as [Hk Hfail]. rewrite ?app_String. simpl.
    destruct (p c); [|done]. by rewrite IH.
Qed.

Lemma plus_greedy_Some s1 s2 rest r :
  s1 ≠ EmptyString → all_chars p s1 = true → stops p rest →
  tails_fail k rest s2 → k (s2 +:+ rest) = Some r →
  Re.plus_greedy p (s1 +:+ s2 +:+ rest) k = Some r.
Proof.
  intros Hne Hall Hstop Hfail Hk.
  induction s1 as [|c s1 IH]; [done|].
  simpl in Hall. apply andb_true_iff in Hall as [Hc Hall].
  rewrite ?app_String. simpl. rewrite Hc.
  destruct s1 as [|c' s1].
  - rewrite ?app_empty. by rewrite plus_greedy_None.
  - by rewrite IH.
Qed.

End PlusGreedy.

Section GoFacts.
Variable input : string.
Implicit Types (r : Re.regex) (caps : Re.captures)
  (k : string → Re.captures → option Re.captures).

Lemma go_Seq r1 r2 rest caps k :
  Re.go input (Re.Seq r1 r2) rest caps k
  = Re.go input r1 rest caps (fun rest' caps' => Re.go input r2 rest' caps' k).
Proof. reflexivity. Qed.

Lemma go_Chr c rest caps k : Re.go input (Re.Chr c) (String c rest) caps k = k rest caps.
Proof. simpl. by rewrite Ascii.eqb_refl. Qed.

Lemma go_lit s rest caps k : Re.go input (Re.lit s) (s +:+ rest) caps k = k rest caps.
Proof.
  revert caps k. induction s as [|c s IH]; intros caps k; [done|].
  rewrite ?app_String. cbn [Re.lit]. by rewrite go_Seq, go_Chr, IH.
Qed.

(** A literal followed by a character fails on a text that does not start
    with them. *)
Lemma go_lit_Chr_None s t r rest caps k :
  (∀ rest', rest ≠ s +:+ String t rest') →
  Re.go input (Re.lit s) rest caps
    (fun rest' caps' => Re.go input (Re.Seq (Re.Chr t) r) rest' caps' k) = None.
Proof.
  revert rest. induction s as [|c s IH]; intros rest Hne.
  - cbn [Re.lit Re.go]. destruct rest as [|c' rest]; [done|].
    destruct (Ascii.eqb_spec t c') as [-> | _]; [|done].
    by destruct (Hne rest).
  - cbn [Re.lit]. rewrite go_Seq. cbn [Re.go].
    destruct rest as [|c' rest]; [done|].
    destruct (Ascii.eqb_spec c c') as [-> | _]; [|done].
    apply IH. intros rest' ->. by destruct (Hne rest').
Qed.

Lemma tails_fail_of_caps k (f : string → Re.captures) rest s2 :
  tails_fail_caps k rest s2 → tails_fail (fun rest' => k rest' (f rest')) rest s2.
Proof. induction s2 as [|c s2 IH]; [done|]. intros [H1 H2]. split; [apply H1 | by apply IH]. Qed.

Lemma tails_fail_caps_all (q : ascii → bool) k rest s :
  (∀ v caps, all_chars q v = true → k (v +:+ rest) caps = None) →
  all_chars q s = true → tails_fail_caps k rest s.
Proof.
  intros Hk. induction s as [|c s IH]; [done|].
  intros [_ Hs]%andb_true_iff. split; [|by apply IH].
  intros caps. by apply Hk.
Qed.

Lemma go_Plus p s1 rest caps k res :
  s1 ≠ EmptyString → all_chars p s1 = true → stops p rest →
  k rest caps = Some res →
  Re.go input (Re.Plus p) (s1 +:+ rest) caps k = Some res.
Proof.
  intros Hne Hall Hstop Hk. cbn [Re.go].
  by apply (plus_greedy_Some p _ s1 EmptyString rest res).
Qed.

Lemma go_Grp_Plus n p s1 s2 rest caps k res :
  s1 ≠ EmptyString → all_chars p s1 = true → stops p rest →
  tails_fail_caps k rest s2 →
  k (s2 +:+ rest) (<[n := s1]> caps) = Some res →
  Re.go input (Re.Grp n (Re.Plus p)) (s1 +:+ s2 +:+ rest) caps k = Some res.
Proof.
  intros Hne Hall Hstop Hfail Hk. cbn [Re.go].
  apply plus_greedy_Some; [done | done | done | by apply tails_fail_of_caps |].
  by rewrite take_app.
Qed.

End GoFacts.

Lemma stops_slash (rest : string) : stops Re.not_slash ("/" +:+ rest).
Proof. reflexivity. Qed.

Lemma go_Chr_slash input rest caps k :
  Re.go input (Re.Chr PyStr.slash) ("/" +:+ rest) caps k = k rest caps.
Proof. apply go_Chr. Qed.

Lemma go_Chr_tab input rest caps k :
  Re.go input (Re.Chr PyStr.tab) (tb +:+ rest) caps k = k rest caps.
Proof. apply go_Chr. Qed.

Lemma go_ebuild input g cat dir pkg run2 rest caps k res :
  segment cat → segment dir → segment pkg →
  stops Re.not_slash rest →
  tails_fail_caps (fun text caps' => Re.go input (Re.lit ".ebuild") text caps' k)
    rest (".ebuild" +:+ run2) →
  k (run2 +:+ rest) (<[S g := pkg]> (<[g := cat]> caps)) = Some res →
  Re.go input (_ebuild_regex g)
    (cat +:+ "/" +:+ dir +:+ "/" +:+ pkg +:+ ".ebuild" +:+ run2 +:+ rest) caps k
  = Some res.
Proof.
  intros [Hc1 Hc2] [Hd1 Hd2] [Hp1 Hp2] Hstop Hfail Hk.
  unfold _ebuild_regex. rewrite go_Seq.
  apply (go_Grp_Plus input g Re.not_slash cat EmptyString
           ("/" +:+ dir +:+ "/" +:+ pkg +:+ ".ebuild" +:+ run2 +:+ rest));
    [done | done | apply stops_slash | done |].
  rewrite app_empty, go_Seq, go_Chr_slash, go_Seq.
  apply (go_Plus input Re.not_slash dir); [done | done | apply stops_slash |].
  rewrite go_Seq, go_Chr_slash, go_Seq.
  apply (go_Grp_Plus input (S g) Re.not_slash pkg (".ebuild" +:+ run2) rest);
    [done | done | done | done |].
  change ((".ebuild" +:+ run2) +:+ rest) with (".ebuild" +:+ run2 +:+ rest).
  by rewrite go_lit.
Qed.

Lemma all_chars_impl (p q : ascii → bool) s :
  (∀ c, p c = true → q c = true) → all_chars p s = true → all_chars q s = true.
Proof.
  intros Hpq. induction s as [|c s IH]; [done|]. simpl.
  intros [Hc Hs]%andb_true_iff. by rewrite (Hpq c Hc), IH.
Qed.

(** A text whose first [/] comes before any tab does not start with a
    literal without [/] followed by a tab. *)
Lemma no_lit_tab (s v x rest' : string) :
  all_chars Re.not_slash s = true → all_chars not_tab_slash v = true →
  v +:+ "/" +:+ x ≠ s +:+ String PyStr.tab rest'.
Proof.
  revert v. induction s as [|c s IH]; intros [|c' v] Hs Hv H.
  - discriminate H.
  - injection H as -> _. discriminate Hv.
  - injection H as <- _. discriminate Hs.
  - injection H as -> H. simpl in Hs, Hv.
    apply andb_true_iff in Hs as [_ Hs]. apply andb_true_iff in Hv as [_ Hv].
    by apply (IH v).
Qed.

Lemma go_Alt input r1 r2 rest caps k :
  Re.go input (Re.Alt r1 r2) rest caps k
  = match Re.go input r1 rest caps k with
    | Some res => Some res
    | None => Re.go input r2 rest caps k
    end.
Proof. reflexivity. Qed.

Lemma go_Grp_lit input n s rest caps k :
  Re.go input (Re.Grp n (Re.lit s)) (s +:+ rest) caps k = k rest (<[n := s]> caps).
Proof. cbn [Re.go]. by rewrite go_lit, take_app. Qed.

(** The first alternative of [_git_log_regex] fails on a line that starts
    with [R]. *)
Lemma go_ADM_None rest caps k :
  Re.go ("R" +:+ rest)
    (Re.Seq Re.Bol
       (Re.Seq (Re.Grp 1 (Re.Cls (Re.one_of "ADM")))
          (Re.Seq (Re.Chr PyStr.tab) (_ebuild_regex 2))))
    ("R" +:+ rest) caps k = None.
Proof. cbn [Re.go]. by rewrite Nat.eqb_refl. Qed.

Lemma rename_line_match digits cat dir pkg cat2 dir2 pkg2 :
  digits ≠ EmptyString → all_chars PyStr.is_digit digits = true →
  segment cat → segment dir → segment pkg →
  segment cat2 → all_chars not_tab_slash cat2 = true →
  segment dir2 → segment pkg2 →
  ∃ m,
    Re.rmatch _git_log_regex
      ("R" +:+ digits +:+ tb +:+ cat +:+ "/" +:+ dir +:+ "/" +:+ pkg +:+ ".ebuild"
       +:+ tb +:+ cat2 +:+ "/" +:+ dir2 +:+ "/" +:+ pkg2 +:+ ".ebuild")
    = Some m
    ∧ Re.groups 8 m
      = [None; None; None; Some "R"; Some cat; Some pkg; Some cat2; Some pkg2].
Proof.
  intros Hd1 Hd2 Hcat Hdir Hpkg Hcat2 Htab Hdir2 Hpkg2.
  exists (<[8 := pkg2]> (<[7 := cat2]> (<[6 := pkg]> (<[5 := cat]> (<[4 := "R"]> ∅))))).
  split; [|reflexivity].
  unfold Re.rmatch, _git_log_regex.
  rewrite go_Alt, go_ADM_None, go_Seq, go_Grp_lit, go_Seq.
  apply (go_Plus _ PyStr.is_digit digits); [done | done | reflexivity |].
  rewrite go_Seq, go_Chr_tab, go_Seq.
  apply (go_ebuild _ 5 cat dir pkg (tb +:+ cat2) ("/" +:+ dir2 +:+ "/" +:+ pkg2 +:+ ".ebuild"));
    [done | done | done | reflexivity | |].
  { assert (Hv : ∀ v caps, all_chars not_tab_slash v = true →
              Re.go ("R" +:+ digits +:+ tb +:+ cat +:+ "/" +:+ dir +:+ "/" +:+ pkg
                     +:+ ".ebuild" +:+ tb +:+ cat2 +:+ "/" +:+ dir2 +:+ "/" +:+ pkg2
                     +:+ ".ebuild")
                (Re.lit ".ebuild") (v +:+ "/" +:+ dir2 +:+ "/" +:+ pkg2 +:+ ".ebuild") caps
                (fun rest' caps' =>
                   Re.go ("R" +:+ digits +:+ tb +:+ cat +:+ "/" +:+ dir +:+ "/" +:+ pkg
                     +:+ ".ebuild" +:+ tb +:+ cat2 +:+ "/" +:+ dir2 +:+ "/" +:+ pkg2
                     +:+ ".ebuild")
                     (Re.Seq (Re.Chr PyStr.tab) (Re.Seq (_ebuild_regex 7) Re.Eol))
                     rest' caps' (fun _ caps => Some caps)) = None).
    { intros v caps Hv. apply go_lit_Chr_None. intros rest'. by apply no_lit_tab. }
    repeat (split; [intros caps; reflexivity|]).
    split; [intros caps; by apply Hv|].
    by apply (tails_fail_caps_all not_tab_slash). }
  change ((tb +:+ cat2) +:+ "/" +:+ dir2 +:+ "/" +:+ pkg2 +:+ ".ebuild")
    with (tb +:+ cat2 +:+ "/" +:+ dir2 +:+ "/" +:+ pkg2 +:+ ".ebuild").
  rewrite go_Seq, go_Chr_tab, go_Seq.
  apply (go_ebuild _ 7 cat2 dir2 pkg2 EmptyString EmptyString);
    [done | done | done | done | | reflexivity].
  repeat (split; [intros caps; reflexivity|]). done.
Qed.

Lemma rename_line_of_match digits cat dir pkg cat2 dir2 pkg2 :
  digits ≠ EmptyString → all_chars PyStr.is_digit digits = true →
  segment cat → segment dir → segment pkg →
  segment cat2 → all_chars not_tab_slash cat2 = true →
  segment dir2 → segment pkg2 →
  ∃ m,
    Re.rmatch _git_log_regex
      (rename_line_of digits (ebuild_path cat dir pkg) (ebuild_path cat2 dir2 pkg2))
    = Some m
    ∧ Re.groups 8 m
      = [None; None; None; Some "R"; Some cat; Some pkg; Some cat2; Some pkg2].
Proof.
  intros. unfold rename_line_of, ebuild_path.
  replace ("R" +:+ digits +:+ tb
           +:+ (cat +:+ "/" +:+ dir +:+ "/" +:+ pkg +:+ ".ebuild")
           +:+ tb +:+ cat2 +:+ "/" +:+ dir2 +:+ "/" +:+ pkg2 +:+ ".ebuild")
    with ("R" +:+ digits +:+ tb +:+ cat +:+ "/" +:+ dir +:+ "/" +:+ pkg +:+ ".ebuild"
          +:+ tb +:+ cat2 +:+ "/" +:+ dir2 +:+ "/" +:+ pkg2 +:+ ".ebuild").
  - by apply rename_line_match.
  - do 3 f_equal. by rewrite !string_app_assoc.
Qed.

(** C1, amended. For a rename line [R<digits><TAB><old path><TAB><new path>]
    whose paths have the shape [category/directory/file.ebuild] (segments
    without [/], the new category without a tab) and whose two atoms are
    valid, the classifier yields an event for the old atom with no extra
    data; in local mode it yields a second event, for the new atom, whose
    [old_atom] is the old atom; otherwise it yields that one event only. *)
Theorem rename_line_events :
  ∀ (AM : AtomModel) (local : bool) (c : GitCommit)
    (digits cat dir pkg cat2 dir2 pkg2 : string) (old_atom new_atom : Atom),
    digits ≠ EmptyString → all_chars PyStr.is_digit digits = true →
    segment cat → segment dir → segment pkg →
    segment cat2 → all_chars not_tab_slash cat2 = true →
    segment dir2 → segment pkg2 →
    ebuild_atom cat pkg = Some old_atom →
    ebuild_atom cat2 pkg2 = Some new_atom →
    pkg_changes_of_line local c
      (rename_line_of digits (ebuild_path cat dir pkg) (ebuild_path cat2 dir2 pkg2))
    = {| atom := old_atom; status := "R"; commit := c; data := ∅ |}
      :: (if local
          then [{| atom := new_atom; status := "R"; commit := c;
                   data := {["old_atom" := old_atom]} |}]
          else []).
Proof.
  intros AM local c digits cat dir pkg cat2 dir2 pkg2 old_atom new_atom
    Hd1 Hd2 Hcat Hdir Hpkg Hcat2 Htab Hdir2 Hpkg2 Hold Hnew.
  destruct (rename_line_of_match digits cat dir pkg cat2 dir2 pkg2) as (m & Hm & Hg);
    try done.
  unfold pkg_changes_of_line. rewrite Hm, Hg, Hold.
  destruct local; [by rewrite Hnew | done].
Qed.

Lemma rename_line_events_witness :
  pkg_changes_of_line (AM := SampleAtoms.model) true sample_commit
    (rename_line_of "100" (ebuild_path "app-misc" "old" "old-1")
       (ebuild_path "app-misc" "new" "new-1"))
  = {| atom := old_1; status := "R"; commit := sample_commit; data := ∅ |}
    :: (if true
        then [{| atom := new_1; status := "R"; commit := sample_commit;
                 data := {["old_atom" := old_1]} |}]
        else []).
Proof.
  apply (rename_line_events SampleAtoms.model true sample_commit
           "100" "app-misc" "old" "old-1" "app-misc" "new" "new-1" old_1 new_1);
    first [reflexivity | split; [discriminate | reflexivity] | discriminate].
Defined.

(** C1 as stated fails: for [rename_line], whose two paths give valid atoms,
    the run that is not local yields no event for the new atom, and the local
    run yields no event for the old atom whose [old_atom] is the new atom. *)
Lemma rename_line_new_atom_not_emitted :
  Re.groups 8 <$> Re.rmatch _git_log_regex rename_line
  = Some [None; None; None; Some "R"; Some "app-misc"; Some "old-1";
          Some "app-misc"; Some "new-1"]
  ∧ ebuild_atom (AM := SampleAtoms.model) "app-misc" "old-1" = Some old_1
  ∧ ebuild_atom (AM := SampleAtoms.model) "app-misc" "new-1" = Some new_1
  ∧ pkg_changes_of_line (AM := SampleAtoms.model) false sample_commit rename_line
    = [{| atom := old_1; status := "R"; commit := sample_commit; data := ∅ |}]
  ∧ ¬ (∃ e, e ∈ pkg_changes_of_line (AM := SampleAtoms.model) false sample_commit rename_line
            ∧ atom e = new_1)
  ∧ ¬ (∃ e, e ∈ pkg_changes_of_line (AM := SampleAtoms.model) true sample_commit rename_line
            ∧ atom e = old_1 ∧ data e !! "old_atom" = Some new_1).
Proof.
  assert (Hfalse :
    pkg_changes_of_line (AM := SampleAtoms.model) false sample_commit rename_line
    = [{| atom := old_1; status := "R"; commit := sample_commit; data := ∅ |}])
    by reflexivity.
  assert (Htrue :
    pkg_changes_of_line (AM := SampleAtoms.model) true sample_commit rename_line
    = [{| atom := old_1; status := "R"; commit := sample_commit; data := ∅ |};
       {| atom := new_1; status := "R"; commit := sample_commit;
          data := {["old_atom" := old_1]} |}])
    by reflexivity.
  split_and!; [reflexivity | reflexivity | reflexivity | done | |].
  - rewrite Hfalse. intros (e & He & Ha).
    apply list_elem_of_singleton in He. subst e. discriminate Ha.
  - rewrite Htrue. intros (e & He & Ha & Hd).
    apply elem_of_cons in He as [-> | He].
    + simpl in Hd. by rewrite lookup_empty in Hd.
    + apply list_elem_of_singleton in He. subst e. discriminate Ha.
Qed.

(** ** The cache merge *)

Section UpdateFacts.
Context {AM : AtomModel}.
Implicit Types (d : Data) (e : GitPkgChange) (es : list GitPkgChange)
  (seen : gset (Atom * string)) (x : CommitEntry).

Lemma update_loop_recorded local es seen d :
  update_loop local es seen d = foldl (record local) d (recorded seen es).
Proof.
  revert seen d. induction es as [|e es IH]; intros seen d; simpl; [done|].
  destruct (decide (key e ∈ seen)); simpl; by rewrite IH.
Qed.

Lemma recorded_first_occurrences seen es :
  recorded seen es = filter (fun e => key e ∉ seen) (first_occurrences es).
Proof.
  revert seen. induction es as [|e es IH]; intros seen; simpl; [done|].
  destruct (decide (key e ∈ seen)) as [Hin | Hin].
  - rewrite filter_cons_False by (intros H; by apply H).
    rewrite IH, list_filter_filter. apply list_filter_iff.
    intros e'. split; [|tauto]. intros H. split; [done|]. congruence.
  - rewrite filter_cons_True by done. f_equal.
    rewrite IH, list_filter_filter. apply list_filter_iff.
    intros e'. rewrite not_elem_of_union, not_elem_of_singleton. tauto.
Qed.

Lemma recorded_empty es : recorded ∅ es = first_occurrences es.
Proof.
  rewrite recorded_first_occurrences.
  induction (first_occurrences es) as [|e l IH]; [done|].
  rewrite filter_cons_True by set_solver. by rewrite IH.
Qed.

Lemma elem_of_first_occurrences e es : e ∈ first_occurrences es → e ∈ es.
Proof.
  induction es as [|e' es IH]; simpl; [done|].
  rewrite !elem_of_cons, list_elem_of_filter.
  intros [H | [_ H]]; [by left | right; by apply IH].
Qed.

(** Among the kept events there is one for every key of the stream, the
    first event with that key. *)
Lemma first_occurrences_with_key k es :
  with_key k (first_occurrences es) = option_list (head (with_key k es)).
Proof.
  unfold with_key. induction es as [|e es IH]; simpl; [done|].
  destruct (decide (key e = k)) as [Hk | Hk].
  - rewrite !filter_cons_True by done. simpl. f_equal.
    rewrite list_filter_filter. clear IH.
    induction (first_occurrences es) as [|e' l IHl]; [done|].
    rewrite filter_cons_False by (intros [H1 H2]; congruence). exact IHl.
  - rewrite !filter_cons_False by done. rewrite <- IH.
    rewrite list_filter_filter. apply list_filter_iff.
    intros e'. split; [tauto|]. intros H. split; [done|]. congruence.
Qed.

Lemma first_occurrences_app es1 es2 :
  first_occurrences (es1 ++ es2)
  = first_occurrences es1
    ++ filter (fun e => key e ∉ key <$> es1) (first_occurrences es2).
Proof.
  induction es1 as [|e es1 IH]; simpl.
  - induction (first_occurrences es2) as [|e' l IHl]; [done|].
    rewrite filter_cons_True; [by f_equal|]. apply not_elem_of_nil.
  - f_equal. rewrite IH, filter_app. f_equal.
    rewrite list_filter_filter. apply list_filter_iff. intros e'.
    rewrite not_elem_of_cons. tauto.
Qed.

Lemma first_occurrences_app_disjoint es1 es2 :
  disjoint_keys es1 es2 →
  first_occurrences (es1 ++ es2) = first_occurrences es1 ++ first_occurrences es2.
Proof.
  intros Hd. rewrite first_occurrences_app. f_equal.
  assert (Hsub : ∀ e, e ∈ first_occurrences es2 → e ∈ es2)
    by (intros e; apply elem_of_first_occurrences).
  induction (first_occurrences es2) as [|e' l IHl]; [done|].
  rewrite filter_cons_True.
  - f_equal. apply IHl. intros e He. apply Hsub. by right.
  - intros (e1 & Heq & He1)%list_elem_of_fmap.
    apply (Hd e1 e' He1); [apply Hsub; left | done].
Qed.

(** *** Reading the dictionary after [setdefault(...).append(...)] *)

Lemma lookup_setdefault_append d c p s x c' :
  setdefault_append d c p s x !! c'
  = if decide (c = c')
    then Some (<[p := <[s := entries d c p s ++ [x]]> (default ∅ (lookup_pkg d c p))]>
                 (default ∅ (d !! c)))
    else d !! c'.
Proof.
  unfold setdefault_append, entries, lookup_status, lookup_pkg.
  destruct (decide (c = c')) as [<- | Hc].
  - rewrite lookup_insert_eq. by destruct (d !! c) as [pkgs|]; simpl;
      [destruct (pkgs !! p)|].
  - by rewrite lookup_insert_ne.
Qed.

Lemma lookup_pkg_setdefault_append d c p s x c' p' :
  lookup_pkg (setdefault_append d c p s x) c' p'
  = if decide (c = c' ∧ p = p')
    then Some (<[s := entries d c p s ++ [x]]> (default ∅ (lookup_pkg d c p)))
    else lookup_pkg d c' p'.
Proof.
  unfold lookup_pkg at 1. rewrite lookup_setdefault_append.
  destruct (decide (c = c')) as [<- | Hc]; simpl.
  - destruct (decide (p = p')) as [<- | Hp].
    + rewrite lookup_insert_eq. by rewrite decide_True.
    + rewrite lookup_insert_ne by done. rewrite decide_False by tauto.
      unfold lookup_pkg. by destruct (d !! c).
  - by rewrite decide_False by tauto.
Qed.

Lemma lookup_status_setdefault_append d c p s x c' p' s' :
  lookup_status (setdefault_append d c p s x) c' p' s'
  = if decide (c = c' ∧ p = p' ∧ s = s')
    then Some (entries d c p s ++ [x])
    else lookup_status d c' p' s'.
Proof.
  unfold lookup_status at 1. rewrite lookup_pkg_setdefault_append.
  destruct (decide (c = c' ∧ p = p')) as [[<- <-] | Hcp]; simpl.
  - destruct (decide (s = s')) as [<- | Hs].
    + rewrite lookup_insert_eq. by rewrite decide_True.
    + rewrite lookup_insert_ne by done. rewrite decide_False by tauto.
      unfold lookup_status. by destruct (lookup_pkg d c p).
  - by rewrite decide_False by tauto.
Qed.

(** *** Reading the dictionary after the loop *)

Lemma lookup_status_foldl local rs d c p s :
  lookup_status (foldl (record local) d rs) c p s
  = append_opt (lookup_status d c p s) (appended local c p s rs).
Proof.
  revert d. induction rs as [|e rs IH]; intros d; simpl; [done|].
  rewrite IH. unfold record. rewrite lookup_status_setdefault_append.
  unfold appended.
  destruct (decide (category (atom e) = c ∧ package (atom e) = p ∧ status e = s))
    as [(<- & <- & <-) | Hne].
  - rewrite filter_cons_True by done. rewrite fmap_cons. unfold entries.
    destruct (commit_entry local <$> filter _ rs) as [|y l]; simpl.
    + done.
    + by rewrite <- app_assoc.
  - by rewrite filter_cons_False by done.
Qed.

Lemma entries_foldl local rs d c p s :
  entries (foldl (record local) d rs) c p s
  = entries d c p s ++ appended local c p s rs.
Proof.
  unfold entries. rewrite lookup_status_foldl.
  destruct (appended local c p s rs); simpl; [by rewrite app_nil_r | done].
Qed.

Lemma lookup_pkg_foldl_is_Some local rs d c p :
  is_Some (lookup_pkg (foldl (record local) d rs) c p)
  ↔ is_Some (lookup_pkg d c p)
    ∨ ∃ e, e ∈ rs ∧ category (atom e) = c ∧ package (atom e) = p.
Proof.
  revert d. induction rs as [|e rs IH]; intros d; simpl.
  - split; [by left|]. intros [H | (e & He & _)]; [done | by apply elem_of_nil in He].
  - rewrite IH. unfold record at 1. rewrite lookup_pkg_setdefault_append.
    destruct (decide (category (atom e) = c ∧ package (atom e) = p)) as [[Hc Hp] | Hne].
    + split; [|by left]. intros _. right. exists e. split; [left | done].
    + split.
      * intros [H | (e' & He' & H)]; [by left|]. right. exists e'. split; [by right | done].
      * intros [H | (e' & [-> | He']%elem_of_cons & H)]; [by left | tauto |].
        right. by exists e'.
Qed.

Lemma lookup_foldl_is_Some local rs d c :
  is_Some (foldl (record local) d rs !! c)
  ↔ is_Some (d !! c) ∨ ∃ e, e ∈ rs ∧ category (atom e) = c.
Proof.
  revert d. induction rs as [|e rs IH]; intros d; simpl.
  - split; [by left|]. intros [H | (e & He & _)]; [done | by apply elem_of_nil in He].
  - rewrite IH. unfold record at 1. rewrite lookup_setdefault_append.
    destruct (decide (category (atom e) = c)) as [Hc | Hne].
    + split; [|by left]. intros _. right. exists e. split; [left | done].
    + split.
      * intros [H | (e' & He' & H)]; [by left|]. right. exists e'. split; [by right | done].
      * intros [H | (e' & [-> | He']%elem_of_cons & H)]; [by left | tauto |].
        right. by exists e'.
Qed.

(** *** Dictionaries that differ in the order of their lists only *)

(** With equal lists the relation is equality of the dictionaries. *)
Lemma data_rel_eq (d1 d2 : Data) : data_rel eq d1 d2 → d1 = d2.
Proof.
  intros H. apply map_eq. intros c. specialize (H c).
  destruct H as [m1 m2 H|]; [|done]. f_equal.
  apply map_eq. intros p. specialize (H p).
  destruct H as [n1 n2 H|]; [|done]. f_equal.
  apply map_eq. intros s. specialize (H s).
  destruct H as [l1 l2 H|]; [|done]. by f_equal.
Qed.

Lemma same_up_to_order_lookups (d1 d2 : Data) :
  (∀ c, is_Some (d1 !! c) ↔ is_Some (d2 !! c)) →
  (∀ c p, is_Some (lookup_pkg d1 c p) ↔ is_Some (lookup_pkg d2 c p)) →
  (∀ c p s, option_Forall2 Permutation (lookup_status d1 c p s) (lookup_status d2 c p s)) →
  same_up_to_order d1 d2.
Proof.
  intros H1 H2 H3 c. specialize (H1 c).
  destruct (d1 !! c) as [m1|] eqn:E1, (d2 !! c) as [m2|] eqn:E2.
  - constructor. intros p. specialize (H2 c p). unfold lookup_pkg in H2.
    rewrite E1, E2 in H2. simpl in H2.
    destruct (m1 !! p) as [n1|] eqn:F1, (m2 !! p) as [n2|] eqn:F2.
    + constructor. intros s. specialize (H3 c p s).
      unfold lookup_status, lookup_pkg in H3.
      rewrite E1, E2 in H3. simpl in H3. by rewrite F1, F2 in H3.
    + destruct H2 as [H2 _]. by destruct H2.
    + destruct H2 as [_ H2]. by destruct H2.
    + constructor.
  - destruct H1 as [H1 _]. by destruct H1.
  - destruct H1 as [_ H1]. by destruct H1.
  - constructor.
Qed.

Lemma append_opt_Permutation o l1 l2 :
  l1 ≡ₚ l2 → option_Forall2 Permutation (append_opt o l1) (append_opt o l2).
Proof.
  intros H. destruct l1 as [|x1 l1].
  - apply Permutation_nil in H. subst l2. simpl. destruct o; by constructor.
  - destruct l2 as [|x2 l2].
    { symmetry in H. apply Permutation_nil in H. discriminate. }
    simpl. constructor. by apply Permutation_app.
Qed.

(** Recording the same events in another order gives the same dictionary up
    to the order of its lists. *)
Lemma foldl_record_Permutation local rs1 rs2 d :
  rs1 ≡ₚ rs2 →
  same_up_to_order (foldl (record local) d rs1) (foldl (record local) d rs2).
Proof.
  intros H. apply same_up_to_order_lookups.
  - intros c. rewrite !lookup_foldl_is_Some.
    by setoid_rewrite H.
  - intros c p. rewrite !lookup_pkg_foldl_is_Some.
    by setoid_rewrite H.
  - intros c p s. rewrite !lookup_status_foldl.
    apply append_opt_Permutation. unfold appended. by rewrite H.
Qed.

Lemma elem_of_entries_foldl_empty local rs c p s x :
  x ∈ entries (foldl (record local) ∅ rs) c p s →
  ∃ e, e ∈ rs ∧ in_slot c p s e ∧ x = commit_entry local e.
Proof.
  rewrite entries_foldl. unfold entries at 1, lookup_status, lookup_pkg.
  rewrite lookup_empty. simpl. unfold appended.
  intros (e & -> & [Hslot He]%list_elem_of_filter)%list_elem_of_fmap.
  by exists e.
Qed.

(** *** [update] in terms of the events it records *)

Lemma update_Ok repo commit_range (od : option Data) local ys :
  parse_git_log (git_log repo commit_range) true local = Ok ys →
  update repo commit_range od local
  = Ok (foldl (record local) (default ∅ od) (first_occurrences (pkg_changes ys))).
Proof.
  intros H. unfold update. rewrite H.
  by rewrite update_loop_recorded, recorded_empty.
Qed.

End UpdateFacts.

(** C3. When the parser is exhausted, [update] returns the given dictionary
    with the tuples of the kept events appended, every kept event filed
    under its category, package and status; and for every key
    [(atom, status)] that occurs in the stream, however often, exactly one
    kept event has that key: the first event of the stream with that key. *)
Theorem update_keeps_first_occurrence_only :
  ∀ (AM : AtomModel) (repo : ParsedGitRepo) (commit_range : string)
    (od : option Data) (local : bool) (ys : list Yield)
    (a : Atom) (st : string) (e : GitPkgChange),
    parse_git_log (git_log repo commit_range) true local = Ok ys →
    head (with_key (a, st) (pkg_changes ys)) = Some e →
    ∃ d' : Data,
      update repo commit_range od local = Ok d'
      ∧ (∀ c p s,
           lookup_status d' c p s
           = append_opt (lookup_status (default ∅ od) c p s)
               (appended local c p s (first_occurrences (pkg_changes ys))))
      ∧ with_key (a, st) (first_occurrences (pkg_changes ys)) = [e]
      ∧ entries d' (category a) (package a) st
        = entries (default ∅ od) (category a) (package a) st
          ++ appended local (category a) (package a) st
               (first_occurrences (pkg_changes ys))
      ∧ commit_entry local <$> with_key (a, st) (first_occurrences (pkg_changes ys))
        = [commit_entry local e].
Proof.
  intros AM repo commit_range od local ys a st e Hparse Hfirst.
  eexists. split; [by apply update_Ok|].
  assert (Hkey : with_key (a, st) (first_occurrences (pkg_changes ys)) = [e])
    by (by rewrite first_occurrences_with_key, Hfirst).
  split_and!.
  - intros c p s. apply lookup_status_foldl.
  - done.
  - apply entries_foldl.
  - by rewrite Hkey.
Qed.

(** C4. When the parser is exhausted, [update] returns a dictionary in which
    every list of the given dictionary is present under the same category,
    package and status, with tuples added at its end only. *)
Theorem update_only_appends :
  ∀ (AM : AtomModel) (repo : ParsedGitRepo) (commit_range : string)
    (d : Data) (local : bool) (ys : list Yield),
    parse_git_log (git_log repo commit_range) true local = Ok ys →
    ∃ d' : Data,
      update repo commit_range (Some d) local = Ok d'
      ∧ ∀ c p s l,
          lookup_status d c p s = Some l →
          ∃ l', lookup_status d' c p s = Some (l ++ l')
                ∧ ∀ x, x ∈ l → x ∈ entries d' c p s.
Proof.
  intros AM repo commit_range d local ys Hparse.
  eexists. split; [by apply update_Ok|].
  intros c p s l Hl. simpl.
  exists (appended local c p s (first_occurrences (pkg_changes ys))).
  assert (Hlookup :
    lookup_status (foldl (record local) d (first_occurrences (pkg_changes ys))) c p s
    = Some (l ++ appended local c p s (first_occurrences (pkg_changes ys)))).
  { rewrite lookup_status_foldl, Hl.
    destruct (appended local c p s _); simpl; [by rewrite app_nil_r | done]. }
  split; [done|].
  intros x Hx. unfold entries. rewrite Hlookup. simpl.
  apply elem_of_app. by left.
Qed.

(** C2, amended. Let the stream of [A..C] be the stream of [B..C] followed
    by the stream of [A..B] ([git log] prints the newest commit first), no
    key [(atom, status)] occurring in both.  Then [update] on [A..C] and
    [update] on [B..C] applied to the result of [update] on [A..B], both
    starting from no data, return dictionaries with the same categories,
    packages and statuses whose lists hold the same tuples, up to the order
    of the tuples within each list: under every category, package and
    status the direct update lists the tuples of [B..C] before those of
    [A..B], the incremental one lists them after those of [A..B]. *)
Theorem update_disjoint_ranges_same_up_to_order :
  ∀ (AM : AtomModel) (repo : ParsedGitRepo) (rAB rBC rAC : string) (local : bool)
    (ysAB ysBC : list Yield),
    parse_git_log (git_log repo rAB) true local = Ok ysAB →
    parse_git_log (git_log repo rBC) true local = Ok ysBC →
    parse_git_log (git_log repo rAC) true local = Ok (ysBC ++ ysAB) →
    disjoint_keys (pkg_changes ysAB) (pkg_changes ysBC) →
    ∃ dAC dAB dABC : Data,
      update repo rAC None local = Ok dAC
      ∧ update repo rAB None local = Ok dAB
      ∧ update repo rBC (Some dAB) local = Ok dABC
      ∧ same_up_to_order dAC dABC
      ∧ ∀ c p s,
          entries dAC c p s
          = appended local c p s (first_occurrences (pkg_changes ysBC))
            ++ appended local c p s (first_occurrences (pkg_changes ysAB))
          ∧ entries dABC c p s
            = appended local c p s (first_occurrences (pkg_changes ysAB))
              ++ appended local c p s (first_occurrences (pkg_changes ysBC)).
Proof.
  intros AM repo rAB rBC rAC local ysAB ysBC HAB HBC HAC Hdisj.
  assert (Hfirst : first_occurrences (pkg_changes (ysBC ++ ysAB))
                   = first_occurrences (pkg_changes ysBC)
                     ++ first_occurrences (pkg_changes ysAB)).
  { unfold pkg_changes. rewrite omap_app. apply first_occurrences_app_disjoint.
    intros e1 e2 H1 H2 Heq. by apply (Hdisj e2 e1). }
  eexists _, _, _.
  split; [by apply update_Ok|]. split; [by apply update_Ok|].
  split; [by apply update_Ok|]. cbn [from_option id]. rewrite Hfirst. split.
  - rewrite <- foldl_app. apply foldl_record_Permutation, Permutation_app_comm.
  - intros c p s. rewrite !entries_foldl. split; [|reflexivity].
    unfold appended. by rewrite filter_app, fmap_app.
Qed.

(** *** On the sample history *)

Lemma update_keeps_first_occurrence_only_witness :
  length (with_key (foo "1" : Atom, "M") (pkg_changes ys_AD)) = 2
  ∧ ∃ d' : Data,
      update history_repo "A..D" None false = Ok d'
      ∧ (∀ c p s,
           lookup_status d' c p s
           = append_opt (lookup_status (default ∅ None) c p s)
               (appended false c p s (first_occurrences (pkg_changes ys_AD))))
      ∧ with_key (foo "1" : Atom, "M") (first_occurrences (pkg_changes ys_AD)) = [foo_1_c3]
      ∧ entries d' (category (foo "1" : Atom)) (package (foo "1" : Atom)) "M"
        = entries (default ∅ None) (category (foo "1" : Atom)) (package (foo "1" : Atom)) "M"
          ++ appended false (category (foo "1" : Atom)) (package (foo "1" : Atom)) "M"
               (first_occurrences (pkg_changes ys_AD))
      ∧ commit_entry false
          <$> with_key (foo "1" : Atom, "M") (first_occurrences (pkg_changes ys_AD))
        = [commit_entry false foo_1_c3].
Proof.
  split; [reflexivity|].
  apply (update_keeps_first_occurrence_only SampleAtoms.model history_repo "A..D"
           None false ys_AD (foo "1") "M" foo_1_c3); reflexivity.
Defined.

Lemma update_only_appends_witness :
  ∃ d' : Data,
    update history_repo "B..C" (Some data_AB) false = Ok d'
    ∧ ∀ c p s l,
        lookup_status data_AB c p s = Some l →
        ∃ l', lookup_status d' c p s = Some (l ++ l')
              ∧ ∀ x, x ∈ l → x ∈ entries d' c p s.
Proof.
  apply (update_only_appends SampleAtoms.model history_repo "B..C" data_AB false ys_BC).
  reflexivity.
Defined.

Lemma sample_keys_AB : key <$> pkg_changes ys_AB = [(foo "1" : Atom, "M")].
Proof. reflexivity. Qed.
Lemma sample_keys_BC : key <$> pkg_changes ys_BC = [(foo "2" : Atom, "M")].
Proof. reflexivity. Qed.

Lemma sample_disjoint_keys : disjoint_keys (pkg_changes ys_AB) (pkg_changes ys_BC).
Proof.
  intros e1 e2 H1 H2 Heq.
  apply (list_elem_of_fmap_2 key) in H1, H2.
  rewrite sample_keys_AB in H1. rewrite sample_keys_BC in H2.
  apply list_elem_of_singleton in H1, H2.
  rewrite H1, H2 in Heq. discriminate Heq.
Defined.

Lemma update_disjoint_ranges_same_up_to_order_witness :
  ∃ dAC dAB dABC : Data,
    update history_repo "A..C" None false = Ok dAC
    ∧ update history_repo "A..B" None false = Ok dAB
    ∧ update history_repo "B..C" (Some dAB) false = Ok dABC
    ∧ same_up_to_order dAC dABC
    ∧ ∀ c p s,
        entries dAC c p s
        = appended false c p s (first_occurrences (pkg_changes ys_BC))
          ++ appended false c p s (first_occurrences (pkg_changes ys_AB))
        ∧ entries dABC c p s
          = appended false c p s (first_occurrences (pkg_changes ys_AB))
            ++ appended false c p s (first_occurrences (pkg_changes ys_BC)).
Proof.
  apply (update_disjoint_ranges_same_up_to_order SampleAtoms.model history_repo
           "A..B" "B..C" "A..C" false ys_AB ys_BC);
    [reflexivity | reflexivity | reflexivity
    | exact sample_disjoint_keys].
Defined.

(** C2 as stated fails: the two updates of the sample history, whose ranges
    [A..B] and [B..C] share no key, return different dictionaries, since the
    list of [app-misc/foo] under [M] has its two tuples in opposite orders. *)
Lemma update_disjoint_ranges_differ :
  parse_git_log (git_log history_repo "A..B") true false = Ok ys_AB
  ∧ parse_git_log (git_log history_repo "B..C") true false = Ok ys_BC
  ∧ parse_git_log (git_log history_repo "A..C") true false = Ok (ys_BC ++ ys_AB)
  ∧ key <$> pkg_changes ys_AB = [(foo "1" : Atom, "M")]
  ∧ key <$> pkg_changes ys_BC = [(foo "2" : Atom, "M")]
  ∧ update history_repo "A..C" None false = Ok data_AC
  ∧ update history_repo "A..B" None false = Ok data_AB
  ∧ update history_repo "B..C" (Some data_AB) false = Ok data_AB_BC
  ∧ entries data_AC "app-misc" "foo" "M" = [entry_c2; entry_c1]
  ∧ entries data_AB_BC "app-misc" "foo" "M" = [entry_c1; entry_c2]
  ∧ data_AC ≠ data_AB_BC.
Proof.
  assert (H1 : entries data_AC "app-misc" "foo" "M" = [entry_c2; entry_c1])
    by reflexivity.
  assert (H2 : entries data_AB_BC "app-misc" "foo" "M" = [entry_c1; entry_c2])
    by reflexivity.
  repeat (split; [reflexivity|]).
  intros Heq. rewrite Heq, H2 in H1. discriminate H1.
Qed.

(** ** The history repositories *)

Section ViewFacts.
Context {AM : AtomModel}.
Implicit Types (d : Data) (cls : RepoClass).

Lemma elem_of_versions_get cls d cp st l :
  (st, l) ∈ versions_get cls d cp
  ↔ st ∈ _status_filter cls ∧ lookup_status d cp.1 cp.2 st = Some l.
Proof.
  unfold versions_get, _get_versions, lookup_status.
  destruct (lookup_pkg d cp.1 cp.2) as [sts|]; simpl.
  - rewrite list_elem_of_filter, elem_of_map_to_list. done.
  - split; [by intros ?%elem_of_nil | by intros [_ ?]].
Qed.

(** What a history repository yields: one pseudo-package for every tuple
    recorded under a status of its filter, whatever [sorter] does to the
    order. *)
Lemma elem_of_gen_candidates cls d sorter candidates pk :
  (∀ (A : Type) (l : list A), sorter A l ≡ₚ l) →
  pk ∈ _internal_gen_candidates cls d sorter candidates
  ↔ ∃ cat pkg st e,
      (cat, pkg) ∈ candidates ∧ st ∈ _status_filter cls
      ∧ e ∈ entries d cat pkg st ∧ pk = raw_pkg_cls cat pkg st e.
Proof.
  intros Hsort. unfold _internal_gen_candidates.
  rewrite list_elem_of_bind. setoid_rewrite Hsort.
  setoid_rewrite list_elem_of_bind. split.
  - intros ([cat pkg] & ([st l] & Hpk & Hsd) & Hcp).
    apply list_elem_of_bind in Hpk as (e & Hpk & He).
    apply list_elem_of_singleton in Hpk.
    apply elem_of_versions_get in Hsd as [Hst Hl]. simpl in *.
    exists cat, pkg, st, e. unfold entries. rewrite Hl. done.
  - intros (cat & pkg & st & e & Hcp & Hst & He & ->).
    unfold entries in He.
    destruct (lookup_status d cat pkg st) as [l|] eqn:Hl;
      [|by apply elem_of_nil in He].
    exists (cat, pkg). split; [|done].
    exists (st, l). split.
    + apply list_elem_of_bind. exists e. split; [|done].
      by apply list_elem_of_singleton.
    + by apply elem_of_versions_get.
Qed.

End ViewFacts.

(** C6, amended. The repository filtered to [{D}] yields a pseudo-package
    exactly for every tuple recorded under the status [D] of a candidate
    category and package, with the version, date and commit of the tuple;
    the tuples recorded for that version under other statuses do not
    matter. *)
Theorem GitRemovedRepo_yields_recorded_deletions :
  ∀ (AM : AtomModel) (d : Data) (sorter : ∀ A : Type, list A → list A)
    (candidates : list (string * string)) (pk : _GitCommitPkg),
    (∀ (A : Type) (l : list A), sorter A l ≡ₚ l) →
    pk ∈ _internal_gen_candidates GitRemovedRepo d sorter candidates
    ↔ ∃ cat pkg e,
        (cat, pkg) ∈ candidates ∧ e ∈ entries d cat pkg "D"
        ∧ pk = raw_pkg_cls cat pkg "D" e.
Proof.
  intros AM d sorter candidates pk Hsort.
  rewrite elem_of_gen_candidates by done. split.
  - intros (cat & pkg & st & e & Hcp & Hst & He & ->).
    simpl in Hst. apply elem_of_singleton in Hst as ->. by exists cat, pkg, e.
  - intros (cat & pkg & e & Hcp & He & ->).
    exists cat, pkg, "D", e. split_and!; [done | | done | done].
    simpl. by apply elem_of_singleton.
Qed.

Lemma GitRemovedRepo_yields_recorded_deletions_witness :
  raw_pkg_cls "app-misc" "foo" "D" entry_c4
  ∈ _internal_gen_candidates GitRemovedRepo data_XZ (fun _ l => l) [("app-misc", "foo")]
  ↔ ∃ cat pkg e,
      (cat, pkg) ∈ [("app-misc", "foo")] ∧ e ∈ entries data_XZ cat pkg "D"
      ∧ raw_pkg_cls "app-misc" "foo" "D" entry_c4 = raw_pkg_cls cat pkg "D" e.
Proof.
  apply (GitRemovedRepo_yields_recorded_deletions SampleAtoms.model data_XZ
           (fun _ l => l) [("app-misc", "foo")]).
  intros A l. reflexivity.
Defined.

(** C6 as stated fails: in the cache the two updates of this history build,
    the most recently recorded status of version 3 is [A] and not [D], and
    the repository filtered to [{D}] yields a pseudo-package for version 3. *)
Lemma GitRemovedRepo_yields_readded_version :
  update readded_repo "X..Y" None false = Ok data_XY
  ∧ update readded_repo "Y..Z" (Some data_XY) false = Ok data_XZ
  ∧ _internal_gen_candidates GitRemovedRepo data_XZ (fun _ l => l) [("app-misc", "foo")]
    = [{| cpv_category := "app-misc"; cpv_package := "foo"; cpv_version := "3";
          pkg_status := "D"; pkg_date := "2020-01-15"; pkg_commit := inl "4444444";
          pkg_attrs := ∅ |}]
  ∧ most_recently_recorded_status data_XZ "app-misc" "foo" "3" "A"
  ∧ ¬ most_recently_recorded_status data_XZ "app-misc" "foo" "3" "D".
Proof.
  assert (HD : entries data_XZ "app-misc" "foo" "D" = [entry_c4]) by reflexivity.
  assert (HA : entries data_XZ "app-misc" "foo" "A" = [entry_c5]) by reflexivity.
  split_and!; [reflexivity | reflexivity | reflexivity | |].
  - exists entry_c5. rewrite HA. split_and!; [by left | done |].
    intros st' e' He' Hv.
    destruct (decide (st' = "A")) as [-> | HnA].
    { rewrite HA in He'. apply list_elem_of_singleton in He' as ->. done. }
    destruct (decide (st' = "D")) as [-> | HnD].
    { rewrite HD in He'. apply list_elem_of_singleton in He' as ->. done. }
    exfalso. revert He'. unfold entries, lookup_status, lookup_pkg, data_XZ.
    rewrite lookup_singleton_eq. simpl. rewrite lookup_singleton_eq. simpl.
    rewrite lookup_insert_ne by done. rewrite lookup_singleton_ne by done.
    apply not_elem_of_nil.
  - intros (e & He & _ & Hmax).
    rewrite HD in He. apply list_elem_of_singleton in He as ->.
    specialize (Hmax "A" entry_c5). rewrite HA in Hmax.
    apply Hmax; [by left | done].
Qed.

(** ** The cache on disk *)

Section UpdateCacheFacts.
Import GitAddon.
Context {AM : AtomModel}.
Variable cache_file : Repo → string.
Variable dump_error : string → option string.

Lemma get_commit_hash_ok (repo : Repo) (st : State) t :
  returncode (rev_parse repo "origin/HEAD") = 0%Z →
  _get_commit_hash repo "origin/HEAD" st t
  = (st, t ++ [Run ["git"; "rev-parse"; "origin/HEAD"]], Return (Some (head_commit repo))).
Proof.
  intros Hrc. unfold _get_commit_hash, bind, subprocess_run, emit, ret. simpl.
  rewrite Hrc. by rewrite bool_decide_false by (intros ?; done).
Qed.

Lemma run_update_full repo ys (st : State) t :
  parse_git_log (git_log (parsed_git_repo repo) "origin/HEAD") true false = Ok ys →
  run_update repo "origin/HEAD" ∅ st t
  = (st, t, Return (foldl (record false) ∅ (first_occurrences (pkg_changes ys)))).
Proof.
  intros Hparse. unfold run_update.
  by rewrite (update_Ok _ _ (Some (∅ : Data)) false ys Hparse).
Qed.

(** The loop body after the cache file was found absent, stale or
    unreadable: state [st] and trace [t] are those after loading. *)
Lemma update_cache_repo_rebuild repo ys st0 t0 st t (force : bool) :
  returncode (rev_parse repo "origin/HEAD") = 0%Z →
  parse_git_log (git_log (parsed_git_repo repo) "origin/HEAD") true false = Ok ys →
  (if force then ret (S := State) None else load_cache (cache_file repo))
    st0 (t0 ++ [Run ["git"; "rev-parse"; "origin/HEAD"]])
  = (st, t, Return None) →
  update_cache_repo cache_file dump_error force repo st0 t0 = rebuild cache_file dump_error repo ys st t.
Proof.
  intros Hrc Hparse Hload.
  unfold update_cache_repo, bind at 1. rewrite get_commit_hash_ok by done.
  unfold bind at 1. rewrite Hload.
  unfold bind at 1. unfold bind at 1. rewrite (run_update_full repo ys) by done.
  unfold ret at 1. unfold bind, get, put, rebuild, rebuilt_cache.
  destruct (dump_error (cache_file repo)); reflexivity.
Qed.

Lemma load_cache_stale path (stale : GitCache) (st : State) t :
  files st !! path = Some (Pickled stale) →
  gc_version stale ≠ cache_version →
  load_cache path st t
  = ({| files := delete path (files st); _cached_repos := _cached_repos st |},
     t ++ [OsRemove path], Return None).
Proof.
  intros Hfile Hver. unfold load_cache, bind at 1, get. rewrite Hfile.
  by rewrite bool_decide_true by done.
Qed.

Lemma load_cache_absent path (st : State) t :
  files st !! path = None → load_cache path st t = (st, t, Return None).
Proof. intros Hfile. unfold load_cache, bind, get. by rewrite Hfile. Qed.

End UpdateCacheFacts.

(** C5. Let the cache file of a repository hold a cache whose version is
    not the current one, [git rev-parse origin/HEAD] succeed and the parser
    be exhausted on the full history.  Then [update_cache] (not forced)
    removes the file before anything else is done with the cache, and ends
    exactly as it does when the file is absent: the cache it registers
    (and writes, unless dumping fails) is [update] of the range
    [origin/HEAD] on empty data, in which the stale cache takes no part:
    every tuple of it is the tuple of an event of the full history. *)
Theorem update_cache_discards_stale_cache :
  ∀ (AM : AtomModel) (cache_file : Repo → string) (dump_error : string → option string)
    (repo : Repo) (st : GitAddon.State) (t0 : list Event)
    (stale : GitAddon.GitCache) (ys : list Yield),
    returncode (rev_parse repo "origin/HEAD") = 0%Z →
    GitAddon.files st !! cache_file repo = Some (GitAddon.Pickled stale) →
    GitAddon.gc_version stale ≠ GitAddon.cache_version →
    parse_git_log (git_log (parsed_git_repo repo) "origin/HEAD") true false = Ok ys →
    let t1 := t0 ++ [Run ["git"; "rev-parse"; "origin/HEAD"]] in
    update (parsed_git_repo repo) "origin/HEAD" (Some ∅) false
    = Ok (GitAddon.gc_data (rebuilt_cache repo ys))
    ∧ GitAddon.update_cache cache_file dump_error true false [repo] st t0
      = rebuild cache_file dump_error repo ys
          (without_cache_file (cache_file repo) st)
          (t1 ++ [OsRemove (cache_file repo)])
    ∧ GitAddon.update_cache cache_file dump_error true false [repo]
        (without_cache_file (cache_file repo) st) t0
      = rebuild cache_file dump_error repo ys
          (without_cache_file (cache_file repo) st) t1
    ∧ ∀ c p s x,
        x ∈ entries (GitAddon.gc_data (rebuilt_cache repo ys)) c p s →
        ∃ e, e ∈ pkg_changes ys ∧ in_slot c p s e ∧ x = commit_entry false e.
Proof.
  intros AM cache_file dump_error repo st t0 stale ys Hrc Hfile Hver Hparse t1.
  split; [by apply update_Ok|].
  assert (Hone : ∀ s t,
    GitAddon.update_cache cache_file dump_error true false [repo] s t
    = GitAddon.update_cache_repo cache_file dump_error false repo s t).
  { intros s t. unfold GitAddon.update_cache. simpl. unfold bind, ret.
    by destruct (GitAddon.update_cache_repo _ _ _ _ s t) as [[s' t'] [[]| |]]. }
  rewrite !Hone. split_and!.
  - apply update_cache_repo_rebuild; [done | done |].
    by apply load_cache_stale with stale.
  - apply update_cache_repo_rebuild; [done | done |].
    apply load_cache_absent. simpl. apply lookup_delete_eq.
  - intros c p s x Hx.
    apply elem_of_entries_foldl_empty in Hx as (e & He & Hslot & ->).
    exists e. split; [by apply elem_of_first_occurrences | done].
Qed.

Lemma update_cache_discards_stale_cache_witness :
  update (parsed_git_repo cached_repo) "origin/HEAD" (Some ∅) false
  = Ok (GitAddon.gc_data (rebuilt_cache cached_repo ys_full))
  ∧ GitAddon.update_cache pickle_path (fun _ => None) true false [cached_repo]
      stale_state []
    = rebuild pickle_path (fun _ => None) cached_repo ys_full
        (without_cache_file (pickle_path cached_repo) stale_state)
        (([] ++ [Run ["git"; "rev-parse"; "origin/HEAD"]])
         ++ [OsRemove (pickle_path cached_repo)])
  ∧ GitAddon.update_cache pickle_path (fun _ => None) true false [cached_repo]
      (without_cache_file (pickle_path cached_repo) stale_state) []
    = rebuild pickle_path (fun _ => None) cached_repo ys_full
        (without_cache_file (pickle_path cached_repo) stale_state)
        ([] ++ [Run ["git"; "rev-parse"; "origin/HEAD"]])
  ∧ ∀ c p s x,
      x ∈ entries (GitAddon.gc_data (rebuilt_cache cached_repo ys_full)) c p s →
      ∃ e, e ∈ pkg_changes ys_full ∧ in_slot c p s e ∧ x = commit_entry false e.
Proof.
  apply (update_cache_discards_stale_cache SampleAtoms.model pickle_path (fun _ => None)
           cached_repo stale_state [] stale_cache ys_full);
    [reflexivity | reflexivity | discriminate | reflexivity].
Defined.

(** The run on the stale cache file, spelled out: the file is removed, then
    the cache of the full history is registered and written. *)
Example update_cache_stale_run :
  GitAddon.update_cache pickle_path (fun _ => None) true false [cached_repo] stale_state []
  = ({| GitAddon.files :=
          {[pickle_path cached_repo :=
              GitAddon.Pickled {| GitAddon.gc_data := data_AC;
                                  GitAddon.gc_version := 4;
                                  GitAddon.gc_commit := "2222222" |}]};
        GitAddon._cached_repos :=
          {[location cached_repo :=
              {| GitAddon.gc_data := data_AC;
                 GitAddon.gc_version := 4;
                 GitAddon.gc_commit := "2222222" |}]} |},
     [Run ["git"; "rev-parse"; "origin/HEAD"];
      OsRemove (pickle_path cached_repo);
      AtomicWrite (pickle_path cached_repo)],
     Return tt).
Proof. reflexivity. Qed.

(** ** The log parser *)

(** *** Strings *)

Lemma append_nl_nonempty (s : string) : s +:+ nl ≠ EmptyString.
Proof. by destruct s. Qed.

Lemma append_nl_inj (s1 s2 : string) : s1 +:+ nl = s2 +:+ nl → s1 = s2.
Proof.
  revert s2. induction s1 as [|c s1 IH]; intros [|c2 s2] H; simpl in H.
  - done.
  - injection H as _ H. symmetry in H. by apply append_nl_nonempty in H.
  - injection H as _ H. by apply append_nl_nonempty in H.
  - injection H as -> H. f_equal. by apply IH.
Qed.

Lemma rstrip_append_nl (s : string) :
  has_newline s = false → PyStr.rstrip PyStr.is_newline (s +:+ nl) = s.
Proof.
  induction s as [|c s IH]; intros H; [done|].
  simpl in H. apply orb_false_iff in H as [Hc Hs].
  change (String c s +:+ nl) with (String c (s +:+ nl)).
  simpl. rewrite (IH Hs), Hc. by destruct s.
Qed.

Lemma accumulate_clean (l : string) : has_newline l = false → accumulate l = l.
Proof.
  intros H. unfold accumulate, PyStr.strip_nl, PyStr.strip_chars.
  destruct l as [|c l]; [done|].
  simpl in H. apply orb_false_iff in H as [Hc Hl].
  change (String c l +:+ nl) with (String c (l +:+ nl)).
  simpl PyStr.lstrip. rewrite Hc.
  apply (rstrip_append_nl (String c l)). simpl. by rewrite Hc, Hl.
Qed.

(** *** Well-formed logs *)

Section ParserFacts.
Context {AM : AtomModel}.
Variables pkgs local : bool.

Lemma yield_all_app (ys1 ys2 : list Yield) r :
  yield_all (ys1 ++ ys2) r = yield_all ys1 (yield_all ys2 r).
Proof. destruct r; simpl; [by rewrite app_assoc | done | done]. Qed.

Lemma drop_trailing_empty_expected (acc : list string) :
  drop_trailing_empty acc = expected_message acc.
Proof.
  unfold drop_trailing_empty, expected_message.
  destruct (last acc) as [[|c m]|]; done.
Qed.

Lemma read_changes_app next c changes rest :
  Forall (fun l => l ≠ BEGIN_COMMIT) changes →
  read_changes pkgs local next c (changes ++ rest)
  = yield_all (change_yields pkgs local c changes) (read_changes pkgs local next c rest).
Proof.
  induction 1 as [|l changes Hl _ IH]; simpl.
  - by destruct (read_changes pkgs local next c rest).
  - destruct (String.eqb_spec (l +:+ nl) (BEGIN_COMMIT +:+ nl)) as [Heq | _].
    { by apply append_nl_inj in Heq. }
    rewrite IH. unfold change_yields at 2. simpl.
    by rewrite yield_all_app.
Qed.

Lemma read_changes_begin next c rest :
  read_changes pkgs local next c (BEGIN_COMMIT :: rest) = next rest.
Proof. reflexivity. Qed.

Lemma read_message_app body msgs acc rest :
  Forall (fun l => has_newline l = false ∧ l ≠ END_MESSAGE_BODY) msgs →
  read_message body (msgs ++ END_MESSAGE_BODY :: rest) acc
  = match last (acc ++ msgs) with
    | None => IndexError
    | Some _ => body (drop_trailing_empty (acc ++ msgs)) rest
    end.
Proof.
  intros H. revert acc. induction H as [|l msgs [Hnl Hl] _ IH]; intros acc.
  - rewrite app_nil_r. reflexivity.
  - cbn [app read_message].
    change (PyStr.strip_nl (l +:+ nl)) with (accumulate l).
    rewrite accumulate_clean by done.
    destruct (String.eqb_spec l END_MESSAGE_BODY) as [Heq | _]; [done|].
    rewrite IH. by rewrite <- app_assoc.
Qed.

Lemma parse_commits_body b rest :
  wf_block b →
  parse_commits pkgs local (render_body b ++ rest)
  = yield_all (block_yields pkgs local b)
      (read_changes pkgs local (parse_commits pkgs local) (block_commit b) rest).
Proof.
  intros (Hne & Hmsg & Hch). unfold render_body.
  cbn [app parse_commits]. rewrite <- app_assoc. cbn [app].
  rewrite read_message_app by done. simpl.
  destruct (last (b_message b)) eqn:Hlast.
  - rewrite read_changes_app by done. rewrite drop_trailing_empty_expected.
    unfold block_yields. by rewrite yield_all_app.
  - by apply last_None in Hlast.
Qed.

(** A well-formed log is parsed block by block. *)
Lemma parse_commits_blocks b bs :
  wf_block b → Forall wf_block bs →
  parse_commits pkgs local (render_body b ++ render bs)
  = Ok (block_yields pkgs local b ++ (bs ≫= block_yields pkgs local)).
Proof.
  intros Hb Hbs. revert b Hb. induction Hbs as [|b' bs Hb' _ IH]; intros b Hb.
  - rewrite parse_commits_body by done. simpl. by rewrite app_nil_r.
  - rewrite parse_commits_body by done.
    change (render (b' :: bs)) with (BEGIN_COMMIT :: render_body b' ++ render bs).
    rewrite read_changes_begin, IH by done. reflexivity.
Qed.

Lemma parse_git_log_blocks (p : GitLogProcess) bs :
  stdout p = render bs →
  poll p = None ∨ poll p = Some 0%Z →
  Forall wf_block bs →
  parse_git_log p pkgs local = Ok (bs ≫= block_yields pkgs local).
Proof.
  intros Hout Hpoll Hbs. unfold parse_git_log. rewrite Hout.
  destruct Hbs as [|b bs Hb Hbs].
  - simpl. by destruct Hpoll as [-> | ->].
  - change (render (b :: bs)) with (BEGIN_COMMIT :: render_body b ++ render bs).
    cbn [readline].
    assert (Hline : PyStr.truthy (PyStr.strip (BEGIN_COMMIT +:+ nl)) = true) by reflexivity.
    rewrite Hline, parse_commits_blocks by done.
    by destruct Hpoll as [-> | ->].
Qed.

End ParserFacts.

Lemma change_yields_commits {AM : AtomModel} local c changes :
  change_yields false local c changes = [].
Proof. unfold change_yields. induction changes as [|l changes IH]; [done|]. exact IH. Qed.

(** The log of a range that is the log of [B..C] followed by the log of
    [A..B] yields what the first log yields followed by what the second
    yields. *)
Lemma parse_git_log_newest_first {AM : AtomModel} (pAB pBC pAC : GitLogProcess)
    pkgs local bsAB bsBC :
  stdout pAB = render bsAB → stdout pBC = render bsBC →
  stdout pAC = stdout pBC ++ stdout pAB →
  poll pAB = None ∨ poll pAB = Some 0%Z →
  poll pBC = None ∨ poll pBC = Some 0%Z →
  poll pAC = None ∨ poll pAC = Some 0%Z →
  Forall wf_block bsAB → Forall wf_block bsBC →
  ∃ ysAB ysBC,
    parse_git_log pAB pkgs local = Ok ysAB
    ∧ parse_git_log pBC pkgs local = Ok ysBC
    ∧ parse_git_log pAC pkgs local = Ok (ysBC ++ ysAB).
Proof.
  intros HAB HBC HAC ? ? ? HwAB HwBC.
  exists (bsAB ≫= block_yields pkgs local), (bsBC ≫= block_yields pkgs local).
  split; [by apply parse_git_log_blocks|].
  split; [by apply parse_git_log_blocks|].
  rewrite <- bind_app. apply parse_git_log_blocks; [|done|by apply Forall_app].
  rewrite HAC, HAB, HBC. unfold render. by rewrite bind_app.
Qed.

(** C7. For a well-formed log, the parser run for commits is exhausted and
    yields one commit per block of the log, in order, with the four metadata
    lines stripped; the message of a commit is the list of the lines between
    its metadata and the end sentinel, without its last line when that line
    is empty and unchanged otherwise. *)
Theorem parse_git_log_messages :
  ∀ (AM : AtomModel) (p : GitLogProcess) (local : bool) (bs : list CommitBlock),
    stdout p = render bs →
    poll p = None ∨ poll p = Some 0%Z →
    Forall wf_block bs →
    parse_git_log p false local = Ok (YCommit <$> (block_commit <$> bs))
    ∧ ∀ b, b ∈ bs →
        (last (b_message b) = Some EmptyString →
         message (block_commit b) = removelast (b_message b))
        ∧ (last (b_message b) ≠ Some EmptyString →
           message (block_commit b) = b_message b).
Proof.
  intros AM p local bs Hout Hpoll Hwf. split.
  - rewrite (parse_git_log_blocks false local p bs) by done. f_equal.
    clear. induction bs as [|b bs IH]; [done|].
    rewrite bind_cons, IH. unfold block_yields.
    by rewrite change_yields_commits.
  - intros b _. unfold block_commit, expected_message. simpl. split.
    + by intros ->.
    + intros Hlast. by destruct (last (b_message b)) as [[|c m]|].
Qed.

Lemma wf_block_of h date subject change :
  has_newline subject = false → subject ≠ END_MESSAGE_BODY → change ≠ BEGIN_COMMIT →
  wf_block (block_of h date subject change).
Proof.
  intros H1 H2 H3. split_and!.
  - done.
  - apply Forall_cons_2; [done|]. apply Forall_cons_2; [done|]. apply Forall_nil_2.
  - apply Forall_cons_2; [done|]. apply Forall_cons_2; [done|]. apply Forall_nil_2.
Qed.

Lemma parse_git_log_messages_witness :
  parse_git_log (AM := SampleAtoms.model) (git_log history_repo "A..C") false false
  = Ok (YCommit <$> (block_commit <$> [block_c2; block_c1]))
  ∧ ∀ b, b ∈ [block_c2; block_c1] →
      (last (b_message b) = Some EmptyString →
       message (block_commit b) = removelast (b_message b))
      ∧ (last (b_message b) ≠ Some EmptyString →
         message (block_commit b) = b_message b).
Proof.
  apply (parse_git_log_messages SampleAtoms.model (git_log history_repo "A..C") false
           [block_c2; block_c1]).
  - reflexivity.
  - by left.
  - apply Forall_cons_2; [by apply wf_block_of|].
    apply Forall_cons_2; [by apply wf_block_of|]. apply Forall_nil_2.
Defined.

(** * Further properties

    Properties of the rest of git.py: the change classifier on the other
    lines, the parser on every stream and on faulty streams, the error paths
    of the [--commits] action and of the stash context manager, and the
    other paths of [GitAddon]. *)

(** ** The change classifier *)

(** *** What a successful match has consumed *)

Lemma string_app_nil_r (s : string) : s +:+ EmptyString = s.
Proof. induction s as [|c s IH]; [done|]. rewrite app_String. by rewrite IH. Qed.

Lemma startswith_app (s rest : string) : PyStr.startswith s (s +:+ rest) = true.
Proof. induction s as [|c s IH]; [done|]. simpl. by rewrite Ascii.eqb_refl. Qed.

Lemma take_one c (rest : string) :
  PyStr.take (String.length (String c rest) - String.length rest) (String c rest)
  = String c EmptyString.
Proof. apply (take_app (String c EmptyString) rest). Qed.

Section GoInversion.
Variable input : string.
Implicit Types (r : Re.regex) (caps : Re.captures)
  (k : string → Re.captures → option Re.captures).

Lemma go_Bol caps k : Re.go input Re.Bol input caps k = k input caps.
Proof. cbn [Re.go]. by rewrite Nat.eqb_refl. Qed.

Lemma go_Cls p c rest caps k :
  p c = true → Re.go input (Re.Cls p) (String c rest) caps k = k rest caps.
Proof. intros H. cbn [Re.go]. by rewrite H. Qed.

Lemma go_Grp n r rest caps k :
  Re.go input (Re.Grp n r) rest caps k
  = Re.go input r rest caps (fun rest' caps' =>
      k rest' (<[n := PyStr.take (String.length rest - String.length rest') rest]> caps')).
Proof. reflexivity. Qed.

Lemma plus_greedy_inv p (k : string → option Re.captures) rest res :
  Re.plus_greedy p rest k = Some res →
  ∃ s rest', rest = s +:+ rest' ∧ s ≠ EmptyString ∧ all_chars p s = true
             ∧ k rest' = Some res.
Proof.
  induction rest as [|c rest IH]; [done|]. simpl.
  destruct (p c) eqn:Hc; [|done].
  destruct (Re.plus_greedy p rest k) as [r|] eqn:E.
  - intros [= ->]. destruct (IH eq_refl) as (s & rest' & -> & Hs & Hall & Hk).
    exists (String c s), rest'. split_and!; [done | done | | done].
    simpl. by rewrite Hc.
  - intros Hk. exists (String c EmptyString), rest.
    split_and!; [done | done | | done]. simpl. by rewrite Hc.
Qed.

Lemma go_Chr_inv c rest caps k res :
  Re.go input (Re.Chr c) rest caps k = Some res →
  ∃ rest', rest = String c rest' ∧ k rest' caps = Some res.
Proof.
  simpl. destruct rest as [|c' rest]; [done|].
  destruct (Ascii.eqb_spec c c') as [-> | _]; [|done]. eauto.
Qed.

Lemma go_Cls_inv p rest caps k res :
  Re.go input (Re.Cls p) rest caps k = Some res →
  ∃ c rest', rest = String c rest' ∧ p c = true ∧ k rest' caps = Some res.
Proof.
  simpl. destruct rest as [|c' rest]; [done|].
  destruct (p c') eqn:E; [|done]. eauto.
Qed.

Lemma go_lit_inv s rest caps k res :
  Re.go input (Re.lit s) rest caps k = Some res →
  ∃ rest', rest = s +:+ rest' ∧ k rest' caps = Some res.
Proof.
  revert rest caps k. induction s as [|c s IH]; intros rest caps k; [by eauto|].
  cbn [Re.lit]. rewrite go_Seq. intros (rest1 & -> & H)%go_Chr_inv.
  apply IH in H as (rest' & -> & H). eauto.
Qed.

Lemma go_Plus_inv p rest caps k res :
  Re.go input (Re.Plus p) rest caps k = Some res →
  ∃ s rest', rest = s +:+ rest' ∧ s ≠ EmptyString ∧ all_chars p s = true
             ∧ k rest' caps = Some res.
Proof. cbn [Re.go]. apply plus_greedy_inv. Qed.

Lemma go_Grp_Plus_inv n p rest caps k res :
  Re.go input (Re.Grp n (Re.Plus p)) rest caps k = Some res →
  ∃ s rest', rest = s +:+ rest' ∧ s ≠ EmptyString ∧ all_chars p s = true
             ∧ k rest' (<[n := s]> caps) = Some res.
Proof.
  cbn [Re.go]. intros (s & rest' & -> & Hs & Hall & Hk)%plus_greedy_inv.
  rewrite take_app in Hk. eauto 10.
Qed.

Lemma go_Alt_inv r1 r2 rest caps k res :
  Re.go input (Re.Alt r1 r2) rest caps k = Some res →
  Re.go input r1 rest caps k = Some res ∨ Re.go input r2 rest caps k = Some res.
Proof. rewrite go_Alt. destruct (Re.go input r1 rest caps k); auto. Qed.

Lemma go_Eol_inv rest caps k res :
  Re.go input Re.Eol rest caps k = Some res →
  (rest = EmptyString ∨ rest = nl) ∧ k rest caps = Some res.
Proof.
  destruct rest as [|c [|c' rest]]; simpl; [by auto | | ].
  - unfold PyStr.is_newline.
    destruct (Ascii.eqb_spec c PyStr.newline) as [-> | _]; [|done]. auto.
  - by destruct (PyStr.is_newline c).
Qed.

Lemma go_ebuild_inv g rest caps k res :
  Re.go input (_ebuild_regex g) rest caps k = Some res →
  ∃ cat dir pkg rest',
    rest = ebuild_path cat dir pkg +:+ rest'
    ∧ segment cat ∧ segment dir ∧ segment pkg
    ∧ k rest' (<[S g := pkg]> (<[g := cat]> caps)) = Some res.
Proof.
  unfold _ebuild_regex. rewrite go_Seq.
  intros (cat & r1 & -> & Hc1 & Hc2 & H)%go_Grp_Plus_inv.
  rewrite go_Seq in H. apply go_Chr_inv in H as (r2 & -> & H).
  rewrite go_Seq in H. apply go_Plus_inv in H as (dir & r3 & -> & Hd1 & Hd2 & H).
  rewrite go_Seq in H. apply go_Chr_inv in H as (r4 & -> & H).
  rewrite go_Seq in H. apply go_Grp_Plus_inv in H as (pkg & r5 & -> & Hp1 & Hp2 & H).
  apply go_lit_inv in H as (rest' & -> & H).
  exists cat, dir, pkg, rest'. split_and!; try done.
  unfold ebuild_path. rewrite !string_app_assoc. reflexivity.
Qed.

End GoInversion.

Lemma one_of_ADM st :
  Re.one_of "ADM" st = true → String st EmptyString ∈ ["A"; "D"; "M"; "R"].
Proof.
  unfold Re.one_of. simpl. rewrite !elem_of_cons.
  destruct (Ascii.eqb_spec st "A") as [-> | _]; [by auto|].
  destruct (Ascii.eqb_spec st "D") as [-> | _]; [by auto|].
  destruct (Ascii.eqb_spec st "M") as [-> | _]; [by auto|].
  done.
Qed.

(** *** The lines that give events *)

Section ClassifierFacts.
Context {AM : AtomModel}.

(** The lines the pattern matches, and the groups of the match. *)
Lemma git_log_regex_inv line m :
  Re.rmatch _git_log_regex line = Some m →
  (∃ st cat dir pkg rest,
      Re.one_of "ADM" st = true
      ∧ line = adm_line_of st (ebuild_path cat dir pkg) +:+ rest
      ∧ segment cat ∧ segment dir ∧ segment pkg
      ∧ Re.groups 8 m
        = [Some (String st EmptyString); Some cat; Some pkg; None; None; None; None; None])
  ∨ (∃ digits cat dir pkg cat2 dir2 pkg2 rest,
      line = rename_line_of digits (ebuild_path cat dir pkg) (ebuild_path cat2 dir2 pkg2)
             +:+ rest
      ∧ (rest = EmptyString ∨ rest = nl)
      ∧ digits ≠ EmptyString ∧ all_chars PyStr.is_digit digits = true
      ∧ segment cat ∧ segment dir ∧ segment pkg
      ∧ segment cat2 ∧ segment dir2 ∧ segment pkg2
      ∧ Re.groups 8 m
        = [None; None; None; Some "R"; Some cat; Some pkg; Some cat2; Some pkg2]).
Proof.
  unfold Re.rmatch, _git_log_regex. intros [H | H]%go_Alt_inv.
  - left. rewrite go_Seq, go_Bol, go_Seq, go_Grp in H.
    apply go_Cls_inv in H as (st & r1 & -> & Hst & H).
    rewrite take_one in H.
    rewrite go_Seq in H. apply go_Chr_inv in H as (r2 & -> & H).
    apply go_ebuild_inv in H as (cat & dir & pkg & rest & -> & Hc & Hd & Hp & H).
    injection H as <-.
    exists st, cat, dir, pkg, rest. split_and!; try done.
  - right. rewrite go_Seq, go_Grp in H.
    apply go_lit_inv in H as (r1 & -> & H). rewrite take_app in H.
    rewrite go_Seq in H. apply go_Plus_inv in H as (digits & r2 & -> & Hd1 & Hd2 & H).
    rewrite go_Seq in H. apply go_Chr_inv in H as (r3 & -> & H).
    rewrite go_Seq in H.
    apply go_ebuild_inv in H as (cat & dir & pkg & r4 & -> & Hc & Hd & Hp & H).
    rewrite go_Seq in H. apply go_Chr_inv in H as (r5 & -> & H).
    rewrite go_Seq in H.
    apply go_ebuild_inv in H as (cat2 & dir2 & pkg2 & rest & -> & Hc2 & Hdr2 & Hp2 & H).
    apply go_Eol_inv in H as [Hrest H]. injection H as <-.
    exists digits, cat, dir, pkg, cat2, dir2, pkg2, rest. split_and!; try done.
    unfold rename_line_of, tb. rewrite !string_app_assoc. reflexivity.
Qed.

(** Where every event of a line comes from. *)
Lemma pkg_changes_of_line_inv local c line e :
  e ∈ pkg_changes_of_line local c line →
  commit e = c
  ∧ ((∃ st cat dir pkg rest,
        Re.one_of "ADM" st = true
        ∧ line = adm_line_of st (ebuild_path cat dir pkg) +:+ rest
        ∧ segment cat ∧ segment dir ∧ segment pkg
        ∧ status e = String st EmptyString
        ∧ ebuild_atom cat pkg = Some (atom e) ∧ data e = ∅)
     ∨ (∃ digits cat dir pkg cat2 dir2 pkg2 rest,
        line = rename_line_of digits (ebuild_path cat dir pkg)
                 (ebuild_path cat2 dir2 pkg2) +:+ rest
        ∧ segment cat ∧ segment dir ∧ segment pkg
        ∧ segment cat2 ∧ segment dir2 ∧ segment pkg2
        ∧ status e = "R"
        ∧ ((ebuild_atom cat pkg = Some (atom e) ∧ data e = ∅)
           ∨ (local = true ∧ ebuild_atom cat2 pkg2 = Some (atom e)
              ∧ ∃ old_atom, ebuild_atom cat pkg = Some old_atom
                            ∧ data e = {["old_atom" := old_atom]})))).
Proof.
  unfold pkg_changes_of_line.
  destruct (Re.rmatch _git_log_regex line) as [m|] eqn:Hm; [|by intros ?%elem_of_nil].
  apply git_log_regex_inv in Hm
    as [(st & cat & dir & pkg & rest & Hst & -> & Hc & Hd & Hp & ->)
       | (digits & cat & dir & pkg & cat2 & dir2 & pkg2 & rest & -> & Hrest & Hd1 & Hd2
          & Hc & Hd & Hp & Hc2 & Hdr2 & Hp2 & ->)].
  - destruct (ebuild_atom cat pkg) as [a|] eqn:Ha; [|by intros ?%elem_of_nil].
    intros ->%list_elem_of_singleton. split; [done|]. left.
    exists st, cat, dir, pkg, rest. split_and!; done.
  - destruct (ebuild_atom cat pkg) as [old|] eqn:Ha; [|by intros ?%elem_of_nil].
    intros [-> | He]%elem_of_cons.
    + split; [done|]. right.
      exists digits, cat, dir, pkg, cat2, dir2, pkg2, rest.
      split_and!; try done. by left.
    + destruct local; [|by apply elem_of_nil in He].
      destruct (ebuild_atom cat2 pkg2) as [a|] eqn:Ha2; [|by apply elem_of_nil in He].
      apply list_elem_of_singleton in He as ->.
      split; [done|]. right.
      exists digits, cat, dir, pkg, cat2, dir2, pkg2, rest.
      split_and!; try done. right. split_and!; try done. by exists old.
Qed.

(** The pattern on a line of an added, deleted or modified ebuild. *)
Lemma adm_line_match st cat dir pkg :
  Re.one_of "ADM" st = true → segment cat → segment dir → segment pkg →
  ∃ m,
    Re.rmatch _git_log_regex (adm_line_of st (ebuild_path cat dir pkg)) = Some m
    ∧ Re.groups 8 m
      = [Some (String st EmptyString); Some cat; Some pkg; None; None; None; None; None].
Proof.
  intros Hst Hc Hd Hp.
  exists (<[3 := pkg]> (<[2 := cat]> (<[1 := String st EmptyString]> ∅))).
  split; [|reflexivity].
  unfold Re.rmatch, _git_log_regex, adm_line_of. rewrite go_Alt.
  set (first_alternative := Re.go _ (Re.Seq Re.Bol _) _ _ _).
  assert (H : first_alternative
              = Some (<[3 := pkg]> (<[2 := cat]> (<[1 := String st EmptyString]> ∅))));
    [|by rewrite H].
  unfold first_alternative.
  rewrite go_Seq, go_Bol, go_Seq, go_Grp, go_Cls, take_one by done.
  rewrite go_Seq, go_Chr_tab. unfold ebuild_path.
  apply (go_ebuild _ 2 cat dir pkg EmptyString EmptyString);
    [done | done | done | done | | reflexivity].
  repeat (split; [intros caps; reflexivity|]). done.
Qed.

End ClassifierFacts.

(** X1. A line [<A|D|M><TAB>category/directory/name.ebuild] whose atom
    [=category/name] is valid yields exactly one event, in local mode or
    not: that atom with the status letter of the line, the commit, and no
    extra data. *)
Theorem adm_line_event :
  ∀ (AM : AtomModel) (local : bool) (c : GitCommit) (st : ascii)
    (cat dir pkg : string) (a : Atom),
    Re.one_of "ADM" st = true →
    segment cat → segment dir → segment pkg →
    ebuild_atom cat pkg = Some a →
    pkg_changes_of_line local c (adm_line_of st (ebuild_path cat dir pkg))
    = [{| atom := a; status := String st EmptyString; commit := c; data := ∅ |}].
Proof.
  intros AM local c st cat dir pkg a Hst Hc Hd Hp Ha.
  destruct (adm_line_match st cat dir pkg) as (m & Hm & Hg); try done.
  unfold pkg_changes_of_line. by rewrite Hm, Hg, Ha.
Qed.

Lemma adm_line_event_witness :
  pkg_changes_of_line (AM := SampleAtoms.model) false sample_commit
    (adm_line_of "M" (ebuild_path "app-misc" "foo" "foo-1"))
  = [{| atom := foo "1"; status := "M"; commit := sample_commit; data := ∅ |}].
Proof.
  apply (adm_line_event SampleAtoms.model false sample_commit "M"
           "app-misc" "foo" "foo-1" (foo "1"));
    first [reflexivity | split; [discriminate | reflexivity]].
Defined.

(** X2. When the atom of the first path of a line is malformed
    ([MalformedAtom]), the line yields no event: neither an added, deleted
    or modified line, nor a rename line, whose new path is then not looked
    at, in local mode or not. *)
Theorem malformed_first_atom_gives_no_event :
  ∀ (AM : AtomModel) (local : bool) (c : GitCommit) (st : ascii)
    (digits cat dir pkg cat2 dir2 pkg2 : string),
    Re.one_of "ADM" st = true →
    digits ≠ EmptyString → all_chars PyStr.is_digit digits = true →
    segment cat → segment dir → segment pkg →
    segment cat2 → all_chars not_tab_slash cat2 = true →
    segment dir2 → segment pkg2 →
    ebuild_atom cat pkg = None →
    pkg_changes_of_line local c (adm_line_of st (ebuild_path cat dir pkg)) = []
    ∧ pkg_changes_of_line local c
        (rename_line_of digits (ebuild_path cat dir pkg) (ebuild_path cat2 dir2 pkg2))
      = [].
Proof.
  intros AM local c st digits cat dir pkg cat2 dir2 pkg2
    Hst Hd1 Hd2 Hc Hd Hp Hc2 Htab Hdr2 Hp2 Ha.
  split.
  - destruct (adm_line_match st cat dir pkg) as (m & Hm & Hg); try done.
    unfold pkg_changes_of_line. by rewrite Hm, Hg, Ha.
  - destruct (rename_line_of_match digits cat dir pkg cat2 dir2 pkg2) as (m & Hm & Hg);
      try done.
    unfold pkg_changes_of_line. by rewrite Hm, Hg, Ha.
Qed.

Lemma malformed_first_atom_gives_no_event_witness :
  pkg_changes_of_line (AM := SampleAtoms.model) true sample_commit
    (adm_line_of "A" (ebuild_path "app-misc" "foo" "foo")) = []
  ∧ pkg_changes_of_line (AM := SampleAtoms.model) true sample_commit
      (rename_line_of "100" (ebuild_path "app-misc" "foo" "foo")
         (ebuild_path "app-misc" "new" "new-1"))
    = [].
Proof.
  apply (malformed_first_atom_gives_no_event SampleAtoms.model true sample_commit "A"
           "100" "app-misc" "foo" "foo" "app-misc" "new" "new-1");
    first [reflexivity | split; [discriminate | reflexivity] | discriminate].
Defined.

(** X3. When the atom of the new path of a rename line is malformed and
    that of the old path is valid, the event of the old atom is kept: the
    line yields that one event, in local mode too. *)
Theorem rename_line_malformed_new_atom :
  ∀ (AM : AtomModel) (local : bool) (c : GitCommit)
    (digits cat dir pkg cat2 dir2 pkg2 : string) (old_atom : Atom),
    digits ≠ EmptyString → all_chars PyStr.is_digit digits = true →
    segment cat → segment dir → segment pkg →
    segment cat2 → all_chars not_tab_slash cat2 = true →
    segment dir2 → segment pkg2 →
    ebuild_atom cat pkg = Some old_atom →
    ebuild_atom cat2 pkg2 = None →
    pkg_changes_of_line local c
      (rename_line_of digits (ebuild_path cat dir pkg) (ebuild_path cat2 dir2 pkg2))
    = [{| atom := old_atom; status := "R"; commit := c; data := ∅ |}].
Proof.
  intros AM local c digits cat dir pkg cat2 dir2 pkg2 old_atom
    Hd1 Hd2 Hc Hd Hp Hc2 Htab Hdr2 Hp2 Hold Hnew.
  destruct (rename_line_of_match digits cat dir pkg cat2 dir2 pkg2) as (m & Hm & Hg);
    try done.
  unfold pkg_changes_of_line. rewrite Hm, Hg, Hold, Hnew. by destruct local.
Qed.

Lemma rename_line_malformed_new_atom_witness :
  pkg_changes_of_line (AM := SampleAtoms.model) true sample_commit
    (rename_line_of "100" (ebuild_path "app-misc" "old" "old-1")
       (ebuild_path "app-misc" "new" "new"))
  = [{| atom := old_1; status := "R"; commit := sample_commit; data := ∅ |}].
Proof.
  apply (rename_line_malformed_new_atom SampleAtoms.model true sample_commit
           "100" "app-misc" "old" "old-1" "app-misc" "new" "new" old_1);
    first [reflexivity | split; [discriminate | reflexivity] | discriminate].
Defined.

(** X4. Every event a line yields carries the commit being parsed and a
    status that is one of [A], [D], [M], [R] and is the start of the line;
    its extra data is empty, or it is the [old_atom] of a rename in local
    mode. *)
Theorem classified_event_status :
  ∀ (AM : AtomModel) (local : bool) (c : GitCommit) (line : string) (e : GitPkgChange),
    e ∈ pkg_changes_of_line local c line →
    commit e = c
    ∧ status e ∈ ["A"; "D"; "M"; "R"]
    ∧ PyStr.startswith (status e) line = true
    ∧ (data e = ∅
       ∨ (local = true ∧ status e = "R"
          ∧ ∃ old_atom : Atom, data e = {["old_atom" := old_atom]})).
Proof.
  intros AM local c line e He.
  apply pkg_changes_of_line_inv in He
    as [Hcommit [(st & cat & dir & pkg & rest & Hst & -> & _ & _ & _ & Hs & _ & Hdata)
               | (digits & cat & dir & pkg & cat2 & dir2 & pkg2 & rest & -> & _ & _ & _
                  & _ & _ & _ & Hs & Hdata)]].
  - split_and!; [done | | | by left].
    + rewrite Hs. by apply one_of_ADM.
    + rewrite Hs. unfold adm_line_of. simpl. by rewrite Ascii.eqb_refl.
  - split_and!; [done | | |].
    + rewrite Hs, !elem_of_cons. auto.
    + rewrite Hs. unfold rename_line_of. rewrite string_app_assoc. apply startswith_app.
    + destruct Hdata as [[_ Hdata] | (Hlocal & _ & old & _ & Hdata)]; [by left|].
      right. split_and!; [done | done | by exists old].
Qed.

Lemma classified_event_status_witness :
  commit new_1_local = sample_commit
  ∧ status new_1_local ∈ ["A"; "D"; "M"; "R"]
  ∧ PyStr.startswith (status new_1_local) rename_line = true
  ∧ (data new_1_local = ∅
     ∨ (true = true ∧ status new_1_local = "R"
        ∧ ∃ old_atom : SampleAtoms.t, data new_1_local = {["old_atom" := old_atom]})).
Proof.
  apply (classified_event_status SampleAtoms.model true sample_commit rename_line
           new_1_local).
  right. left.
Defined.

(** X5. Every event a line yields is the event of an ebuild path of the
    line: the line contains, after a tab, a path
    [category/directory/name.ebuild] of three segments, and the atom of the
    event is the atom [=category/name].  Lines without such a path yield
    nothing. *)
Theorem classified_event_path :
  ∀ (AM : AtomModel) (local : bool) (c : GitCommit) (line : string) (e : GitPkgChange),
    e ∈ pkg_changes_of_line local c line →
    ∃ pre cat dir pkg post : string,
      line = pre +:+ tb +:+ ebuild_path cat dir pkg +:+ post
      ∧ segment cat ∧ segment dir ∧ segment pkg
      ∧ ebuild_atom cat pkg = Some (atom e).
Proof.
  intros AM local c line e He.
  apply pkg_changes_of_line_inv in He
    as [_ [(st & cat & dir & pkg & rest & Hst & -> & Hc & Hd & Hp & _ & Ha & _)
          | (digits & cat & dir & pkg & cat2 & dir2 & pkg2 & rest & -> & Hc & Hd & Hp
             & Hc2 & Hdr2 & Hp2 & _ & Hdata)]].
  - exists (String st EmptyString), cat, dir, pkg, rest. split_and!; done.
  - destruct Hdata as [[Ha _] | (_ & Ha & _)].
    + exists ("R" +:+ digits), cat, dir, pkg, (tb +:+ ebuild_path cat2 dir2 pkg2 +:+ rest).
      split_and!; try done.
      unfold rename_line_of. by rewrite !string_app_assoc.
    + exists ("R" +:+ digits +:+ tb +:+ ebuild_path cat dir pkg), cat2, dir2, pkg2, rest.
      split_and!; try done.
      unfold rename_line_of. by rewrite !string_app_assoc.
Qed.

Lemma classified_event_path_witness :
  ∃ pre cat dir pkg post : string,
    rename_line = pre +:+ tb +:+ ebuild_path cat dir pkg +:+ post
    ∧ segment cat ∧ segment dir ∧ segment pkg
    ∧ ebuild_atom (AM := SampleAtoms.model) cat pkg = Some (atom new_1_local).
Proof.
  apply (classified_event_path SampleAtoms.model true sample_commit rename_line
           new_1_local).
  right. left.
Defined.

(** ** The log parser on every stream *)

Section ParserInvariants.
Context {AM : AtomModel}.
Variables pkgs local : bool.

Lemma yield_all_Ok ys r zs :
  yield_all ys r = Ok zs → ∃ ys', r = Ok ys' ∧ zs = ys ++ ys'.
Proof. destruct r; [|done..]. intros [= <-]. eauto. Qed.

Lemma one_kind_changes c line :
  one_kind pkgs (if pkgs && PyStr.truthy line
                 then YPkg <$> pkg_changes_of_line local c line else []).
Proof.
  unfold one_kind. destruct pkgs; simpl; [|by apply Forall_nil_2].
  destruct (PyStr.truthy line); [|by apply Forall_nil_2].
  apply Forall_fmap. by apply Forall_true.
Qed.

(** The loops keep the property when the loop that continues them does, on
    the shorter rest of the stream. *)
Lemma read_changes_one_kind next c f :
  (∀ f' ys, length f' < length f → next f' = Ok ys → one_kind pkgs ys) →
  ∀ ys, read_changes pkgs local next c f = Ok ys → one_kind pkgs ys.
Proof.
  induction f as [|l f IH]; intros Hnext ys; cbn [read_changes].
  - intros [= <-]. apply Forall_nil_2.
  - destruct (String.eqb _ _).
    + apply Hnext. simpl. lia.
    + intros (ys' & Hys' & ->)%yield_all_Ok. apply Forall_app_2.
      * apply one_kind_changes.
      * apply IH; [|done]. intros f' zs Hlen. apply Hnext. simpl. lia.
Qed.

Lemma read_message_one_kind body f msg :
  (∀ m f2 ys, length f2 < length f → body m f2 = Ok ys → one_kind pkgs ys) →
  ∀ ys, read_message body f msg = Ok ys → one_kind pkgs ys.
Proof.
  revert msg. induction f as [|l f IH]; intros msg Hbody ys; cbn [read_message]; [done|].
  destruct (String.eqb _ _).
  - destruct (last msg); [|done]. apply Hbody. simpl. lia.
  - apply IH. intros m f2 zs Hlen. apply Hbody. simpl. lia.
Qed.

Lemma parse_commits_one_kind f ys :
  parse_commits pkgs local f = Ok ys → one_kind pkgs ys.
Proof.
  remember (length f) as n eqn:Hn. revert f ys Hn.
  induction n as [n IH] using lt_wf_ind. intros f ys ->.
  destruct f as [|h [|d [|a [|c f1]]]]; [done..|].
  cbn [parse_commits]. apply read_message_one_kind.
  intros m f2 zs Hlen (ys' & Hys' & ->)%yield_all_Ok.
  apply Forall_app_2.
  - unfold one_kind. destruct pkgs; [apply Forall_nil_2|].
    apply Forall_cons_2; [done | apply Forall_nil_2].
  - revert Hys'. apply read_changes_one_kind.
    intros f' zs' Hlen'. apply (IH (length f')); [|done]. simpl. lia.
Qed.

Lemma parse_git_log_one_kind p ys :
  parse_git_log p pkgs local = Ok ys → one_kind pkgs ys.
Proof.
  unfold parse_git_log. destruct (readline (stdout p)) as [l f].
  assert (H : ∀ zs, (if PyStr.truthy (PyStr.strip l)
                     then parse_commits pkgs local f else Ok []) = Ok zs
                    → one_kind pkgs zs).
  { intros zs. destruct (PyStr.truthy _); [apply parse_commits_one_kind|].
    intros [= <-]. apply Forall_nil_2. }
  destruct (poll p) as [rc|]; [|apply H].
  destruct (bool_decide (rc ≠ 0%Z)); [|apply H].
  intros [= <-]. apply Forall_nil_2.
Qed.

(** *** Logs that start with well-formed blocks *)

Lemma parse_commits_blocks_then b bs tail :
  wf_block b → Forall wf_block bs →
  parse_commits pkgs local (render_body b ++ render bs ++ BEGIN_COMMIT :: tail)
  = yield_all (block_yields pkgs local b ++ (bs ≫= block_yields pkgs local))
      (parse_commits pkgs local tail).
Proof.
  intros Hb Hbs. revert b Hb. induction Hbs as [|b' bs Hb' Hbs IH]; intros b Hb.
  - rewrite parse_commits_body by done. cbn [render mbind list_bind app].
    rewrite read_changes_begin. by rewrite app_nil_r.
  - rewrite parse_commits_body by done.
    change (render (b' :: bs) ++ BEGIN_COMMIT :: tail)
      with (BEGIN_COMMIT :: (render_body b' ++ render bs) ++ BEGIN_COMMIT :: tail).
    rewrite read_changes_begin, <- app_assoc, IH by done.
    rewrite <- yield_all_app. by rewrite bind_cons.
Qed.

Lemma parse_git_log_blocks_then (p : GitLogProcess) bs tail :
  stdout p = render bs ++ BEGIN_COMMIT :: tail →
  poll p = None ∨ poll p = Some 0%Z →
  Forall wf_block bs →
  parse_git_log p pkgs local
  = yield_all (bs ≫= block_yields pkgs local) (parse_commits pkgs local tail).
Proof.
  intros Hout Hpoll Hwf. unfold parse_git_log. rewrite Hout.
  assert (Hline : PyStr.truthy (PyStr.strip (BEGIN_COMMIT +:+ nl)) = true) by reflexivity.
  destruct Hwf as [|b bs Hb Hbs].
  - cbn [render mbind list_bind app readline]. rewrite Hline.
    destruct (parse_commits pkgs local tail); simpl;
      by destruct Hpoll as [-> | ->].
  - change (render (b :: bs) ++ BEGIN_COMMIT :: tail)
      with (BEGIN_COMMIT :: (render_body b ++ render bs) ++ BEGIN_COMMIT :: tail).
    cbn [readline]. rewrite Hline, <- app_assoc, parse_commits_blocks_then by done.
    rewrite bind_cons. by destruct Hpoll as [-> | ->].
Qed.

(** The end sentinel right after the metadata: [message] is empty when
    [message[-1]] is read. *)
Lemma parse_commits_empty_message h d a c rest :
  parse_commits pkgs local (h :: d :: a :: c :: END_MESSAGE_BODY :: rest) = IndexError.
Proof. reflexivity. Qed.

Lemma read_message_no_end body f acc :
  Forall (fun l => accumulate l ≠ END_MESSAGE_BODY) f →
  read_message body f acc = Diverges.
Proof.
  intros Hf. revert acc. induction Hf as [|l f Hl Hf IH]; intros acc; [done|].
  cbn [read_message]. fold (accumulate l).
  destruct (String.eqb_spec (accumulate l) END_MESSAGE_BODY); [done|]. apply IH.
Qed.

Lemma parse_commits_no_end f :
  Forall (fun l => accumulate l ≠ END_MESSAGE_BODY) f →
  parse_commits pkgs local f = Diverges.
Proof.
  intros Hf. destruct f as [|h [|d [|a [|c f1]]]]; [done..|].
  cbn [parse_commits]. apply read_message_no_end.
  by do 4 apply Forall_cons in Hf as [_ Hf].
Qed.

End ParserInvariants.

(** X6. Whatever the stream is, a parser that is exhausted has yielded
    objects of one kind: package changes only when it was run with
    [pkgs=True], commits only when it was run with [pkgs=False]. *)
Theorem parse_git_log_yields_one_kind :
  ∀ (AM : AtomModel) (p : GitLogProcess) (pkgs local : bool) (ys : list Yield),
    parse_git_log p pkgs local = Ok ys →
    Forall (fun y => is_pkg_change y = pkgs) ys.
Proof. intros AM p pkgs local ys. apply parse_git_log_one_kind. Qed.

Lemma parse_git_log_yields_one_kind_witness :
  Forall (fun y => is_pkg_change (AM := SampleAtoms.model) y = true) ys_AD.
Proof.
  apply (parse_git_log_yields_one_kind SampleAtoms.model (git_log history_repo "A..D")
           true false ys_AD).
  reflexivity.
Defined.

(** X7. When, after well-formed commits, the log has a commit whose end
    sentinel follows the four metadata lines at once, the parser raises
    [IndexError] (on [message[-1]] of the empty message), with [pkgs] or
    without; so does [update], which returns no dictionary. *)
Theorem parse_git_log_empty_message_raises :
  ∀ (AM : AtomModel) (repo : ParsedGitRepo) (commit_range : string)
    (od : option Data) (pkgs local : bool)
    (bs : list CommitBlock) (h d a c : string) (rest : list string),
    stdout (git_log repo commit_range)
    = render bs ++ BEGIN_COMMIT :: h :: d :: a :: c :: END_MESSAGE_BODY :: rest →
    poll (git_log repo commit_range) = None ∨ poll (git_log repo commit_range) = Some 0%Z →
    Forall wf_block bs →
    parse_git_log (git_log repo commit_range) pkgs local = IndexError
    ∧ update repo commit_range od local = IndexError.
Proof.
  intros AM repo commit_range od pkgs local bs h d a c rest Hout Hpoll Hwf.
  assert (H : ∀ pkgs, parse_git_log (git_log repo commit_range) pkgs local = IndexError).
  { intros pkgs'. rewrite (parse_git_log_blocks_then pkgs' local _ bs _ Hout) by done.
    by rewrite parse_commits_empty_message. }
  split; [apply H|]. unfold update. by rewrite H.
Qed.

Lemma parse_git_log_empty_message_raises_witness :
  parse_git_log (AM := SampleAtoms.model) (git_log faulty_repo "E") true false = IndexError
  ∧ update (AM := SampleAtoms.model) faulty_repo "E" (Some data_AB) false = IndexError.
Proof.
  apply (parse_git_log_empty_message_raises SampleAtoms.model faulty_repo "E"
           (Some data_AB) true false [block_c2]
           "1111111" "2020-01-01" "A U Thor <author@example.org>"
           "C O Mitter <committer@example.org>"
           [""; "M" +:+ tb +:+ "app-misc/foo/foo-1.ebuild"]).
  - reflexivity.
  - by left.
  - apply Forall_cons_2; [|apply Forall_nil_2]. by apply wf_block_of.
Defined.

(** X8. When, after well-formed commits, the log ends inside a commit, no
    line after its begin sentinel being the end sentinel, the parser does
    not return: the message loop appends the empty string read at the end of
    the stream for ever.  Neither does [update]. *)
Theorem parse_git_log_truncated_never_returns :
  ∀ (AM : AtomModel) (repo : ParsedGitRepo) (commit_range : string)
    (od : option Data) (pkgs local : bool)
    (bs : list CommitBlock) (tail : list string),
    stdout (git_log repo commit_range) = render bs ++ BEGIN_COMMIT :: tail →
    poll (git_log repo commit_range) = None ∨ poll (git_log repo commit_range) = Some 0%Z →
    Forall wf_block bs →
    Forall (fun l => accumulate l ≠ END_MESSAGE_BODY) tail →
    parse_git_log (git_log repo commit_range) pkgs local = Diverges
    ∧ update repo commit_range od local = Diverges.
Proof.
  intros AM repo commit_range od pkgs local bs tail Hout Hpoll Hwf Htail.
  assert (H : ∀ pkgs, parse_git_log (git_log repo commit_range) pkgs local = Diverges).
  { intros pkgs'. rewrite (parse_git_log_blocks_then pkgs' local _ bs _ Hout) by done.
    by rewrite parse_commits_no_end. }
  split; [apply H|]. unfold update. by rewrite H.
Qed.

Lemma parse_git_log_truncated_never_returns_witness :
  parse_git_log (AM := SampleAtoms.model) (git_log faulty_repo "T") false false = Diverges
  ∧ update (AM := SampleAtoms.model) faulty_repo "T" None false = Diverges.
Proof.
  apply (parse_git_log_truncated_never_returns SampleAtoms.model faulty_repo "T"
           None false false [block_c2]
           ["1111111"; "2020-01-01"; "A U Thor <author@example.org>";
            "C O Mitter <committer@example.org>"; "app-misc/foo: fix 1"]).
  - reflexivity.
  - by left.
  - apply Forall_cons_2; [|apply Forall_nil_2]. by apply wf_block_of.
  - repeat (apply Forall_cons_2; [discriminate|]). apply Forall_nil_2.
Defined.

(** ** The cache merge and the history repositories *)

Section UpdateMore.
Context {AM : AtomModel}.
Implicit Types (d : Data) (e : GitPkgChange) (es : list GitPkgChange) (x : CommitEntry).

Lemma elem_of_appended local c p s rs x :
  x ∈ appended local c p s rs
  ↔ ∃ e, e ∈ rs ∧ in_slot c p s e ∧ x = commit_entry local e.
Proof.
  unfold appended. rewrite list_elem_of_fmap. split.
  - intros (e & -> & [Hslot He]%list_elem_of_filter). by exists e.
  - intros (e & He & Hslot & ->). exists e. split; [done|].
    by apply list_elem_of_filter.
Qed.

(** The kept events are the events that are the first with their key. *)
Lemma elem_of_first_occurrences_head e es :
  e ∈ first_occurrences es ↔ head (with_key (key e) es) = Some e.
Proof.
  assert (H : e ∈ first_occurrences es ↔ e ∈ with_key (key e) (first_occurrences es)).
  { unfold with_key. rewrite list_elem_of_filter. tauto. }
  rewrite H, first_occurrences_with_key.
  destruct (head (with_key (key e) es)) as [e'|]; simpl.
  - rewrite list_elem_of_singleton. split; [by intros -> | by intros [= ->]].
  - split; [by intros ?%elem_of_nil | done].
Qed.

Lemma pkg_status_raw_pkg_cls cat pkg st x : pkg_status (raw_pkg_cls cat pkg st x) = st.
Proof. by destruct x. Qed.

End UpdateMore.

(** X9. The set [seen] lives for one call: [update] on a range, applied to
    the dictionary [update] built from nothing on the same range, appends
    every tuple a second time, so every list of the result is the list of
    the first result twice. *)
Theorem update_again_duplicates :
  ∀ (AM : AtomModel) (repo : ParsedGitRepo) (commit_range : string) (local : bool)
    (ys : list Yield),
    parse_git_log (git_log repo commit_range) true local = Ok ys →
    ∃ d1 d2 : Data,
      update repo commit_range None local = Ok d1
      ∧ update repo commit_range (Some d1) local = Ok d2
      ∧ ∀ c p s, entries d2 c p s = entries d1 c p s ++ entries d1 c p s.
Proof.
  intros AM repo commit_range local ys Hparse. eexists _, _.
  split; [by apply update_Ok|]. split; [by apply update_Ok|].
  intros c p s. cbn [from_option id]. rewrite !entries_foldl. reflexivity.
Qed.

Lemma update_again_duplicates_witness :
  ∃ d1 d2 : Data,
    update history_repo "A..C" None false = Ok d1
    ∧ update history_repo "A..C" (Some d1) false = Ok d2
    ∧ ∀ c p s, entries d2 c p s = entries d1 c p s ++ entries d1 c p s.
Proof.
  apply (update_again_duplicates SampleAtoms.model history_repo "A..C" false
           (ys_BC ++ ys_AB)).
  reflexivity.
Defined.

(** X10. A history repository over the dictionary [update] builds from
    nothing yields exactly the pseudo-packages of the events of the log that
    are the first with their atom and status, whose status is in the filter
    of the class and whose category and package are candidates: the
    pseudo-package of an event has the category, package name and version of
    its atom, its status, and the date and commit of the event. *)
Theorem history_repo_of_update :
  ∀ (AM : AtomModel) (repo : ParsedGitRepo) (commit_range : string) (local : bool)
    (ys : list Yield) (cls : RepoClass) (sorter : ∀ A : Type, list A → list A)
    (candidates : list (string * string)),
    parse_git_log (git_log repo commit_range) true local = Ok ys →
    (∀ (A : Type) (l : list A), sorter A l ≡ₚ l) →
    ∃ d : Data,
      update repo commit_range None local = Ok d
      ∧ ∀ pk : _GitCommitPkg,
          pk ∈ _internal_gen_candidates cls d sorter candidates
          ↔ ∃ e : GitPkgChange,
              head (with_key (key e) (pkg_changes ys)) = Some e
              ∧ (category (atom e), package (atom e)) ∈ candidates
              ∧ status e ∈ _status_filter cls
              ∧ pk = raw_pkg_cls (category (atom e)) (package (atom e)) (status e)
                       (commit_entry local e).
Proof.
  intros AM repo commit_range local ys cls sorter candidates Hparse Hsort.
  eexists. split; [by apply update_Ok|]. intros pk. cbn [from_option id].
  rewrite elem_of_gen_candidates by done. split.
  - intros (cat & pkg & st & x & Hcp & Hst & Hx & ->).
    rewrite entries_foldl in Hx. change (entries ∅ cat pkg st) with (@nil CommitEntry) in Hx.
    cbn [app] in Hx.
    apply elem_of_appended in Hx as (e & He & (<- & <- & <-) & ->).
    exists e. split_and!; try done. by apply elem_of_first_occurrences_head.
  - intros (e & He & Hcp & Hst & ->).
    exists (category (atom e)), (package (atom e)), (status e), (commit_entry local e).
    split_and!; try done.
    rewrite entries_foldl. apply elem_of_app. right.
    apply elem_of_appended. exists e. split_and!; try done.
    by apply elem_of_first_occurrences_head.
Qed.

Lemma history_repo_of_update_witness :
  ∃ d : Data,
    update history_repo "A..D" None false = Ok d
    ∧ ∀ pk : _GitCommitPkg,
        pk ∈ _internal_gen_candidates GitModifiedRepo d (fun _ l => l) [("app-misc", "foo")]
        ↔ ∃ e : @GitPkgChange SampleAtoms.model,
            head (with_key (key e) (pkg_changes ys_AD)) = Some e
            ∧ (category (atom e), package (atom e)) ∈ [("app-misc", "foo")]
            ∧ status e ∈ _status_filter GitModifiedRepo
            ∧ pk = raw_pkg_cls (category (atom e)) (package (atom e)) (status e)
                     (commit_entry false e).
Proof.
  apply (history_repo_of_update SampleAtoms.model history_repo "A..D" false ys_AD
           GitModifiedRepo (fun _ l => l) [("app-misc", "foo")]).
  - reflexivity.
  - intros A l. reflexivity.
Defined.

(** X11. Over the same dictionary and candidates, [GitChangedRepo] yields
    what [GitModifiedRepo] yields together with what [GitRemovedRepo]
    yields; no pseudo-package is yielded by both of these; and what
    [GitAddedRepo] yields, [GitModifiedRepo] yields. *)
Theorem history_repos_partition :
  ∀ (AM : AtomModel) (d : Data) (sorter : ∀ A : Type, list A → list A)
    (candidates : list (string * string)) (pk : _GitCommitPkg),
    (∀ (A : Type) (l : list A), sorter A l ≡ₚ l) →
    (pk ∈ _internal_gen_candidates GitChangedRepo d sorter candidates
     ↔ pk ∈ _internal_gen_candidates GitModifiedRepo d sorter candidates
       ∨ pk ∈ _internal_gen_candidates GitRemovedRepo d sorter candidates)
    ∧ ¬ (pk ∈ _internal_gen_candidates GitModifiedRepo d sorter candidates
         ∧ pk ∈ _internal_gen_candidates GitRemovedRepo d sorter candidates)
    ∧ (pk ∈ _internal_gen_candidates GitAddedRepo d sorter candidates
       → pk ∈ _internal_gen_candidates GitModifiedRepo d sorter candidates).
Proof.
  intros AM d sorter candidates pk Hsort.
  rewrite !elem_of_gen_candidates by done. split_and!.
  - split.
    + intros (cat & pkg & st & x & Hcp & Hst & Hx & ->).
      cbn [_status_filter GitChangedRepo] in Hst.
      apply elem_of_union in Hst as [Hst | Hst].
      * left. by exists cat, pkg, st, x.
      * right. by exists cat, pkg, st, x.
    + intros [(cat & pkg & st & x & Hcp & Hst & Hx & ->)
             | (cat & pkg & st & x & Hcp & Hst & Hx & ->)];
        exists cat, pkg, st, x; (split_and!; [done | | done | done]);
        cbn [_status_filter GitChangedRepo]; apply elem_of_union; auto.
  - intros [(cat & pkg & st & x & Hcp & Hst & Hx & ->)
            (cat' & pkg' & st' & x' & Hcp' & Hst' & Hx' & Heq)].
    apply (f_equal pkg_status) in Heq. rewrite !pkg_status_raw_pkg_cls in Heq. subst st'.
    cbn [_status_filter GitModifiedRepo GitRemovedRepo] in Hst, Hst'.
    apply elem_of_singleton in Hst' as ->.
    revert Hst. rewrite !elem_of_union, !elem_of_singleton.
    intros [[? | ?] | ?]; discriminate.
  - intros (cat & pkg & st & x & Hcp & Hst & Hx & ->).
    exists cat, pkg, st, x. split_and!; [done | | done | done].
    cbn [_status_filter GitModifiedRepo GitAddedRepo] in *.
    apply elem_of_union. by left.
Qed.

Lemma history_repos_partition_witness :
  (raw_pkg_cls "app-misc" "foo" "D" entry_c4
   ∈ _internal_gen_candidates GitChangedRepo data_XZ (fun _ l => l) [("app-misc", "foo")]
   ↔ raw_pkg_cls "app-misc" "foo" "D" entry_c4
     ∈ _internal_gen_candidates GitModifiedRepo data_XZ (fun _ l => l) [("app-misc", "foo")]
     ∨ raw_pkg_cls "app-misc" "foo" "D" entry_c4
       ∈ _internal_gen_candidates GitRemovedRepo data_XZ (fun _ l => l)
           [("app-misc", "foo")])
  ∧ ¬ (raw_pkg_cls "app-misc" "foo" "D" entry_c4
       ∈ _internal_gen_candidates GitModifiedRepo data_XZ (fun _ l => l)
           [("app-misc", "foo")]
       ∧ raw_pkg_cls "app-misc" "foo" "D" entry_c4
         ∈ _internal_gen_candidates GitRemovedRepo data_XZ (fun _ l => l)
             [("app-misc", "foo")])
  ∧ (raw_pkg_cls "app-misc" "foo" "D" entry_c4
     ∈ _internal_gen_candidates GitAddedRepo data_XZ (fun _ l => l) [("app-misc", "foo")]
     → raw_pkg_cls "app-misc" "foo" "D" entry_c4
       ∈ _internal_gen_candidates GitModifiedRepo data_XZ (fun _ l => l)
           [("app-misc", "foo")]).
Proof.
  apply (history_repos_partition SampleAtoms.model data_XZ (fun _ l => l)
           [("app-misc", "foo")]).
  intros A l. reflexivity.
Defined.

(** ** The [--commits] action on its other paths *)

Section ScanCommitsPaths.
Import ScanCommits.
Context {AM : AtomModel}.
Variable git_checks : list string.
Variable sorted_atoms : list Atom → list Atom.

Lemma call_targets diff value namespace t0 :
  targets namespace ≠ [] →
  __call__ git_checks sorted_atoms diff value namespace t0
  = (namespace, t0 ++ [ParserError (mutually_exclusive_msg (targets namespace))],
     Raise (SystemExit 2)).
Proof.
  intros Ht. unfold __call__, bind, get. simpl.
  by rewrite bool_decide_true by done.
Qed.

(** The action without targets, by what [git diff] gives. *)
Lemma call_no_targets diff value namespace t0 :
  targets namespace = [] →
  __call__ git_checks sorted_atoms diff value namespace t0
  = match diff with
    | FileNotFound =>
        (with_ref git_checks namespace value,
         t0 ++ [Run (diff_cmd namespace value);
                ParserError "git not available to determine targets for --commits"],
         Raise (SystemExit 2))
    | Finished p =>
        if bool_decide (returncode p ≠ 0%Z) then
          match PyStr.splitlines (p_stderr p) with
          | l :: _ =>
              (with_ref git_checks namespace value,
               t0 ++ [Run (diff_cmd namespace value);
                      ParserError ("failed running git: " +:+ l)],
               Raise (SystemExit 2))
          | [] =>
              (with_ref git_checks namespace value,
               t0 ++ [Run (diff_cmd namespace value)], Raise IndexErr)
          end
        else if negb (PyStr.truthy (p_stdout p)) then
          (with_ref git_checks namespace value,
           t0 ++ [Run (diff_cmd namespace value); ParserExit], Raise (SystemExit 0))
        else
          let pkgs := sorted_atoms (_pkg_atoms (pkg_paths (p_stdout p))) in
          let eclasses := sorted (omap eclass_name (eclass_paths (p_stdout p))) in
          let rs :=
            (if bool_decide (pkgs ≠ []) then [package_scope pkgs] else [])
            ++ (if bool_decide (eclasses ≠ [])
                then [eclass_scope (list_to_set eclasses)] else []) in
          if bool_decide (rs = []) then
            (with_ref git_checks namespace value,
             t0 ++ [Run (diff_cmd namespace value); ParserExit], Raise (SystemExit 0))
          else
            (with_restrictions git_checks namespace value rs,
             t0 ++ [Run (diff_cmd namespace value)], Return tt)
    end.
Proof.
  intros Ht. unfold __call__, bind at 1, get. unfold bind at 1.
  rewrite Ht. rewrite bool_decide_false by (intros ?; done).
  unfold ret at 1. unfold bind at 1, put at 1. unfold bind at 1, emit at 1.
  fold (diff_cmd namespace value).
  destruct diff as [|p].
  - unfold bind at 1, parser_error, bind, emit, raise. unfold with_ref. rewrite Ht.
    by rewrite <- app_assoc.
  - unfold bind at 1.
    destruct (bool_decide (returncode p ≠ 0%Z)).
    + unfold first_line, parser_error, bind, emit, raise, with_ref. rewrite Ht.
      destruct (PyStr.splitlines (p_stderr p)); simpl; by rewrite <- ?app_assoc.
    + unfold ret at 1. unfold bind at 1.
      destruct (PyStr.truthy (p_stdout p)); cbn [negb].
      * unfold ret at 1. unfold pkg_paths, eclass_paths. unfold bind at 1.
        match goal with |- context [bool_decide (?r = [])] =>
          destruct (decide (r = [])) as [Hrs | Hrs] end.
        -- rewrite !bool_decide_true by done.
           unfold parser_exit, bind, emit, raise, with_ref. rewrite Ht.
           by rewrite <- app_assoc.
        -- rewrite !bool_decide_false by done.
           unfold ret, bind, get, put, with_restrictions.
           cbn [targets forced_checks commits target_repo contexts restrictions].
           by rewrite Ht.
      * unfold parser_exit, bind, emit, raise, with_ref. rewrite Ht.
        by rewrite <- app_assoc.
Qed.

End ScanCommitsPaths.

Lemma list_to_set_nonempty (l : list string) :
  l ≠ [] → (list_to_set l : gset string) ≠ ∅.
Proof.
  destruct l as [|x l]; [done|]. intros _ H.
  assert (Hx : x ∈ (list_to_set (x :: l) : gset string))
    by (apply elem_of_list_to_set; left).
  rewrite H in Hx. by apply not_elem_of_empty in Hx.
Qed.

(** X12. With targets on the command line, [__call__] reports that
    [--commits] is mutually exclusive with them, naming them ([target] or
    [targets]), and exits with status 2 before anything else: no git command
    is run and the namespace is left as it was. *)
Theorem ScanCommits_rejects_targets :
  ∀ (AM : AtomModel) (git_checks : list string) (sorted_atoms : list Atom → list Atom)
    (diff : ScanCommits.DiffRun) (value : option string)
    (namespace : ScanCommits.Namespace) (t0 : list Event),
    ScanCommits.targets namespace ≠ [] →
    ScanCommits.__call__ git_checks sorted_atoms diff value namespace t0
    = (namespace,
       t0 ++ [ParserError (mutually_exclusive_msg (ScanCommits.targets namespace))],
       Raise (SystemExit 2)).
Proof. intros. by apply call_targets. Qed.

Lemma ScanCommits_rejects_targets_witness :
  ScanCommits.__call__ ["GitCommitsCheck"] id (ScanCommits.Finished diff_changes) None
    targets_namespace []
  = (targets_namespace,
     [] ++ [ParserError
              (mutually_exclusive_msg (ScanCommits.targets targets_namespace))],
     Raise (SystemExit 2))
  ∧ mutually_exclusive_msg (ScanCommits.targets targets_namespace)
    = "--commits is mutually exclusive with targets: app-misc/foo dev-libs/bar".
Proof.
  split; [|reflexivity].
  apply (ScanCommits_rejects_targets SampleAtoms.model ["GitCommitsCheck"] id
           (ScanCommits.Finished diff_changes) None targets_namespace []).
  discriminate.
Defined.

(** X13. When git cannot be run ([FileNotFoundError]), [__call__] reports
    that git is not available and exits with status 2; the git checks were
    forced and the reference was stored before, and no restriction and no
    context manager is added. *)
Theorem ScanCommits_git_not_available :
  ∀ (AM : AtomModel) (git_checks : list string) (sorted_atoms : list Atom → list Atom)
    (value : option string) (namespace : ScanCommits.Namespace) (t0 : list Event),
    ScanCommits.targets namespace = [] →
    ScanCommits.__call__ git_checks sorted_atoms ScanCommits.FileNotFound value namespace t0
    = (with_ref git_checks namespace value,
       t0 ++ [Run (diff_cmd namespace value);
              ParserError "git not available to determine targets for --commits"],
       Raise (SystemExit 2)).
Proof. intros. by rewrite call_no_targets. Qed.

Lemma ScanCommits_git_not_available_witness :
  ScanCommits.__call__ ["GitCommitsCheck"] id ScanCommits.FileNotFound None
    sample_namespace []
  = (with_ref ["GitCommitsCheck"] sample_namespace None,
     [] ++ [Run (diff_cmd sample_namespace None);
            ParserError "git not available to determine targets for --commits"],
     Raise (SystemExit 2)).
Proof.
  apply (ScanCommits_git_not_available SampleAtoms.model ["GitCommitsCheck"] id None
           sample_namespace []).
  reflexivity.
Defined.

(** X14. When [git diff] exits with a non-zero status, [__call__] reports
    the first line git wrote to its standard error and exits with status 2;
    when git wrote nothing there, [IndexError] escapes instead (from
    [e.stderr.splitlines()[0]]). *)
Theorem ScanCommits_git_diff_failure :
  ∀ (AM : AtomModel) (git_checks : list string) (sorted_atoms : list Atom → list Atom)
    (p : CompletedProcess) (value : option string)
    (namespace : ScanCommits.Namespace) (t0 : list Event),
    ScanCommits.targets namespace = [] →
    returncode p ≠ 0%Z →
    ScanCommits.__call__ git_checks sorted_atoms (ScanCommits.Finished p) value namespace t0
    = match PyStr.splitlines (p_stderr p) with
      | l :: _ =>
          (with_ref git_checks namespace value,
           t0 ++ [Run (diff_cmd namespace value);
                  ParserError ("failed running git: " +:+ l)],
           Raise (SystemExit 2))
      | [] =>
          (with_ref git_checks namespace value,
           t0 ++ [Run (diff_cmd namespace value)], Raise IndexErr)
      end.
Proof. intros. rewrite call_no_targets by done. by rewrite bool_decide_true by done. Qed.

Lemma ScanCommits_git_diff_failure_witness :
  ScanCommits.__call__ ["GitCommitsCheck"] id (ScanCommits.Finished diff_bad_revision)
    None sample_namespace []
  = (with_ref ["GitCommitsCheck"] sample_namespace None,
     [] ++ [Run (diff_cmd sample_namespace None);
            ParserError "failed running git: fatal: bad revision 'origin'"],
     Raise (SystemExit 2)).
Proof.
  apply (ScanCommits_git_diff_failure SampleAtoms.model ["GitCommitsCheck"] id
           diff_bad_revision None sample_namespace []);
    [reflexivity | discriminate].
Defined.

(** X15. When [git diff] succeeds and no path it prints gives a package
    atom or an eclass name, [__call__] ends in [parser.exit()], that is
    [SystemExit(0)], as it does for an empty diff: no restriction and no
    context manager is added. *)
Theorem ScanCommits_no_usable_paths_exits_cleanly :
  ∀ (AM : AtomModel) (git_checks : list string) (sorted_atoms : list Atom → list Atom)
    (p : CompletedProcess) (value : option string)
    (namespace : ScanCommits.Namespace) (t0 : list Event),
    ScanCommits.targets namespace = [] →
    returncode p = 0%Z →
    sorted_atoms [] = [] →
    ScanCommits._pkg_atoms (pkg_paths (p_stdout p)) = [] →
    omap ScanCommits.eclass_name (eclass_paths (p_stdout p)) = [] →
    ScanCommits.__call__ git_checks sorted_atoms (ScanCommits.Finished p) value namespace t0
    = (with_ref git_checks namespace value,
       t0 ++ [Run (diff_cmd namespace value); ParserExit],
       Raise (SystemExit 0)).
Proof.
  intros AM git_checks sorted_atoms p value namespace t0 Ht Hrc Hs Hp He.
  rewrite call_no_targets by done.
  rewrite bool_decide_false by (intros ?; done).
  destruct (PyStr.truthy (p_stdout p)); [|done]. cbn [negb].
  cbv zeta. rewrite Hp, He, Hs.
  change (ScanCommits.sorted []) with (@nil string).
  rewrite (bool_decide_false (@nil Atom ≠ [])) by (intros H; by destruct H).
  rewrite (bool_decide_false (@nil string ≠ [])) by (intros H; by destruct H).
  cbn [app].
  by rewrite bool_decide_true by done.
Qed.

Lemma ScanCommits_no_usable_paths_exits_cleanly_witness :
  ScanCommits.__call__ ["GitCommitsCheck"] id (ScanCommits.Finished diff_readme)
    None sample_namespace []
  = (with_ref ["GitCommitsCheck"] sample_namespace None,
     [] ++ [Run (diff_cmd sample_namespace None); ParserExit],
     Raise (SystemExit 0)).
Proof.
  apply (ScanCommits_no_usable_paths_exits_cleanly SampleAtoms.model
           ["GitCommitsCheck"] id diff_readme None sample_namespace []);
    reflexivity.
Defined.

(** X16. [__call__] returns only when it has restrictions: then no target
    was given, [git diff] succeeded and printed something, it was the only
    command run, and the namespace has the git checks forced, the reference
    stored, one new [GitStash] among its context managers, and a list of
    restrictions that is not empty and has no restriction to no package or
    to no eclass. *)
Theorem ScanCommits_returns_only_with_restrictions :
  ∀ (AM : AtomModel) (git_checks : list string) (sorted_atoms : list Atom → list Atom)
    (diff : ScanCommits.DiffRun) (value : option string)
    (namespace namespace' : ScanCommits.Namespace) (t0 t' : list Event),
    ScanCommits.__call__ git_checks sorted_atoms diff value namespace t0
    = (namespace', t', Return tt) →
    ∃ (p : CompletedProcess) (rs : list ScanCommits.Restriction),
      diff = ScanCommits.Finished p
      ∧ returncode p = 0%Z ∧ p_stdout p ≠ EmptyString
      ∧ ScanCommits.targets namespace = []
      ∧ t' = t0 ++ [Run (diff_cmd namespace value)]
      ∧ namespace' = with_restrictions git_checks namespace value rs
      ∧ rs ≠ []
      ∧ Forall (fun r => ¬ empty_restriction r) rs.
Proof.
  intros AM git_checks sorted_atoms diff value namespace namespace' t0 t' H.
  destruct (decide (ScanCommits.targets namespace = [])) as [Ht | Ht];
    [|by rewrite call_targets in H].
  rewrite call_no_targets in H by done.
  destruct diff as [|p]; [done|].
  case_bool_decide as Hrc.
  { by destruct (PyStr.splitlines (p_stderr p)). }
  destruct (p_stdout p) as [|c0 out] eqn:Hout; [done|]. cbn [PyStr.truthy negb] in H.
  cbv zeta in H. case_bool_decide as Hrs; [done|].
  injection H as <- <-.
  eexists p, _. split_and!; try done.
  - by rewrite Hout.
  - clear Hrs. apply Forall_app_2.
    + case_bool_decide; [|apply Forall_nil_2].
      apply Forall_cons_2; [done | apply Forall_nil_2].
    + case_bool_decide; [|apply Forall_nil_2].
      apply Forall_cons_2; [|apply Forall_nil_2].
      simpl. by apply list_to_set_nonempty.
Qed.

Lemma ScanCommits_returns_only_with_restrictions_witness :
  ∃ (p : CompletedProcess) (rs : list (@ScanCommits.Restriction SampleAtoms.model)),
    ScanCommits.Finished diff_changes = ScanCommits.Finished p
    ∧ returncode p = 0%Z ∧ p_stdout p ≠ EmptyString
    ∧ ScanCommits.targets sample_namespace = []
    ∧ [Run (diff_cmd sample_namespace None)] = [] ++ [Run (diff_cmd sample_namespace None)]
    ∧ with_restrictions ["GitCommitsCheck"] sample_namespace None
        [@ScanCommits.package_scope SampleAtoms.model [foo_unversioned];
         ScanCommits.eclass_scope (list_to_set ["git-r3"])]
      = with_restrictions ["GitCommitsCheck"] sample_namespace None rs
    ∧ rs ≠ []
    ∧ Forall (fun r => ¬ empty_restriction r) rs.
Proof.
  apply (ScanCommits_returns_only_with_restrictions SampleAtoms.model
           ["GitCommitsCheck"] id (ScanCommits.Finished diff_changes) None
           sample_namespace
           (with_restrictions ["GitCommitsCheck"] sample_namespace None
              [@ScanCommits.package_scope SampleAtoms.model [foo_unversioned];
               ScanCommits.eclass_scope (list_to_set ["git-r3"])])
           [] [Run (diff_cmd sample_namespace None)]).
  reflexivity.
Defined.

(** *** Paths of the diff *)

Lemma rev_app_app (a b : string) : String.rev_app a b = String.rev a +:+ b.
Proof.
  unfold String.rev. revert b. induction a as [|c a IH]; intros b; [done|].
  simpl. rewrite IH, (IH (String c EmptyString)). by rewrite string_app_assoc.
Qed.

Lemma rev_String c (a : string) :
  String.rev (String c a) = String.rev a +:+ String c EmptyString.
Proof. unfold String.rev at 1. simpl. apply rev_app_app. Qed.

(** [str.split] on a text without the separator, and up to the first
    separator. *)
Lemma split_go_no_sep sep (m : nat) cur (s : string) :
  all_chars (fun c => negb (Ascii.eqb c sep)) s = true →
  PyStr.split_go sep m cur s = [String.rev cur +:+ s].
Proof.
  revert cur. induction s as [|c s IH]; intros cur Hs; simpl.
  - by rewrite string_app_nil_r.
  - simpl in Hs. apply andb_true_iff in Hs as [Hc Hs].
    destruct m as [|m].
    + f_equal. by rewrite rev_app_app.
    + apply negb_true_iff in Hc. rewrite Hc. rewrite IH by done.
      by rewrite rev_String, string_app_assoc.
Qed.

Lemma split_go_sep sep (m : nat) cur (s rest : string) :
  all_chars (fun c => negb (Ascii.eqb c sep)) s = true →
  PyStr.split_go sep (S m) cur (s +:+ String sep rest)
  = (String.rev cur +:+ s) :: PyStr.split_go sep m EmptyString rest.
Proof.
  revert cur. induction s as [|c s IH]; intros cur Hs.
  - rewrite app_empty. simpl. rewrite Ascii.eqb_refl. by rewrite string_app_nil_r.
  - simpl in Hs. apply andb_true_iff in Hs as [Hc Hs].
    rewrite app_String. simpl. apply negb_true_iff in Hc. rewrite Hc.
    rewrite IH by done. by rewrite rev_String, string_app_assoc.
Qed.

Lemma split_go_zero sep cur (s : string) :
  PyStr.split_go sep 0 cur s = [String.rev cur +:+ s].
Proof.
  destruct s; simpl; f_equal; [by rewrite string_app_nil_r | by rewrite rev_app_app].
Qed.

(** The components of a path below a package directory, and of the path of
    the directory. *)
Lemma split_path cat pkg rest :
  all_chars Re.not_slash cat = true → all_chars Re.not_slash pkg = true →
  PyStr.split PyStr.slash 2 (cat +:+ "/" +:+ pkg +:+ "/" +:+ rest) = [cat; pkg; rest].
Proof.
  intros Hc Hp. unfold PyStr.split.
  change ("/" +:+ pkg +:+ "/" +:+ rest) with (String PyStr.slash (pkg +:+ "/" +:+ rest)).
  rewrite split_go_sep by done.
  change ("/" +:+ rest) with (String PyStr.slash rest).
  rewrite split_go_sep by done. by rewrite split_go_zero.
Qed.

Lemma split_path_two cat pkg :
  all_chars Re.not_slash cat = true → all_chars Re.not_slash pkg = true →
  PyStr.split PyStr.slash 2 (cat +:+ "/" +:+ pkg) = [cat; pkg].
Proof.
  intros Hc Hp. unfold PyStr.split.
  change ("/" +:+ pkg) with (String PyStr.slash pkg).
  rewrite split_go_sep by done. by rewrite split_go_no_sep.
Qed.

(** X17. [_pkg_atoms] looks at the first two components of a path only: a
    path [category/package/...] gives the atom [category/package], as the
    path [category/package] does, and gives nothing when that atom is
    malformed. *)
Theorem pkg_atoms_of_paths :
  ∀ (AM : AtomModel) (cat pkg rest : string) (paths : list string),
    all_chars Re.not_slash cat = true →
    all_chars Re.not_slash pkg = true →
    ScanCommits._pkg_atoms ((cat +:+ "/" +:+ pkg +:+ "/" +:+ rest) :: paths)
    = option_list (atom_cls (cat +:+ "/" +:+ pkg)) ++ ScanCommits._pkg_atoms paths
    ∧ ScanCommits._pkg_atoms ((cat +:+ "/" +:+ pkg) :: paths)
      = option_list (atom_cls (cat +:+ "/" +:+ pkg)) ++ ScanCommits._pkg_atoms paths.
Proof.
  intros AM cat pkg rest paths Hc Hp. unfold ScanCommits._pkg_atoms.
  cbn [omap list_omap]. rewrite split_path, split_path_two by done.
  cbn [firstn PyStr.join].
  by destruct (atom_cls (cat +:+ "/" +:+ pkg)).
Qed.

Lemma pkg_atoms_of_paths_witness :
  ScanCommits._pkg_atoms (AM := SampleAtoms.model)
    (("app-misc" +:+ "/" +:+ "foo" +:+ "/" +:+ "files/foo-1.patch") :: [])
  = option_list (atom_cls ("app-misc" +:+ "/" +:+ "foo")) ++ ScanCommits._pkg_atoms []
  ∧ ScanCommits._pkg_atoms (AM := SampleAtoms.model) (("app-misc" +:+ "/" +:+ "foo") :: [])
    = option_list (atom_cls ("app-misc" +:+ "/" +:+ "foo")) ++ ScanCommits._pkg_atoms [].
Proof.
  apply (pkg_atoms_of_paths SampleAtoms.model "app-misc" "foo" "files/foo-1.patch" []);
    reflexivity.
Defined.

Lemma eclass_regex_match name rest :
  name ≠ EmptyString → all_chars Re.not_space name = true →
  rest = EmptyString ∨ rest = nl →
  ScanCommits.eclass_name ("eclass/" +:+ name +:+ ".eclass" +:+ rest) = Some name.
Proof.
  intros Hn1 Hn2 Hrest. unfold ScanCommits.eclass_name, Re.rmatch, ScanCommits.eclass_regex.
  assert (H : Re.go ("eclass/" +:+ name +:+ ".eclass" +:+ rest)
    (Re.Seq Re.Bol
       (Re.Seq (Re.lit "eclass/")
          (Re.Seq (Re.Grp 1 (Re.Plus Re.not_space)) (Re.Seq (Re.lit ".eclass") Re.Eol))))
    ("eclass/" +:+ name +:+ ".eclass" +:+ rest) ∅ (fun _ caps => Some caps)
    = Some (<[1 := name]> ∅)); [|by rewrite H].
  rewrite go_Seq, go_Bol, go_Seq, go_lit, go_Seq.
  apply (go_Grp_Plus _ 1 Re.not_space name ".eclass" rest); [done | done | | |].
  - by destruct Hrest as [-> | ->].
  - destruct Hrest as [-> | ->]; repeat (split; [intros caps; reflexivity|]); done.
  - rewrite go_Seq, go_lit. by destruct Hrest as [-> | ->].
Qed.

Lemma eclass_regex_inv x name :
  ScanCommits.eclass_name x = Some name →
  name ≠ EmptyString ∧ all_chars Re.not_space name = true
  ∧ ∃ rest, (rest = EmptyString ∨ rest = nl)
            ∧ x = "eclass/" +:+ name +:+ ".eclass" +:+ rest.
Proof.
  unfold ScanCommits.eclass_name, Re.rmatch, ScanCommits.eclass_regex.
  destruct (Re.go x _ x ∅ _) as [m|] eqn:H; [|done].
  change (Some m ≫= (fun m => m !! 1)) with (m !! 1).
  rewrite go_Seq, go_Bol, go_Seq in H.
  apply go_lit_inv in H as (r1 & -> & H).
  rewrite go_Seq in H. apply go_Grp_Plus_inv in H as (s & r2 & -> & Hs1 & Hs2 & H).
  rewrite go_Seq in H. apply go_lit_inv in H as (rest & -> & H).
  apply go_Eol_inv in H as [Hrest H]. injection H as <-.
  intros Hm. change (Some s = Some name) in Hm. injection Hm as <-.
  split_and!; [done | done |]. by exists rest.
Qed.

(** X18. The eclass pattern gives a name exactly for the paths
    [eclass/<name>.eclass] where the name is not empty and has no white
    space (a newline may follow the path): the name is what stands between
    [eclass/] and the last [.eclass]. *)
Theorem eclass_name_iff :
  ∀ (x name : string),
    ScanCommits.eclass_name x = Some name
    ↔ name ≠ EmptyString ∧ all_chars Re.not_space name = true
      ∧ ∃ rest, (rest = EmptyString ∨ rest = nl)
                ∧ x = "eclass/" +:+ name +:+ ".eclass" +:+ rest.
Proof.
  intros x name. split; [apply eclass_regex_inv|].
  intros (Hn1 & Hn2 & rest & Hrest & ->). by apply eclass_regex_match.
Qed.

(** ** The stash context manager when git stash fails *)

Section GitStashFailures.
Import GitStash.
Context {A : Type}.
Implicit Types (o : Oracle) (body : Scan A) (t : list Event).

Lemma enter_push_failed_report o t :
  returncode (ls_files o) = 0%Z → p_stdout (ls_files o) ≠ EmptyString →
  returncode (stash_push o) ≠ 0%Z →
  __enter__ o __init__ t
  = match PyStr.splitlines (p_stderr (stash_push o)) with
    | l :: _ =>
        (__init__,
         t ++ [Run ls_files_cmd; Run stash_push_cmd;
               ParserError ("git failed stashing files: " +:+ l)],
         Raise (SystemExit 2))
    | [] => (__init__, t ++ [Run ls_files_cmd; Run stash_push_cmd], Raise IndexErr)
    end.
Proof.
  intros H1 H2 H3. unfold __enter__, bind, subprocess_run, emit, ret, put. simpl.
  rewrite bool_decide_false by (intros ?; done).
  destruct (p_stdout (ls_files o)) eqn:E; [done|]. simpl.
  rewrite bool_decide_true by done.
  unfold first_line, parser_error, bind, emit, raise.
  destruct (PyStr.splitlines (p_stderr (stash_push o))); simpl;
    by rewrite <- ?app_assoc.
Qed.

Lemma exit_pop_failed_report o t :
  returncode (stash_pop o) ≠ 0%Z →
  __exit__ o {| _stashed := true |} t
  = match PyStr.splitlines (p_stderr (stash_pop o)) with
    | l :: _ =>
        ({| _stashed := true |},
         t ++ [Run stash_pop_cmd; ParserError ("git failed applying stash: " +:+ l)],
         Raise (SystemExit 2))
    | [] => ({| _stashed := true |}, t ++ [Run stash_pop_cmd], Raise IndexErr)
    end.
Proof.
  intros H. unfold __exit__, bind, get, subprocess_run, emit, ret. simpl.
  rewrite bool_decide_true by done.
  unfold first_line, parser_error, bind, emit, raise.
  destruct (PyStr.splitlines (p_stderr (stash_pop o))); simpl;
    by rewrite <- ?app_assoc.
Qed.

End GitStashFailures.

(** X19. When the tree is dirty and [git stash push] fails, [__enter__]
    reports the first line of git's standard error and exits with status 2
    ([IndexError] escapes when git wrote nothing there): the enclosed scan
    does not run, [git stash pop] is not run, and [_stashed] stays unset. *)
Theorem GitStash_push_failure_aborts :
  ∀ (A : Type) (o : GitStash.Oracle) (body : GitStash.Scan A) (t0 : list Event),
    returncode (GitStash.ls_files o) = 0%Z →
    p_stdout (GitStash.ls_files o) ≠ EmptyString →
    returncode (GitStash.stash_push o) ≠ 0%Z →
    GitStash.with_stmt o body GitStash.__init__ t0
    = match PyStr.splitlines (p_stderr (GitStash.stash_push o)) with
      | l :: _ =>
          (GitStash.__init__,
           t0 ++ [Run GitStash.ls_files_cmd; Run GitStash.stash_push_cmd;
                  ParserError ("git failed stashing files: " +:+ l)],
           Raise (SystemExit 2))
      | [] =>
          (GitStash.__init__,
           t0 ++ [Run GitStash.ls_files_cmd; Run GitStash.stash_push_cmd],
           Raise IndexErr)
      end.
Proof.
  intros A o body t0 H1 H2 H3. unfold GitStash.with_stmt.
  rewrite enter_push_failed_report by done.
  by destruct (PyStr.splitlines (p_stderr (GitStash.stash_push o))).
Qed.

Lemma GitStash_push_failure_aborts_witness :
  GitStash.with_stmt push_fails finished_scan GitStash.__init__ []
  = (GitStash.__init__,
     [] ++ [Run GitStash.ls_files_cmd; Run GitStash.stash_push_cmd;
            ParserError "git failed stashing files: error: could not write index"],
     Raise (SystemExit 2)).
Proof.
  apply (GitStash_push_failure_aborts nat push_fails finished_scan []);
    [reflexivity | discriminate | discriminate].
Defined.

(** X20. When the files were stashed and [git stash pop] fails, the
    statement ends with the error of [__exit__] whatever the outcome of the
    scan was, a value or an exception: the first line of git's standard
    error is reported with exit status 2 ([IndexError] when git wrote
    nothing there). *)
Theorem GitStash_pop_failure_replaces_outcome :
  ∀ (A : Type) (o : GitStash.Oracle) (body : GitStash.Scan A) (t0 : list Event),
    returncode (GitStash.ls_files o) = 0%Z →
    p_stdout (GitStash.ls_files o) ≠ EmptyString →
    returncode (GitStash.stash_push o) = 0%Z →
    returncode (GitStash.stash_pop o) ≠ 0%Z →
    GitStash.with_stmt o body GitStash.__init__ t0
    = match PyStr.splitlines (p_stderr (GitStash.stash_pop o)) with
      | l :: _ =>
          ({| GitStash._stashed := true |},
           (t0 ++ [Run GitStash.ls_files_cmd; Run GitStash.stash_push_cmd]
               ++ GitStash.scan_trace body)
           ++ [Run GitStash.stash_pop_cmd;
               ParserError ("git failed applying stash: " +:+ l)],
           Raise (SystemExit 2))
      | [] =>
          ({| GitStash._stashed := true |},
           (t0 ++ [Run GitStash.ls_files_cmd; Run GitStash.stash_push_cmd]
               ++ GitStash.scan_trace body)
           ++ [Run GitStash.stash_pop_cmd],
           Raise IndexErr)
      end.
Proof.
  intros A o body t0 H1 H2 H3 H4. unfold GitStash.with_stmt.
  rewrite enter_dirty_pushed by done. unfold GitStash.run_scan.
  rewrite exit_pop_failed_report by done.
  destruct (PyStr.splitlines (p_stderr (GitStash.stash_pop o)));
    by rewrite <- !app_assoc.
Qed.

Lemma GitStash_pop_failure_replaces_outcome_witness :
  GitStash.with_stmt pop_fails interrupted_scan GitStash.__init__ []
  = ({| GitStash._stashed := true |},
     ([] ++ [Run GitStash.ls_files_cmd; Run GitStash.stash_push_cmd]
         ++ GitStash.scan_trace interrupted_scan)
     ++ [Run GitStash.stash_pop_cmd;
         ParserError
           "git failed applying stash: error: could not restore untracked files from stash"],
     Raise (SystemExit 2)).
Proof.
  apply (GitStash_pop_failure_replaces_outcome unit pop_fails interrupted_scan []);
    [reflexivity | discriminate | reflexivity | discriminate].
Defined.

(** ** [GitAddon.update_cache] on its other paths *)

Section UpdateCachePaths.
Import GitAddon.
Context {AM : AtomModel}.
Variable cache_file : Repo → string.
Variable dump_error : string → option string.

Lemma update_cache_one force repo (st : State) t :
  update_cache cache_file dump_error true force [repo] st t
  = update_cache_repo cache_file dump_error force repo st t.
Proof.
  unfold update_cache. simpl. unfold bind, ret.
  by destruct (update_cache_repo _ _ _ _ st t) as [[s' t'] [[]| |]].
Qed.

Lemma update_cache_cons force repo repos (st : State) t :
  update_cache cache_file dump_error true force (repo :: repos) st t
  = match update_cache_repo cache_file dump_error force repo st t with
    | (st', t', Return _) => update_cache cache_file dump_error true force repos st' t'
    | (st', t', Raise e) => (st', t', Raise e)
    | (st', t', Hang) => (st', t', Hang)
    end.
Proof. reflexivity. Qed.

Lemma get_commit_hash_failed (repo : Repo) (st : State) t :
  returncode (rev_parse repo "origin/HEAD") ≠ 0%Z →
  _get_commit_hash repo "origin/HEAD" st t
  = (st, t ++ [rev_parse_cmd "origin/HEAD"], Return None).
Proof.
  intros Hrc. unfold _get_commit_hash, bind, subprocess_run, emit, ret. simpl.
  by rewrite bool_decide_true by done.
Qed.

Lemma update_cache_repo_no_head force repo (st : State) t :
  returncode (rev_parse repo "origin/HEAD") ≠ 0%Z →
  update_cache_repo cache_file dump_error force repo st t
  = (st, t ++ [rev_parse_cmd "origin/HEAD"], Return tt).
Proof.
  intros Hrc. unfold update_cache_repo, bind at 1.
  by rewrite get_commit_hash_failed by done.
Qed.

Lemma load_cache_valid path (gc : GitCache) (st : State) t :
  files st !! path = Some (Pickled gc) →
  gc_version gc = cache_version →
  load_cache path st t = (st, t, Return (Some gc)).
Proof.
  intros Hfile Hver. unfold load_cache, bind at 1, get. rewrite Hfile.
  by rewrite bool_decide_false by (intros ?; done).
Qed.

Lemma load_cache_unreadable path (st : State) t :
  files st !! path = Some Unreadable →
  load_cache path st t = (without_cache_file path st, t ++ [OsRemove path], Return None).
Proof. intros Hfile. unfold load_cache, bind at 1, get. by rewrite Hfile. Qed.

(** The loop body on a cache file of the current version: the cache of the
    commit of [origin/HEAD], and the cache of another commit. *)
Lemma update_cache_repo_current repo (gc : GitCache) (st : State) t :
  returncode (rev_parse repo "origin/HEAD") = 0%Z →
  files st !! cache_file repo = Some (Pickled gc) →
  gc_version gc = cache_version →
  gc_commit gc = head_commit repo →
  update_cache_repo cache_file dump_error false repo st t
  = (registered repo gc st, t ++ [rev_parse_cmd "origin/HEAD"], Return tt).
Proof.
  intros Hrc Hfile Hver Hcommit.
  unfold update_cache_repo, bind at 1. rewrite get_commit_hash_ok by done.
  unfold bind at 1. rewrite (load_cache_valid _ gc) by done.
  unfold bind at 1. rewrite bool_decide_false by (intros H; by destruct H).
  reflexivity.
Qed.

Lemma update_cache_repo_extend repo (gc : GitCache) ys (st : State) t :
  returncode (rev_parse repo "origin/HEAD") = 0%Z →
  files st !! cache_file repo = Some (Pickled gc) →
  gc_version gc = cache_version →
  gc_commit gc ≠ head_commit repo →
  parse_git_log (git_log (parsed_git_repo repo) (gc_commit gc +:+ "..origin/HEAD"))
    true false = Ok ys →
  update_cache_repo cache_file dump_error false repo st t
  = match dump_error (cache_file repo) with
    | Some strerror =>
        (registered repo (extended_cache repo gc ys) st,
         t ++ [rev_parse_cmd "origin/HEAD"],
         Raise (UserException (dump_failed_msg (cache_file repo) strerror)))
    | None =>
        (written (cache_file repo) repo (extended_cache repo gc ys) st,
         t ++ [rev_parse_cmd "origin/HEAD"; AtomicWrite (cache_file repo)], Return tt)
    end.
Proof.
  intros Hrc Hfile Hver Hcommit Hparse.
  unfold update_cache_repo, bind at 1. rewrite get_commit_hash_ok by done.
  unfold bind at 1. rewrite (load_cache_valid _ gc) by done.
  unfold bind at 1. rewrite bool_decide_true by (intros H; by destruct Hcommit).
  unfold bind at 1. unfold run_update.
  rewrite (update_Ok _ _ (Some (gc_data gc)) false ys Hparse).
  unfold ret at 1. unfold ret at 1. unfold bind, get, put.
  destruct (dump_error (cache_file repo)); [reflexivity|].
  unfold emit, ret, written. by rewrite <- app_assoc.
Qed.

(** Loading never raises; it changes the files only, and a cache it returns
    is the content of the file and has the current version. *)
Lemma load_cache_returns (force : bool) path (st : State) t :
  ∃ st' t' loaded,
    (if force then ret (S := State) None else load_cache path) st t
    = (st', t', Return loaded)
    ∧ _cached_repos st' = _cached_repos st
    ∧ ∀ gc, loaded = Some gc →
        st' = st ∧ t' = t ∧ force = false
        ∧ files st !! path = Some (Pickled gc) ∧ gc_version gc = cache_version.
Proof.
  destruct force; [by eexists st, t, None|].
  unfold load_cache, bind at 1, get.
  destruct (files st !! path) as [[gc|]|] eqn:Hfile.
  - destruct (decide (gc_version gc = cache_version)) as [Hv | Hv].
    + rewrite bool_decide_false by (intros ?; done).
      eexists st, t, (Some gc). split_and!; [done | done |].
      by intros ? [= <-].
    + rewrite bool_decide_true by done.
      eexists _, _, None. split_and!; [reflexivity | done | done].
  - eexists _, _, None. split_and!; [reflexivity | done | done].
  - by eexists st, t, None.
Qed.

(** After the loop body has returned for a repository whose [origin/HEAD]
    resolves, the cache file and the addon hold the same cache, of the
    current version and of that commit. *)
Lemma update_cache_repo_returns force repo (st st1 : State) t t1 :
  update_cache_repo cache_file dump_error force repo st t = (st1, t1, Return tt) →
  (returncode (rev_parse repo "origin/HEAD") ≠ 0%Z
   ∧ st1 = st ∧ t1 = t ++ [rev_parse_cmd "origin/HEAD"])
  ∨ (returncode (rev_parse repo "origin/HEAD") = 0%Z
     ∧ ∃ gc,
         files st1 !! cache_file repo = Some (Pickled gc)
         ∧ _cached_repos st1 !! location repo = Some gc
         ∧ gc_version gc = cache_version
         ∧ gc_commit gc = head_commit repo).
Proof.
  destruct (decide (returncode (rev_parse repo "origin/HEAD") = 0%Z)) as [Hrc | Hrc];
    [|rewrite update_cache_repo_no_head by done; intros [= <- <-]; by left].
  intros H. right. split; [done|]. revert H.
  unfold update_cache_repo, bind at 1. rewrite get_commit_hash_ok by done.
  unfold bind at 1.
  destruct (load_cache_returns force (cache_file repo) st
              (t ++ [Run ["git"; "rev-parse"; "origin/HEAD"]]))
    as (st' & t' & loaded & -> & Hcached & Hloaded).
  unfold bind at 1.
  destruct loaded as [gc|].
  - destruct (Hloaded gc eq_refl) as (-> & -> & -> & Hfile & Hver).
    destruct (decide (head_commit repo = gc_commit gc)) as [Heq | Hne].
    + rewrite bool_decide_false by (intros H; by destruct H).
      unfold ret at 1. unfold bind, get, put, ret. intros [= <- <-].
      exists gc. split_and!; [done | apply lookup_insert_eq | done | done].
    + rewrite bool_decide_true by done.
      unfold bind at 1, run_update.
      destruct (update _ _ _ _) as [d| |]; [|done..].
      unfold ret at 1. unfold ret at 1. unfold bind, get, put.
      destruct (dump_error (cache_file repo)); [done|].
      unfold emit, ret. intros [= <- <-].
      eexists. split_and!; [apply lookup_insert_eq | apply lookup_insert_eq | done | done].
  - unfold bind at 1, run_update.
    destruct (update _ _ _ _) as [d| |]; [|done..].
    unfold ret at 1. unfold ret at 1. unfold bind, get, put.
    destruct (dump_error (cache_file repo)); [done|].
    unfold emit, ret. intros [= <- <-].
    eexists. split_and!; [apply lookup_insert_eq | apply lookup_insert_eq | done | done].
Qed.

End UpdateCachePaths.

(** X21. When the cache file holds a cache of the current version whose
    commit is the commit of [origin/HEAD], [update_cache] registers that
    cache for the repository and does nothing else: the files are not
    touched and the history is not consulted. *)
Theorem update_cache_keeps_current_cache :
  ∀ (AM : AtomModel) (cache_file : Repo → string) (dump_error : string → option string)
    (repo : Repo) (git_cache : GitAddon.GitCache) (st : GitAddon.State) (t0 : list Event),
    returncode (rev_parse repo "origin/HEAD") = 0%Z →
    GitAddon.files st !! cache_file repo = Some (GitAddon.Pickled git_cache) →
    GitAddon.gc_version git_cache = GitAddon.cache_version →
    GitAddon.gc_commit git_cache = head_commit repo →
    GitAddon.update_cache cache_file dump_error true false [repo] st t0
    = (registered repo git_cache st, t0 ++ [rev_parse_cmd "origin/HEAD"], Return tt).
Proof.
  intros. rewrite update_cache_one. by apply update_cache_repo_current.
Qed.

Lemma update_cache_keeps_current_cache_witness :
  GitAddon.update_cache pickle_path (fun _ => None) true false [cached_repo]
    current_state []
  = (registered cached_repo current_cache current_state,
     [] ++ [rev_parse_cmd "origin/HEAD"], Return tt).
Proof.
  apply (update_cache_keeps_current_cache SampleAtoms.model pickle_path (fun _ => None)
           cached_repo current_cache current_state []);
    reflexivity.
Defined.

(** X22. When the cache file holds a cache of the current version of
    another commit, [update_cache] parses the range from that commit to
    [origin/HEAD] only, and registers and writes a cache of the commit of
    [origin/HEAD] in which every list of the loaded cache is kept, the new
    tuples coming after it. *)
Theorem update_cache_extends_older_cache :
  ∀ (AM : AtomModel) (cache_file : Repo → string) (dump_error : string → option string)
    (repo : Repo) (git_cache : GitAddon.GitCache) (ys : list Yield)
    (st : GitAddon.State) (t0 : list Event),
    returncode (rev_parse repo "origin/HEAD") = 0%Z →
    GitAddon.files st !! cache_file repo = Some (GitAddon.Pickled git_cache) →
    GitAddon.gc_version git_cache = GitAddon.cache_version →
    GitAddon.gc_commit git_cache ≠ head_commit repo →
    parse_git_log
      (git_log (parsed_git_repo repo) (GitAddon.gc_commit git_cache +:+ "..origin/HEAD"))
      true false = Ok ys →
    dump_error (cache_file repo) = None →
    GitAddon.update_cache cache_file dump_error true false [repo] st t0
    = (written (cache_file repo) repo (extended_cache repo git_cache ys) st,
       t0 ++ [rev_parse_cmd "origin/HEAD"; AtomicWrite (cache_file repo)], Return tt)
    ∧ ∀ c p s,
        entries (GitAddon.gc_data (extended_cache repo git_cache ys)) c p s
        = entries (GitAddon.gc_data git_cache) c p s
          ++ appended false c p s (first_occurrences (pkg_changes ys)).
Proof.
  intros AM cache_file dump_error repo git_cache ys st t0 Hrc Hfile Hver Hcommit Hparse Hdump.
  split.
  - rewrite update_cache_one.
    rewrite (update_cache_repo_extend _ _ repo git_cache ys) by done.
    by rewrite Hdump.
  - intros c p s. apply entries_foldl.
Qed.

Lemma update_cache_extends_older_cache_witness :
  GitAddon.update_cache pickle_path (fun _ => None) true false [grown_repo]
    older_state []
  = (written (pickle_path grown_repo) grown_repo
       (extended_cache grown_repo older_cache ys_BC) older_state,
     [] ++ [rev_parse_cmd "origin/HEAD"; AtomicWrite (pickle_path grown_repo)],
     Return tt)
  ∧ ∀ c p s,
      entries (GitAddon.gc_data (extended_cache grown_repo older_cache ys_BC)) c p s
      = entries (GitAddon.gc_data older_cache) c p s
        ++ appended false c p s (first_occurrences (pkg_changes ys_BC)).
Proof.
  apply (update_cache_extends_older_cache SampleAtoms.model pickle_path (fun _ => None)
           grown_repo older_cache ys_BC older_state []);
    first [reflexivity | discriminate].
Defined.

(** X23. With [force], [update_cache] does not look at the cache file: it
    neither loads nor removes it, whatever it holds, and builds the cache
    from the full history as it does when there is no file. *)
Theorem update_cache_force_ignores_cache_file :
  ∀ (AM : AtomModel) (cache_file : Repo → string) (dump_error : string → option string)
    (repo : Repo) (ys : list Yield) (st : GitAddon.State) (t0 : list Event),
    returncode (rev_parse repo "origin/HEAD") = 0%Z →
    parse_git_log (git_log (parsed_git_repo repo) "origin/HEAD") true false = Ok ys →
    GitAddon.update_cache cache_file dump_error true true [repo] st t0
    = rebuild cache_file dump_error repo ys st (t0 ++ [rev_parse_cmd "origin/HEAD"]).
Proof.
  intros AM cache_file dump_error repo ys st t0 Hrc Hparse.
  rewrite update_cache_one. by apply update_cache_repo_rebuild.
Qed.

Lemma update_cache_force_ignores_cache_file_witness :
  GitAddon.update_cache pickle_path (fun _ => None) true true [cached_repo]
    stale_state []
  = rebuild pickle_path (fun _ => None) cached_repo ys_full stale_state
      ([] ++ [rev_parse_cmd "origin/HEAD"]).
Proof.
  apply (update_cache_force_ignores_cache_file SampleAtoms.model pickle_path
           (fun _ => None) cached_repo ys_full stale_state []);
    reflexivity.
Defined.

(** X24. A repository whose [origin/HEAD] does not resolve ([GitError]) is
    skipped: nothing is loaded, registered or written for it, and
    [update_cache] goes on with the repositories after it. *)
Theorem update_cache_skips_repo_without_head :
  ∀ (AM : AtomModel) (cache_file : Repo → string) (dump_error : string → option string)
    (force : bool) (repo : Repo) (repos : list Repo)
    (st : GitAddon.State) (t0 : list Event),
    returncode (rev_parse repo "origin/HEAD") ≠ 0%Z →
    GitAddon.update_cache cache_file dump_error true force (repo :: repos) st t0
    = GitAddon.update_cache cache_file dump_error true force repos st
        (t0 ++ [rev_parse_cmd "origin/HEAD"]).
Proof.
  intros AM cache_file dump_error force repo repos st t0 Hrc.
  rewrite update_cache_cons. by rewrite update_cache_repo_no_head by done.
Qed.

Lemma update_cache_skips_repo_without_head_witness :
  GitAddon.update_cache pickle_path (fun _ => None) true false
    [headless_repo; cached_repo] current_state []
  = GitAddon.update_cache pickle_path (fun _ => None) true false [cached_repo]
      current_state ([] ++ [rev_parse_cmd "origin/HEAD"]).
Proof.
  apply (update_cache_skips_repo_without_head SampleAtoms.model pickle_path
           (fun _ => None) false headless_repo [cached_repo] current_state []).
  discriminate.
Defined.

(** X25. A cache file that cannot be loaded is removed and the cache is
    built from the full history; when writing it then fails with an
    [IOError], [update_cache] raises [UserException] with the message
    [failed dumping git pkg repo: ] followed by the [repr] of the path of the
    cache file, a colon and the [strerror] of the error: the cache is
    registered already, nothing is written, and the repositories after this
    one are not processed. *)
Theorem update_cache_unreadable_file_and_dump_failure :
  ∀ (AM : AtomModel) (cache_file : Repo → string) (dump_error : string → option string)
    (repo : Repo) (repos : list Repo) (ys : list Yield) (strerror : string)
    (st : GitAddon.State) (t0 : list Event),
    returncode (rev_parse repo "origin/HEAD") = 0%Z →
    GitAddon.files st !! cache_file repo = Some GitAddon.Unreadable →
    parse_git_log (git_log (parsed_git_repo repo) "origin/HEAD") true false = Ok ys →
    dump_error (cache_file repo) = Some strerror →
    GitAddon.update_cache cache_file dump_error true false (repo :: repos) st t0
    = (registered repo (rebuilt_cache repo ys) (without_cache_file (cache_file repo) st),
       t0 ++ [rev_parse_cmd "origin/HEAD"; OsRemove (cache_file repo)],
       Raise (UserException
                ("failed dumping git pkg repo: " +:+ PyStr.repr (cache_file repo)
                 +:+ ": " +:+ strerror))).
Proof.
  intros AM cache_file dump_error repo repos ys strerror st t0 Hrc Hfile Hparse Hdump.
  rewrite update_cache_cons.
  rewrite (update_cache_repo_rebuild _ _ repo ys st t0
             (without_cache_file (cache_file repo) st)
             ((t0 ++ [rev_parse_cmd "origin/HEAD"]) ++ [OsRemove (cache_file repo)]))
    by (try done; by apply load_cache_unreadable).
  unfold rebuild. rewrite Hdump. by rewrite <- app_assoc.
Qed.

Lemma update_cache_unreadable_file_and_dump_failure_witness :
  GitAddon.update_cache pickle_path (fun _ => Some "Is a directory") true false
    [cached_repo; grown_repo] unreadable_state []
  = (registered cached_repo (rebuilt_cache cached_repo ys_full)
       (without_cache_file (pickle_path cached_repo) unreadable_state),
     [] ++ [rev_parse_cmd "origin/HEAD"; OsRemove (pickle_path cached_repo)],
     Raise (UserException
              ("failed dumping git pkg repo: " +:+ PyStr.repr (pickle_path cached_repo)
               +:+ ": " +:+ "Is a directory")))
  ∧ "failed dumping git pkg repo: " +:+ PyStr.repr (pickle_path cached_repo)
    +:+ ": " +:+ "Is a directory"
    = "failed dumping git pkg repo: '/var/db/repos/gentoo/git.pickle': Is a directory".
Proof.
  split; [|reflexivity].
  apply (update_cache_unreadable_file_and_dump_failure SampleAtoms.model pickle_path
           (fun _ => Some "Is a directory") cached_repo [grown_repo] ys_full
           "Is a directory" unreadable_state []);
    reflexivity.
Defined.

(** X26. Running [update_cache] again after it has returned changes
    nothing, whatever the first run did (kept, extended or rebuilt the
    cache, forced or not, or skipped the repository): the second run asks
    for the commit of [origin/HEAD] and leaves the files and the registered
    caches as they are. *)
Theorem update_cache_run_again_changes_nothing :
  ∀ (AM : AtomModel) (cache_file : Repo → string) (dump_error : string → option string)
    (force : bool) (repo : Repo) (st st1 : GitAddon.State) (t0 t1 : list Event),
    GitAddon.update_cache cache_file dump_error true force [repo] st t0
    = (st1, t1, Return tt) →
    GitAddon.update_cache cache_file dump_error true false [repo] st1 t1
    = (st1, t1 ++ [rev_parse_cmd "origin/HEAD"], Return tt).
Proof.
  intros AM cache_file dump_error force repo st st1 t0 t1.
  rewrite !update_cache_one.
  intros [(Hrc & _ & _) | (Hrc & gc & Hfile & Hcached & Hver & Hcommit)]
    %update_cache_repo_returns.
  - by apply update_cache_repo_no_head.
  - rewrite (update_cache_repo_current _ _ repo gc) by done.
    f_equal. f_equal. unfold registered. destruct st1 as [fs cs]. simpl in *.
    f_equal. by apply insert_id.
Qed.

Lemma update_cache_run_again_changes_nothing_witness :
  GitAddon.update_cache pickle_path (fun _ => None) true false [cached_repo]
    rebuilt_state
    [Run ["git"; "rev-parse"; "origin/HEAD"]; OsRemove (pickle_path cached_repo);
     AtomicWrite (pickle_path cached_repo)]
  = (rebuilt_state,
     [Run ["git"; "rev-parse"; "origin/HEAD"]; OsRemove (pickle_path cached_repo);
      AtomicWrite (pickle_path cached_repo)] ++ [rev_parse_cmd "origin/HEAD"],
     Return tt).
Proof.
  apply (update_cache_run_again_changes_nothing SampleAtoms.model pickle_path
           (fun _ => None) false cached_repo stale_state rebuilt_state []).
  reflexivity.
Defined.

(** ** [cached_repo], [commits_repo], [commits] and [gitignored] *)

Section CachedRepoFacts.
Import GitAddon.
Context {AM : AtomModel}.
Variable repo_id : Repo → string.
Variable cache_truthy : GitCache → bool.
Variable cached : gmap string GitCache.
Variable cls : RepoClass.

(** The loop ends without [break] exactly when every tree has its history
    repository; it appends them in the order of the trees. *)
Lemma history_repos_spec trees acc rs :
  history_repos repo_id cache_truthy cached cls trees acc = Some rs
  ↔ ∃ hs, rs = acc ++ hs
          ∧ Forall2 (history_of_tree repo_id cache_truthy cached cls) trees hs.
Proof.
  revert acc. induction trees as [|repo trees IH]; intros acc; cbn [history_repos].
  - split.
    + intros [= <-]. exists []. split; [by rewrite app_nil_r | constructor].
    + intros (hs & -> & ->%Forall2_nil_inv_l). by rewrite app_nil_r.
  - split.
    + destruct (cached !! location repo) as [gc|] eqn:Hgc; [|done].
      destruct (cache_truthy gc) eqn:Ht; [|done].
      intros (hs & -> & Hhs)%IH. eexists (_ :: hs).
      split; [by rewrite <- app_assoc|]. constructor; [|done].
      by split_and!.
    + intros (hs & -> & Hhs).
      apply Forall2_cons_inv_l in Hhs as (h & hs' & (Hc & Hgc & Ht & Hid) & Hhs' & ->).
      rewrite Hgc, Ht. apply IH. exists hs'. split; [|done].
      rewrite <- app_assoc. do 2 f_equal. destruct h. simpl in *. by subst.
Qed.

Lemma cached_repo_trees trees r :
  cached_repo repo_id cache_truthy true cached cls trees = Some r →
  trees ≠ [] ∧ Forall2 (history_of_tree repo_id cache_truthy cached cls) trees (trees_of r).
Proof.
  unfold cached_repo.
  destruct (history_repos repo_id cache_truthy cached cls trees []) as [rs|] eqn:H;
    [|done].
  apply history_repos_spec in H as (hs & -> & Hhs). cbn [app].
  destruct hs as [|h [|h' hs]]; [done | |]; intros [= <-];
    (split; [|done]); intros ->; by apply Forall2_nil_inv_l in Hhs.
Qed.

Lemma cached_repo_is_Some trees hs :
  trees ≠ [] →
  Forall2 (history_of_tree repo_id cache_truthy cached cls) trees hs →
  is_Some (cached_repo repo_id cache_truthy true cached cls trees).
Proof.
  intros Hne Hhs. unfold cached_repo.
  assert (H : history_repos repo_id cache_truthy cached cls trees [] = Some hs)
    by (apply history_repos_spec; by exists hs).
  rewrite H. destruct hs as [|h [|h' hs]]; [|by eexists..].
  by apply Forall2_nil_inv_r in Hhs.
Qed.

End CachedRepoFacts.

(** X27. [cached_repo] returns a repository exactly when git support is
    enabled, the target has a tree and every tree has a registered cache that
    is true as a condition: one tree without such a cache disables the
    history for all.  The repository it returns has one history repository
    per tree, in the order of the trees, over the cache registered for the
    tree. *)
Theorem cached_repo_all_or_nothing :
  ∀ (AM : AtomModel) (repo_id : Repo → string)
    (cache_truthy : GitAddon.GitCache → bool) (git_enabled : bool)
    (cached : gmap string GitAddon.GitCache) (cls : RepoClass) (trees : list Repo),
    (is_Some (GitAddon.cached_repo repo_id cache_truthy git_enabled cached cls trees)
     ↔ git_enabled = true ∧ trees ≠ []
       ∧ Forall (fun repo => ∃ git_cache, cached !! location repo = Some git_cache
                                        ∧ cache_truthy git_cache = true) trees)
    ∧ ∀ r, GitAddon.cached_repo repo_id cache_truthy git_enabled cached cls trees = Some r →
           Forall2 (history_of_tree repo_id cache_truthy cached cls) trees (trees_of r).
Proof.
  intros AM repo_id cache_truthy git_enabled cached cls trees. split.
  - destruct git_enabled; [|split; [by intros [? ?] | by intros [? _]]].
    split.
    + intros [r [Hne Hr]%cached_repo_trees]. split_and!; [done | done |].
      clear Hne. induction Hr as [|repo h trees' l (_ & Hgc & Ht & _) _ IH]; [constructor|].
      constructor; [by exists (GitAddon.h_cache h) | done].
    + intros (_ & Hne & Hall).
      assert (∃ hs, Forall2 (history_of_tree repo_id cache_truthy cached cls) trees hs)
        as [hs Hhs].
      { clear Hne. induction Hall as [|repo trees' (gc & Hgc & Ht) _ [hs IH]].
        - exists []. constructor.
        - exists ({| GitAddon.h_cls := cls; GitAddon.h_cache := gc;
                     GitAddon.h_repo_id := repo_id repo +:+ "-history" |} :: hs).
          constructor; [by split_and! | done]. }
      by apply (cached_repo_is_Some _ _ _ _ _ hs).
  - intros r Hr. destruct git_enabled; [|done].
    by apply cached_repo_trees in Hr as [_ Hr].
Qed.

Section CommitsFacts.
Import GitAddon.
Context {AM : AtomModel} {S : Type}.

Lemma get_commit_hash_run (repo : Repo) (commit : string) (s : S) t :
  _get_commit_hash repo commit s t
  = (s, t ++ [rev_parse_cmd commit],
     Return (if bool_decide (returncode (rev_parse repo commit) ≠ 0%Z) then None
             else Some (PyStr.strip (p_stdout (rev_parse repo commit))))).
Proof.
  unfold _get_commit_hash, bind, subprocess_run, emit, ret. simpl.
  by destruct (bool_decide _).
Qed.

Lemma origin_and_master_run (repo : Repo) (s : S) t :
  origin_and_master repo s t
  = (s, t ++ compare_heads repo,
     Return (if bool_decide (returncode (rev_parse repo "origin/HEAD") ≠ 0%Z) then None
             else if bool_decide (returncode (rev_parse repo "master") ≠ 0%Z) then None
             else Some (head_commit repo, master_commit repo))).
Proof.
  unfold origin_and_master, bind at 1. rewrite get_commit_hash_run.
  unfold compare_heads. destruct (bool_decide _); [done|].
  unfold bind. rewrite get_commit_hash_run, <- app_assoc.
  by destruct (bool_decide _).
Qed.

End CommitsFacts.

(** X28. When [origin/HEAD] or [master] does not resolve, or both are the
    same commit, [commits_repo] gives the empty dictionary and [commits] the
    exhausted iterator, without an error and without parsing a log; the
    commit of [master] is not asked for when [origin/HEAD] did not
    resolve. *)
Theorem no_local_commits_without_differing_heads :
  ∀ (AM : AtomModel) (S : Type) (repo : Repo) (s : S) (t0 : list Event),
    returncode (rev_parse repo "origin/HEAD") ≠ 0%Z
    ∨ returncode (rev_parse repo "master") ≠ 0%Z
    ∨ head_commit repo = master_commit repo →
    GitAddon.commits_repo true repo s t0 = (s, t0 ++ compare_heads repo, Return ∅)
    ∧ GitAddon.commits true repo s t0 = (s, t0 ++ compare_heads repo, Return (Ok [])).
Proof.
  intros AM S repo s t0 H.
  unfold GitAddon.commits_repo, GitAddon.commits, bind.
  rewrite origin_and_master_run.
  destruct (bool_decide (returncode (rev_parse repo "origin/HEAD") ≠ 0%Z)) eqn:E1; [done|].
  destruct (bool_decide (returncode (rev_parse repo "master") ≠ 0%Z)) eqn:E2; [done|].
  apply bool_decide_eq_false in E1, E2.
  destruct H as [H | [H | H]]; [done | done |].
  by rewrite bool_decide_false by (intros Hne; by destruct Hne).
Qed.

Lemma no_local_commits_without_differing_heads_witness :
  GitAddon.commits_repo (AM := SampleAtoms.model) true cached_repo tt []
  = (tt, [] ++ compare_heads cached_repo, Return ∅)
  ∧ GitAddon.commits (AM := SampleAtoms.model) true cached_repo tt []
    = (tt, [] ++ compare_heads cached_repo, Return (Ok [])).
Proof.
  apply (no_local_commits_without_differing_heads SampleAtoms.model unit cached_repo tt []).
  right. right. reflexivity.
Defined.

(** X29. When [origin/HEAD] and [master] resolve to different commits,
    [commits_repo] gives the dictionary of the range [origin/HEAD..master]
    parsed in local mode: its tuples are those of the events that are the
    first with their atom and status, each with the version of the atom, the
    date of the commit, the commit object and the extra data of the event
    (the [old_atom] of a rename). *)
Theorem commits_repo_of_local_commits :
  ∀ (AM : AtomModel) (S : Type) (repo : Repo) (ys : list Yield) (s : S) (t0 : list Event),
    returncode (rev_parse repo "origin/HEAD") = 0%Z →
    returncode (rev_parse repo "master") = 0%Z →
    head_commit repo ≠ master_commit repo →
    parse_git_log (git_log (parsed_git_repo repo) "origin/HEAD..master") true true = Ok ys →
    ∃ d : Data,
      GitAddon.commits_repo true repo s t0
      = (s, t0 ++ [rev_parse_cmd "origin/HEAD"; rev_parse_cmd "master"], Return d)
      ∧ ∀ c p st x,
          x ∈ entries d c p st
          ↔ ∃ e, head (with_key (key e) (pkg_changes ys)) = Some e
                 ∧ in_slot c p st e
                 ∧ x = LocalEntry (fullver (atom e)) (commit_date (commit e))
                         (commit e) (data e).
Proof.
  intros AM S repo ys s t0 Hrc1 Hrc2 Hne Hparse.
  eexists. split.
  - unfold GitAddon.commits_repo, bind. rewrite origin_and_master_run.
    unfold compare_heads.
    rewrite !bool_decide_false by (intros H; by destruct H).
    rewrite bool_decide_true by done.
    by rewrite (update_Ok _ _ None true ys Hparse).
  - intros c p st x. cbn [from_option id]. rewrite entries_foldl.
    change (entries ∅ c p st) with (@nil CommitEntry). cbn [app].
    rewrite elem_of_appended. split.
    + intros (e & He & Hslot & ->). exists e.
      split_and!; [by apply elem_of_first_occurrences_head | done | done].
    + intros (e & He & Hslot & ->). exists e.
      split_and!; [by apply elem_of_first_occurrences_head | done | done].
Qed.

Lemma commits_repo_of_local_commits_witness :
  ∃ d : Data,
    GitAddon.commits_repo (AM := SampleAtoms.model) true ahead_repo tt []
    = (tt, [] ++ [rev_parse_cmd "origin/HEAD"; rev_parse_cmd "master"], Return d)
    ∧ ∀ c p st x,
        x ∈ entries d c p st
        ↔ ∃ e, head (with_key (key e) (pkg_changes ys_local)) = Some e
               ∧ in_slot c p st e
               ∧ x = LocalEntry (fullver (atom e)) (commit_date (commit e))
                       (commit e) (data e).
Proof.
  apply (commits_repo_of_local_commits SampleAtoms.model unit ahead_repo ys_local tt []);
    first [reflexivity | discriminate].
Defined.

(** The events of the local commit: the renamed package comes with its old
    atom. *)
Example local_rename_events :
  ys_local
  = [YPkg {| atom := old_1; status := "R"; commit := rename_commit; data := ∅ |};
     YPkg new_1_renamed].
Proof. reflexivity. Qed.

Lemma drop_app (s rest : string) c :
  PyStr.drop (String.length s + 1) (s +:+ String c rest) = rest.
Proof. induction s as [|c' s IH]; [done|]. exact IH. Qed.

(** X30. For a path that is the location of the target repository followed
    by one character (the separator) and a relative path, [gitignored] asks
    the matcher about the relative path. *)
Theorem gitignored_matches_relative_path :
  ∀ (match_file : string → bool) (target_repo : Repo) (c : ascii) (rel : string),
    GitAddon.gitignored match_file target_repo (location target_repo +:+ String c rel)
    = match_file rel.
Proof.
  intros match_file target_repo c rel. unfold GitAddon.gitignored.
  by rewrite startswith_app, drop_app.
Qed.
